(** * api-req-validator: schema meta-validation, rule compilation,
      route resolution and request evaluation

    The development embeds the two TypeScript classes of the package,
    [ApiSchemaValidator] (api-schema-validator.ts) and [RequestValidator]
    (index.ts), and proves properties of them.

    Layout:
    - [Js]: the JavaScript values the code manipulates and the language
      operations it applies to them ([typeof], truthiness, [in],
      template-literal conversion, [split], [trim], object spread);
    - [Chain]: the express-validator chain the code builds with
      [body(field)] and runs with [rule.run(input)].  That library and
      validator.js are third-party code: the checks the properties below
      evaluate are written out ([exists], [isString], [isArray],
      [isEmpty], [isInt], [toInt], the custom checks of the package), the
      others are read from a provider [ext];
    - [SchemaValidator]: class [ApiSchemaValidator];
    - [Validator]: class [RequestValidator] and the route registry;
    - [Compiled]: the traversal of a rule tree as the ordered list of its
      field checks, and the selection of the reported failure in the
      words of the specification;
    - [Shape]: the items a compiled chain is made of;
    - [Exact]: the chain of a rule item by item, messages included;
    - [Examples]: the schemas and requests the statements are run on;
    - the properties, by component. *)

From Stdlib Require Import String Ascii List ZArith Bool Lia DecimalString.
Import ListNotations.
Local Open Scope string_scope.
Local Open Scope Z_scope.

(* ================================================================== *)
(** * JavaScript values and operations *)
(* ================================================================== *)

Module Js.

(** A JavaScript value.  Numbers are the integers, in the range where
    JavaScript holds and prints them exactly, and [NaN]; a schema or a
    JSON request with a fractional number is outside the model.  An
    object is the list of its own enumerable properties in enumeration
    order, each key at most once ([wf_props]). *)
Unset Elimination Schemes.
Inductive Value : Type :=
| VUndefined
| VNull
| VBool (b : bool)
| VNum (n : Z)
| VNaN
| VStr (s : string)
| VArr (xs : list Value)
| VObj (kv : list (string * Value)).
Set Elimination Schemes.

(** [typeof v] *)
Definition typeof (v : Value) : string :=
  match v with
  | VUndefined => "undefined"
  | VNull => "object"
  | VBool _ => "boolean"
  | VNum _ | VNaN => "number"
  | VStr _ => "string"
  | VArr _ | VObj _ => "object"
  end.

(** [typeof v === 'object'] *)
Definition typeof_object (v : Value) : bool :=
  match v with
  | VNull | VArr _ | VObj _ => true
  | _ => false
  end.

(** ToBoolean: what [if (v)], [v && _] and [v || _] test. *)
Definition truthy (v : Value) : bool :=
  match v with
  | VUndefined | VNull | VNaN => false
  | VBool b => b
  | VNum n => negb (n =? 0)
  | VStr s => negb (s =? "")%string
  | VArr _ | VObj _ => true
  end.

(** [Array.isArray(v)] *)
Definition isArray (v : Value) : bool :=
  match v with VArr _ => true | _ => false end.

(** Decimal rendering of an integer, as [String(n)] gives it. *)
Definition string_of_Z (n : Z) : string :=
  NilZero.string_of_int (Z.to_int n).

Definition string_of_nat (n : nat) : string := string_of_Z (Z.of_nat n).

Fixpoint join (sep : string) (l : list string) : string :=
  match l with
  | [] => ""
  | [x] => x
  | x :: rest => x ++ sep ++ join sep rest
  end.

(** ToString, the conversion of [`${v}`]: an array joins its elements
    with a comma, [null] and [undefined] elements rendered empty. *)
Fixpoint to_string (v : Value) : string :=
  match v with
  | VUndefined => "undefined"
  | VNull => "null"
  | VBool true => "true"
  | VBool false => "false"
  | VNum n => string_of_Z n
  | VNaN => "NaN"
  | VStr s => s
  | VArr xs =>
      join "," (map (fun x => match x with
                              | VUndefined | VNull => ""
                              | _ => to_string x
                              end) xs)
  | VObj _ => "[object Object]"
  end.

(** Own property lookup in a property list: the first binding of [k]. *)
Fixpoint lookup (k : string) (kv : list (string * Value)) : option Value :=
  match kv with
  | [] => None
  | (k', v) :: rest => if (k' =? k)%string then Some v else lookup k rest
  end.

(** [o.k] and [o?.k] for the seven rule keys and the other names the
    package reads: a property of an object, [undefined] on every other
    value (none of these names is a property of an array, a string, a
    number or a boolean; [length] is read through [get_length]). *)
Definition get (o : Value) (k : string) : Value :=
  match o with
  | VObj kv => match lookup k kv with Some v => v | None => VUndefined end
  | _ => VUndefined
  end.

(** [o.length] *)
Definition get_length (o : Value) : Value :=
  match o with
  | VObj kv => match lookup "length" kv with Some v => v | None => VUndefined end
  | VArr xs => VNum (Z.of_nat (List.length xs))
  | VStr s => VNum (Z.of_nat (String.length s))
  | _ => VUndefined
  end.

(** [k] is the decimal text of one of the [n] indices from [i] on. *)
Fixpoint is_index_below (k : string) (n i : nat) : bool :=
  match n with
  | O => false
  | S n' => (string_of_nat i =? k)%string || is_index_below k n' (S i)
  end.

(** [k in o], for [o] an object or an array (the package applies [in]
    only behind [typeof o === 'object'] and a null test). *)
Definition has_prop (k : string) (o : Value) : bool :=
  match o with
  | VObj kv => match lookup k kv with Some _ => true | None => false end
  | VArr xs => (k =? "length")%string || is_index_below k (List.length xs) 0
  | _ => false
  end.

(** The characters of a string as one-character strings. *)
Fixpoint chars (s : string) : list string :=
  match s with
  | EmptyString => []
  | String c rest => String c EmptyString :: chars rest
  end.

(** [xs.map((x, i) => f(i, x))], the indices counted from [i]. *)
Fixpoint mapi {A B : Type} (f : nat -> A -> B) (i : nat) (xs : list A) : list B :=
  match xs with
  | [] => []
  | x :: rest => f i x :: mapi f (S i) rest
  end.

Fixpoint index_from (i : nat) (xs : list Value) : list (string * Value) :=
  match xs with
  | [] => []
  | x :: rest => (string_of_nat i, x) :: index_from (S i) rest
  end.

(** [Object.entries(v)]; [None] is the TypeError on [null] and
    [undefined]. *)
Definition entries (v : Value) : option (list (string * Value)) :=
  match v with
  | VUndefined | VNull => None
  | VObj kv => Some kv
  | VArr xs => Some (index_from 0 xs)
  | VStr s => Some (index_from 0 (map VStr (chars s)))
  | VBool _ | VNum _ | VNaN => Some []
  end.

(** [Object.keys(v)] *)
Definition keys (v : Value) : option (list string) :=
  option_map (map fst) (entries v).

(** [v[Object.keys(v)[0]]]: the value of the first own property,
    [undefined] when there is none; [None] is the TypeError of
    [Object.keys] on [null] and [undefined]. *)
Definition first_prop (v : Value) : option Value :=
  match entries v with
  | None => None
  | Some [] => Some VUndefined
  | Some ((_, x) :: _) => Some x
  end.

(** Property assignment on a property list: an existing key keeps its
    place and takes the new value, a new key goes last. *)
Fixpoint set_prop (k : string) (v : Value) (kv : list (string * Value))
  : list (string * Value) :=
  match kv with
  | [] => [(k, v)]
  | (k', v') :: rest =>
      if (k' =? k)%string then (k, v) :: rest
      else (k', v') :: set_prop k v rest
  end.

(** [{...acc, ...src}]: the own enumerable properties of [src] are
    assigned in order; [null], [undefined], numbers and booleans have
    none. *)
Definition spread (acc : list (string * Value)) (src : Value)
  : list (string * Value) :=
  match entries src with
  | None => acc
  | Some kv => fold_left (fun a p => set_prop (fst p) (snd p) a) kv acc
  end.

(** Keys of a property list are pairwise distinct. *)
Definition wf_props (kv : list (string * Value)) : Prop := NoDup (map fst kv).

(** The own enumerable property [k] of a value, if it has one. *)
Definition own (v : Value) (k : string) : option Value :=
  match entries v with
  | Some kv => lookup k kv
  | None => None
  end.

(** The own properties of a value have pairwise distinct keys. *)
Definition wf (v : Value) : Prop :=
  match entries v with
  | Some kv => wf_props kv
  | None => True
  end.

(** A string is a JavaScript string whose code units are all below 256,
    each character standing for the code unit of its number; a text with
    a code unit from 256 on is outside the model.  The white space and
    line terminators that [String.prototype.trim] strips are, among
    these code units: tab, line feed, vertical tab, form feed, carriage
    return, space, and the no-break space U+00A0. *)
Definition is_space (c : ascii) : bool :=
  let n := nat_of_ascii c in
  ((9 <=? n)%nat && (n <=? 13)%nat) || (n =? 32)%nat || (n =? 160)%nat.

Fixpoint trim_start (s : string) : string :=
  match s with
  | EmptyString => EmptyString
  | String c rest => if is_space c then trim_start rest else s
  end.

Fixpoint trim_end (s : string) : string :=
  match s with
  | EmptyString => EmptyString
  | String c rest =>
      match trim_end rest with
      | EmptyString => if is_space c then EmptyString else String c EmptyString
      | t => String c t
      end
  end.

(** [s.trim()] *)
Definition trim (s : string) : string := trim_end (trim_start s).


(** [s.split(sep)] for a one-character separator. *)
Fixpoint split (sep : ascii) (s : string) : list string :=
  match s with
  | EmptyString => [EmptyString]
  | String c rest =>
      if Ascii.eqb c sep then EmptyString :: split sep rest
      else match split sep rest with
           | [] => [String c EmptyString]
           | w :: ws => String c w :: ws
           end
  end.

(** [s.includes(c)] for a one-character argument. *)
Fixpoint includes (c : ascii) (s : string) : bool :=
  match s with
  | EmptyString => false
  | String c' rest => Ascii.eqb c' c || includes c rest
  end.

(** [a[i]] on an array of strings. *)
Definition nth_str (i : nat) (l : list string) : string := nth i l "".

End Js.

(* ================================================================== *)
(** * Failure codes and messages *)
(* ================================================================== *)

Module Message.

(** [enum validationErrorCode]: the members number from 0 in
    declaration order. *)
Inductive validationErrorCode : Type :=
| MANDATORY_FIELD_ERROR
| EMPTY_FIELD_ERROR
| DATATYPE_ERROR
| PATTERN_MATCHING_ERROR
| MIN_MAX_ERROR
| LENGTH_ERROR
| ALLOWED_VALUE_ERROR
| ARRAY_DATATYPE_ERROR.

Definition code_value (c : validationErrorCode) : Z :=
  match c with
  | MANDATORY_FIELD_ERROR => 0
  | EMPTY_FIELD_ERROR => 1
  | DATATYPE_ERROR => 2
  | PATTERN_MATCHING_ERROR => 3
  | MIN_MAX_ERROR => 4
  | LENGTH_ERROR => 5
  | ALLOWED_VALUE_ERROR => 6
  | ARRAY_DATATYPE_ERROR => 7
  end.

(** The object [{ errorMsg, errorCode }] that [errorMessageConstructor]
    returns and [withMessage] attaches to a check. *)
Record Msg : Type := mkMsg { errorMsg : string; errorCode : validationErrorCode }.

End Message.

(* ================================================================== *)
(** * The validation chain of express-validator *)
(* ================================================================== *)

(** The builder and the runner follow express-validator 7: a validator
    method appends a context item and becomes the target of
    [withMessage]; [not()] negates the next validator only; [run] takes
    the items in order on the current value of the field, all of them
    (the package uses no [bail]), each failing check adding an error with
    its message; a sanitizer replaces the value, and the new value is
    written back into the request.  Field paths are plain dotted paths. *)

Module Chain.
Import Js Message.

(** A validator.js check, applied to the text of a value. *)
Inductive StdValidator : Type :=
| IsEmpty
| IsEmail
| IsInt (options : list (string * Value))
| IsFloat (options : list (string * Value))
| IsAlphanumeric
| IsAlpha
| IsBoolean
| IsMobilePhone (locale : string)
| IsDate (format : string)
| Matches (pattern : Value)
| IsLength (min max : Value)
| IsIn (values : Value).

(** A check on the value itself: [exists], [isString] and [isArray] of
    express-validator, and the two functions the package hands to
    [custom]. *)
Inductive CustomValidator : Type :=
| Exists                         (* value !== undefined *)
| IsString                       (* typeof value === 'string' *)
| IsArray                        (* Array.isArray(value) *)
| NonEmptyArray                  (* applyMandatoryFieldValidation *)
| EveryTypeof (dataType : string). (* applyArrayValidation *)

Inductive Sanitizer : Type :=
| TrimString                     (* the customSanitizer of applyDataTypeValidation *)
| NormalizeEmail
| ToInt
| ToFloat
| ToBoolean.

Inductive ContextItem : Type :=
| StandardValidation (v : StdValidator) (negated : bool) (message : option Msg)
| CustomValidation (v : CustomValidator) (negated : bool) (message : option Msg)
| Sanitization (s : Sanitizer).

(** The chain [body(field)] returns, as the builder methods leave it. *)
Record ValidationChain : Type := mkChain {
  field : string;
  isOptional : bool;
  negateNext : bool;
  stack : list ContextItem
}.

Definition body (f : string) : ValidationChain :=
  {| field := f; isOptional := false; negateNext := false; stack := [] |}.

Definition addItem (it : ContextItem) (c : ValidationChain) : ValidationChain :=
  {| field := field c; isOptional := isOptional c; negateNext := false;
     stack := stack c ++ [it] |}.

Definition standard (v : StdValidator) (c : ValidationChain) : ValidationChain :=
  addItem (StandardValidation v (negateNext c) None) c.

Definition custom (v : CustomValidator) (c : ValidationChain) : ValidationChain :=
  addItem (CustomValidation v (negateNext c) None) c.

Definition sanitizer (s : Sanitizer) (c : ValidationChain) : ValidationChain :=
  {| field := field c; isOptional := isOptional c; negateNext := negateNext c;
     stack := stack c ++ [Sanitization s] |}.

Definition not_ (c : ValidationChain) : ValidationChain :=
  {| field := field c; isOptional := isOptional c; negateNext := true;
     stack := stack c |}.

Definition optional (c : ValidationChain) : ValidationChain :=
  {| field := field c; isOptional := true; negateNext := negateNext c;
     stack := stack c |}.

Definition exists_ := custom Exists.
Definition isString := custom IsString.
Definition isArray_ := custom IsArray.
Definition notEmpty (c : ValidationChain) := standard IsEmpty (not_ c).

(** The stack with the message of its last validator set; [None] when
    the stack holds no validator. *)
Fixpoint set_last_message (m : Msg) (items : list ContextItem)
  : option (list ContextItem) :=
  match items with
  | [] => None
  | it :: rest =>
      match set_last_message m rest with
      | Some rest' => Some (it :: rest')
      | None =>
          match it with
          | StandardValidation v n _ => Some (StandardValidation v n (Some m) :: rest)
          | CustomValidation v n _ => Some (CustomValidation v n (Some m) :: rest)
          | Sanitization _ => None
          end
      end
  end.

(** [chain.withMessage(m)]: [None] is the TypeError raised when no
    validator was added yet. *)
Definition withMessage (m : Msg) (c : ValidationChain) : option ValidationChain :=
  match set_last_message m (stack c) with
  | Some st => Some {| field := field c; isOptional := isOptional c;
                       negateNext := negateNext c; stack := st |}
  | None => None
  end.

(** ** Running a chain *)

(** What the third-party checks answer where the model does not spell
    them out. *)
Record External : Type := mkExternal {
  ext_valid : StdValidator -> string -> bool;
  ext_sanitize : Sanitizer -> string -> Value
}.

(** express-validator's [toString]: the text a standard check receives. *)
Definition to_text (v : Value) : string :=
  match v with
  | VUndefined | VNull | VNaN => ""
  | _ => to_string v
  end.

Definition digit_of (c : ascii) : option Z :=
  let n := nat_of_ascii c in
  if ((48 <=? n)%nat && (n <=? 57)%nat)%bool then Some (Z.of_nat (n - 48)) else None.

(** The value of a run of decimal digits, [None] when [s] holds another
    character. *)
Fixpoint digits_value (acc : Z) (s : string) : option Z :=
  match s with
  | EmptyString => Some acc
  | String c rest =>
      match digit_of c with
      | Some d => digits_value (10 * acc + d) rest
      | None => None
      end
  end.

(** The number a string matching [/^[-+]?[0-9]+$/] denotes, [None] when
    it does not match. *)
Definition int_literal (s : string) : option Z :=
  match s with
  | EmptyString => None
  | String c rest =>
      if Ascii.eqb c "-" then
        match rest with
        | EmptyString => None
        | _ => option_map Z.opp (digits_value 0 rest)
        end
      else if Ascii.eqb c "+" then
        match rest with
        | EmptyString => None
        | _ => digits_value 0 rest
        end
      else digits_value 0 s
  end.

(** A bound of an options object: absent, a number, or a value the
    model does not compare with. *)
Inductive Bound : Type := NoBound | NumBound (n : Z) | OtherBound.

Definition bound (k : string) (options : list (string * Value)) : Bound :=
  match lookup k options with
  | None => NoBound
  | Some (VNum n) => NumBound n
  | Some _ => OtherBound
  end.

(** An integer that JavaScript holds exactly as a number. *)
Definition held_exactly (n : Z) : bool := Z.abs n <=? 2 ^ 53.

(** validator.js [isInt(str, options)]: the text is an integer literal
    and lies within the bounds the options give.  The library compares
    the text with a bound as numbers: the comparison is written out
    where the integer of the text and the bounds are held exactly, and
    read from the provider elsewhere. *)
Definition isInt (ext : External) (options : list (string * Value))
  (s : string) : bool :=
  match bound "min" options, bound "max" options with
  | OtherBound, _ | _, OtherBound => ext_valid ext (IsInt options) s
  | NoBound, NoBound =>
      match int_literal s with None => false | Some _ => true end
  | lo, hi =>
      match int_literal s with
      | None => false
      | Some n =>
          let exact b := match b with NumBound m => held_exactly m | _ => true end in
          if held_exactly n && exact lo && exact hi then
            match lo with NumBound m => m <=? n | _ => true end &&
            match hi with NumBound m => n <=? m | _ => true end
          else ext_valid ext (IsInt options) s
      end
  end.

(** The leading run of decimal digits of [s] and its value. *)
Fixpoint leading_digits (acc : Z) (seen : bool) (s : string) : option Z :=
  match s with
  | EmptyString => if seen then Some acc else None
  | String c rest =>
      match digit_of c with
      | Some d => leading_digits (10 * acc + d) true rest
      | None => if seen then Some acc else None
      end
  end.

(** [parseInt(s, 10)] as an integer: the value validator.js [toInt]
    returns where JavaScript holds that integer exactly. *)
Definition parseInt (s : string) : Value :=
  let number (o : option Z) (sign : Z) :=
    match o with Some n => VNum (sign * n) | None => VNaN end in
  match trim_start s with
  | EmptyString => VNaN
  | String c rest as t =>
      if Ascii.eqb c "-" then number (leading_digits 0 false rest) (-1)
      else if Ascii.eqb c "+" then number (leading_digits 0 false rest) 1
      else number (leading_digits 0 false t) 1
  end.

Definition std_valid (ext : External) (v : StdValidator) (s : string) : bool :=
  match v with
  | IsEmpty => (s =? "")%string
  | IsInt options => isInt ext options s
  | _ => ext_valid ext v s
  end.

Definition custom_valid (v : CustomValidator) (x : Value) : bool :=
  match v with
  | Exists => match x with VUndefined => false | _ => true end
  | IsString => (typeof x =? "string")%string
  | IsArray => Js.isArray x
  | NonEmptyArray =>
      match x with
      | VArr xs => negb (Nat.eqb (List.length xs) 0)
      | _ => true
      end
  | EveryTypeof t =>
      match x with
      | VArr xs => forallb (fun e => (typeof e =? t)%string) xs
      | _ => false
      end
  end.

(** A sanitizer on the value of the field.  [toInt] is [parseInt] where
    JavaScript holds the integer exactly, and is read from the provider
    where it rounds it. *)
Definition sanitize (ext : External) (s : Sanitizer) (x : Value) : Value :=
  let on_text (f : string -> Value) :=
    match x with
    | VArr xs => VArr (map (fun e => f (to_text e)) xs)
    | _ => f (to_text x)
    end in
  match s with
  | TrimString => match x with VStr t => VStr (trim t) | _ => x end
  | ToInt =>
      on_text (fun t => match parseInt t with
                        | VNum n => if held_exactly n then VNum n
                                    else ext_sanitize ext ToInt t
                        | v => v
                        end)
  | _ => on_text (ext_sanitize ext s)
  end.

(** A check fails when its answer, negated for a check that follows
    [not()], is false. *)
Definition failed (negated result : bool) : bool :=
  if negated then result else negb result.

(** One context item on the current value of the field: the value the
    item leaves and the messages of the failures it adds.  A standard
    check visits every element of an array value. *)
Definition run_item (ext : External) (it : ContextItem) (x : Value)
  : Value * list (option Msg) :=
  match it with
  | StandardValidation v negated message =>
      let targets := match x with VArr xs => xs | _ => [x] end in
      (x, map (fun _ => message)
              (filter (fun e => failed negated (std_valid ext v (to_text e)))
                      targets))
  | CustomValidation v negated message =>
      (x, if failed negated (custom_valid v x) then [message] else [])
  | Sanitization s => (sanitize ext s x, [])
  end.

(** The items of a stack in order.  An optional field whose value is
    [undefined] is passed over by every item. *)
Fixpoint run_stack (ext : External) (opt : bool) (items : list ContextItem)
  (x : Value) : Value * list (option Msg) :=
  match items with
  | [] => (x, [])
  | it :: rest =>
      let skip := opt && match x with VUndefined => true | _ => false end in
      let '(x1, errs1) := if skip then (x, []) else run_item ext it x in
      let '(x2, errs2) := run_stack ext opt rest x1 in
      (x2, (errs1 ++ errs2)%list)
  end.

(** The value each item of a stack receives, item by item. *)
Fixpoint received (ext : External) (opt : bool) (items : list ContextItem)
  (x : Value) : list (ContextItem * Value) :=
  match items with
  | [] => []
  | it :: rest =>
      let skip := opt && match x with VUndefined => true | _ => false end in
      let x1 := if skip then x else fst (run_item ext it x) in
      (it, x) :: received ext opt rest x1
  end.

(** A property of any value, as a path lookup reads it. *)
Definition prop (o : Value) (k : string) : Value :=
  if (k =? "length")%string then get_length o
  else match entries o with
       | Some kv => match lookup k kv with Some v => v | None => VUndefined end
       | None => VUndefined
       end.

(** The value at a dotted path.  Paths with wildcards or brackets, and
    objects with a key that itself holds a dot, are outside the model. *)
Definition get_path (path : string) (o : Value) : Value :=
  if (path =? "")%string then o
  else fold_left prop (split "." path) o.

(** Equality of values, for the test [reqValue !== instance.value] that
    decides whether a sanitized value is written back. *)
Fixpoint Value_eqb (a b : Value) {struct a} : bool :=
  match a, b with
  | VUndefined, VUndefined | VNull, VNull | VNaN, VNaN => true
  | VBool x, VBool y => Bool.eqb x y
  | VNum x, VNum y => x =? y
  | VStr x, VStr y => (x =? y)%string
  | VArr xs, VArr ys =>
      (fix go (xs ys : list Value) : bool :=
         match xs, ys with
         | [], [] => true
         | x :: xs', y :: ys' => Value_eqb x y && go xs' ys'
         | _, _ => false
         end) xs ys
  | VObj xs, VObj ys =>
      (fix go (xs ys : list (string * Value)) : bool :=
         match xs, ys with
         | [], [] => true
         | (k, x) :: xs', (k', y) :: ys' =>
             (k =? k')%string && Value_eqb x y && go xs' ys'
         | _, _ => false
         end) xs ys
  | _, _ => false
  end.

(** The request with the value at a path replaced: a missing or
    non-object step becomes a fresh object.  An array on the path is
    left as it is. *)
Fixpoint set_path (segs : list string) (new : Value) (o : Value) : Value :=
  match segs with
  | [] => new
  | k :: rest =>
      match o with
      | VArr _ => o
      | VObj kv => VObj (set_prop k (set_path rest new (prop o k)) kv)
      | _ => VObj [(k, set_path rest new VUndefined)]
      end
  end.

(** [chain.run(input)]: the failures of the chain on the field of
    [input.body], in the order the checks raised them, and the request
    with the sanitized value written back when it changed. *)
Definition run (ext : External) (c : ValidationChain) (input : Value)
  : list (option Msg) * Value :=
  let x := get_path (field c) (get input "body") in
  let '(x', errs) := run_stack ext (isOptional c) (stack c) x in
  (errs,
   if Value_eqb x' x then input
   else if (field c =? "")%string then set_path ["body"] x' input
   else set_path ("body" :: split "." (field c)) x' input).

End Chain.

(* ================================================================== *)
(** * class ApiSchemaValidator *)
(* ================================================================== *)

Module SchemaValidator.
Import Js.

Definition validDataTypes : list string :=
  ["int"; "string"; "array+number"; "array+string";
   "array+mobile"; "array+bool"; "array+float";
   "date"; "mobile"; "bool"; "alpha";
   "alphanumeric"; "float"; "email"].

Definition validProperties : list string :=
  ["required"; "dataType"; "regex"; "min"; "max"; "length"; "allowedValues"].

(** [list.includes(s)] on a list of strings. *)
Definition listIncludes (s : string) (l : list string) : bool :=
  existsb (String.eqb s) l.

(** [typeof v !== 'object' || v === null] *)
Definition not_an_object (v : Value) : bool :=
  negb (typeof_object v) || match v with VNull => true | _ => false end.

(** A step on the field [errors] that adds its errors after those
    already recorded. *)
Definition appends (step : list string -> list string) : Prop :=
  forall errs, step errs = (errs ++ step [])%list.

(** [this.errors.push(msg)]: the field [errors] of the instance is passed
    in and handed back. *)
Definition push (msg : string) (errors : list string) : list string :=
  (errors ++ [msg])%list.

Definition push_if (cond : bool) (msg : string) (errors : list string)
  : list string :=
  if cond then push msg errors else errors.

Definition own_keys (v : Value) : list string :=
  match keys v with Some ks => ks | None => [] end.

Definition own_entries (v : Value) : list (string * Value) :=
  match entries v with Some kv => kv | None => [] end.

Definition validateValidationRule (rule : Value) (path : string)
  (errors : list string) : list string :=
  if not_an_object rule then push (path ++ ": Must be an object") errors
  else
    let errors :=
      fold_left
        (fun errs key =>
           push_if (negb (listIncludes key validProperties))
                   (path ++ ": Unknown property '" ++ key ++ "'") errs)
        (own_keys rule) errors in
    let errors :=
      push_if (has_prop "required" rule
               && negb (typeof (get rule "required") =? "boolean")%string)
              (path ++ ": 'required' must be a boolean") errors in
    let errors :=
      push_if (has_prop "dataType" rule
               && (typeof (get rule "dataType") =? "string")%string
               && negb (listIncludes (to_string (get rule "dataType")) validDataTypes))
              (path ++ ": Invalid dataType '" ++ to_string (get rule "dataType") ++ "'")
              errors in
    let errors :=
      push_if (has_prop "regex" rule
               && negb (typeof (get rule "regex") =? "string")%string)
              (path ++ ": 'regex' must be a string") errors in
    let errors :=
      push_if (has_prop "min" rule
               && negb (typeof (get rule "min") =? "number")%string)
              (path ++ ": 'min' must be a number") errors in
    let errors :=
      push_if (has_prop "max" rule
               && negb (typeof (get rule "max") =? "number")%string)
              (path ++ ": 'max' must be a number") errors in
    let errors :=
      push_if (has_prop "length" rule
               && negb (typeof (get_length rule) =? "number")%string)
              (path ++ ": 'length' must be a number") errors in
    push_if (has_prop "allowedValues" rule
             && negb (isArray (get rule "allowedValues")))
            (path ++ ": 'allowedValues' must be an array") errors.

Definition isValidationRule (obj : Value) : bool :=
  truthy obj && typeof_object obj &&
  (has_prop "dataType" obj
   || has_prop "required" obj
   || has_prop "regex" obj
   || has_prop "min" obj
   || has_prop "max" obj
   || has_prop "length" obj
   || has_prop "allowedValues" obj).

(** [newPath] of [validateNestedStructure] *)
Definition newPathOf (path key : string) : string :=
  if (path =? "")%string then key else path ++ "." ++ key.

(** The body of the [forEach] of [validateNestedStructure] for one entry;
    [recur] is the recursive call on the entry's value. *)
Definition visitEntry (recur : string -> list string -> list string)
  (path key : string) (value : Value) (errors : list string) : list string :=
  let newPath := newPathOf path key in
  if isValidationRule value then validateValidationRule value newPath errors
  else if negb (not_an_object value) then recur newPath errors
  else push (newPath ++ ": Invalid schema structure") errors.

(** [entries.forEach(step)] on the field [errors]: every entry is
    visited, whatever the earlier ones recorded. *)
Definition forEach (steps : list (list string -> list string))
  (errors : list string) : list string :=
  fold_left (fun errs step => step errs) steps errors.

Fixpoint validateNestedStructure (obj : Value) (path : string)
  (errors : list string) {struct obj} : list string :=
  match obj with
  | VObj kv =>
      forEach (map (fun e => visitEntry (validateNestedStructure (snd e))
                                        path (fst e) (snd e)) kv) errors
  | VArr xs =>
      forEach (mapi (fun i value =>
                       visitEntry (validateNestedStructure value)
                                  path (string_of_nat i) value) 0%nat xs) errors
  | _ => push (path ++ ": Must be an object") errors
  end.

Record Verdict : Type := mkVerdict { isValid : bool; error : list string }.

(** [schemaValidator(schema)] on an instance whose field [errors] holds
    [errors].  The keys of an object are strings, so the test
    [typeof route !== 'string'] of the loop never holds. *)
Definition schemaValidator (schema : Value) (errors : list string) : Verdict :=
  if not_an_object schema then
    {| isValid := false; error := push "Schema must be an object" errors |}
  else
    let errors :=
      forEach
        (map (fun entry errs =>
                let route := fst entry in
                let routeSchema := snd entry in
                if not_an_object routeSchema then
                  push ("Route '" ++ route
                        ++ "': Must contain an object of validation rules") errs
                else validateNestedStructure routeSchema route errs)
             (own_entries schema)) errors in
    {| isValid := Nat.eqb (List.length errors) 0; error := errors |}.

(** [validateSchema(apiSchema)]: a fresh instance, whose [errors] is
    empty. *)
Definition validateSchema (apiSchema : Value) : bool :=
  isValid (schemaValidator apiSchema []).

(** [Reaches tree path rule found]: the walk of [validateNestedStructure]
    from [tree], entered under [path], meets the entry value [rule], which
    it takes for a rule, under the path [found]. *)
Inductive Reaches : Value -> string -> Value -> string -> Prop :=
| reaches_here tree path key rule :
    not_an_object tree = false ->
    In (key, rule) (own_entries tree) ->
    isValidationRule rule = true ->
    Reaches tree path rule (newPathOf path key)
| reaches_below tree path key sub rule found :
    not_an_object tree = false ->
    In (key, sub) (own_entries tree) ->
    isValidationRule sub = false ->
    not_an_object sub = false ->
    Reaches sub (newPathOf path key) rule found ->
    Reaches tree path rule found.

(** [Visits tree path value found]: the walk of [validateNestedStructure]
    from [tree], entered under [path], meets the entry value [value]
    under the path [found], whatever it takes it for. *)
Inductive Visits : Value -> string -> Value -> string -> Prop :=
| visits_here tree path key value :
    not_an_object tree = false ->
    In (key, value) (own_entries tree) ->
    Visits tree path value (newPathOf path key)
| visits_below tree path key sub value found :
    not_an_object tree = false ->
    In (key, sub) (own_entries tree) ->
    isValidationRule sub = false ->
    not_an_object sub = false ->
    Visits sub (newPathOf path key) value found ->
    Visits tree path value found.

(** The properties [validateValidationRule] checks by [typeof], each
    with the type it asks for. *)
Definition typedProperties : list (string * string) :=
  [("required", "boolean"); ("regex", "string"); ("min", "number");
   ("max", "number"); ("length", "number")].

(** [rule.key] for those properties. *)
Definition propertyValue (rule : Value) (key : string) : Value :=
  if (key =? "length")%string then get_length rule else get rule key.

(** A rule that none of the tests of [validateValidationRule] objects
    to. *)
Definition wellFormedRule (rule : Value) : bool :=
  forallb (fun key => listIncludes key validProperties) (own_keys rule)
  && forallb (fun p => negb (has_prop (fst p) rule)
                       || (typeof (propertyValue rule (fst p)) =? snd p)%string)
             typedProperties
  && (negb (has_prop "allowedValues" rule) || isArray (get rule "allowedValues"))
  && (negb (has_prop "dataType" rule
            && (typeof (get rule "dataType") =? "string")%string)
      || listIncludes (to_string (get rule "dataType")) validDataTypes).

End SchemaValidator.

(* ================================================================== *)
(** * class RequestValidator *)
(* ================================================================== *)

Module Validator.
Import Js Message Chain.

Definition dateFormat : string := "YYYY-MM-DD".

(** [v == s] for a string literal [s] that names no number: a string
    equal to [s], or an array whose text is [s]. *)
Definition loose_eq_str (v : Value) (s : string) : bool :=
  match v with
  | VStr t => (t =? s)%string
  | VArr _ => (to_string v =? s)%string
  | _ => false
  end.

(** [v === s] for a string literal [s]. *)
Definition strict_eq_str (v : Value) (s : string) : bool :=
  match v with
  | VStr t => (t =? s)%string
  | _ => false
  end.

(** [errorMessageConstructor(field, errorCode, extra = null)].  The code
    is a member of the enumeration at every call, so the [default] arm
    of the [switch] is not reached; the MIN_MAX arm destructures the
    object literal [{min, max}] its one caller passes. *)
Definition errorMessageConstructor (field : string)
  (errorCode : validationErrorCode) (extra : Value) : Msg :=
  let errorMsg :=
    match errorCode with
    | MANDATORY_FIELD_ERROR => field ++ " : is mandatory"
    | EMPTY_FIELD_ERROR =>
        if loose_eq_str extra "array"
        then field ++ " : should not be an empty array"
        else field ++ " : should not be empty"
    | DATATYPE_ERROR =>
        if strict_eq_str extra "email" || strict_eq_str extra "mobile"
        then "Invalid " ++ field
        else if strict_eq_str extra "date"
        then "Invalid date ," ++ field ++ " should be in " ++ dateFormat ++ " format"
        else field ++ " should be " ++ to_string extra
    | PATTERN_MATCHING_ERROR =>
        field ++ " should be in " ++ to_string extra ++ " format"
    | MIN_MAX_ERROR =>
        let min := get extra "min" in
        let max := get extra "max" in
        if truthy min && truthy max
        then field ++ " should be in between " ++ to_string min
                   ++ " and " ++ to_string max
        else if truthy min
        then field ++ " should be in greater than or equal to " ++ to_string min
        else field ++ " should be in less than or equal to " ++ to_string max
    | LENGTH_ERROR => "length of " ++ field ++ " should be " ++ to_string extra
    | ALLOWED_VALUE_ERROR =>
        "Allowed values for " ++ field ++ " are " ++ to_string extra
    | ARRAY_DATATYPE_ERROR =>
        field ++ " should be an array of " ++ to_string extra
    end in
  {| errorMsg := errorMsg; errorCode := errorCode |}.

(** Sequencing of builder calls; [None] is a TypeError on the way. *)
Notation "x <- m ;; k" :=
  (match m with Some x => k | None => None end)
  (at level 61, m at next level, right associativity).

Definition applyMandatoryFieldValidation (myBody : ValidationChain)
  (mandatoryRule : Value) (field : string) : option ValidationChain :=
  if truthy mandatoryRule then
    c <- withMessage
           (errorMessageConstructor field MANDATORY_FIELD_ERROR VNull)
           (exists_ myBody) ;;
    c <- withMessage
           (errorMessageConstructor field EMPTY_FIELD_ERROR VNull)
           (notEmpty c) ;;
    withMessage
      (errorMessageConstructor field EMPTY_FIELD_ERROR (VStr "array"))
      (custom NonEmptyArray c)
  else Some (optional myBody).

Definition applyArrayValidation (myBody : ValidationChain)
  (dataType : string) (field : string) : option ValidationChain :=
  c <- withMessage
         (errorMessageConstructor field DATATYPE_ERROR (VStr "array"))
         (isArray_ myBody) ;;
  if negb (dataType =? "")%string then
    withMessage
      (errorMessageConstructor field ARRAY_DATATYPE_ERROR (VStr dataType))
      (custom (EveryTypeof dataType) c)
  else Some c.

(** The names [dataTypeHandlers[name]] finds on [Object.prototype] and
    whose call with no argument raises a TypeError. *)
Definition raising_inherited : list string :=
  ["__proto__"; "__defineGetter__"; "__defineSetter__"].

(** [dataTypeHandlers[name]()] when the entry exists: the ten handlers
    of the table.  Another name adds nothing (for the members
    [Object.prototype] lends the table, after a call without effect, or
    a TypeError for those of [raising_inherited]). *)
Definition dataTypeHandler (myBody : ValidationChain) (name : string)
  (arrayDataType : string) (field : string) : option ValidationChain :=
  if (name =? "string")%string then Some (isString myBody)
  else if (name =? "email")%string
  then Some (sanitizer NormalizeEmail (standard IsEmail myBody))
  else if (name =? "int")%string
  then Some (sanitizer ToInt (standard (IsInt []) myBody))
  else if (name =? "float")%string
  then Some (sanitizer ToFloat (standard (IsFloat []) myBody))
  else if (name =? "alphanumeric")%string then Some (standard IsAlphanumeric myBody)
  else if (name =? "alpha")%string then Some (standard IsAlpha myBody)
  else if (name =? "bool")%string
  then Some (sanitizer ToBoolean (standard IsBoolean myBody))
  else if (name =? "mobile")%string then Some (standard (IsMobilePhone "en-IN") myBody)
  else if (name =? "date")%string then Some (standard (IsDate dateFormat) myBody)
  else if (name =? "array")%string then applyArrayValidation myBody arrayDataType field
  else if SchemaValidator.listIncludes name raising_inherited then None
  else Some myBody.

(** The first lines of [applyDataTypeValidation]: the type and the
    element type, [arrayDataType], that [dataType.split('+')] gives when
    [dataType.includes('+')].  [includes] is a method of strings and of
    arrays only, and an array has no [split]. *)
Definition splitType (dataType : Value) : option (Value * string) :=
  match dataType with
  | VStr dt =>
      if includes "+" dt
      then Some (VStr (nth_str 0 (split "+" dt)), nth_str 1 (split "+" dt))
      else Some (dataType, "")
  | VArr xs =>
      if existsb (fun e => strict_eq_str e "+") xs then None
      else Some (dataType, "")
  | _ => None
  end.

(** [applyDataTypeValidation(myBody, dataType, field)] for the truthy
    [dataType] its caller passes. *)
Definition applyDataTypeValidation (myBody : ValidationChain)
  (dataType : Value) (field : string) : option ValidationChain :=
  split_type <- splitType dataType ;;
  let '(dataType, arrayDataType) := split_type in
  let myBody := sanitizer TrimString myBody in
  myBody <- dataTypeHandler myBody (to_string dataType) arrayDataType field ;;
  if negb (strict_eq_str dataType "array") then
    withMessage (errorMessageConstructor field DATATYPE_ERROR dataType) myBody
  else Some myBody.

Definition applyRegexValidation (myBody : ValidationChain)
  (pattern : Value) (field : string) : option ValidationChain :=
  withMessage (errorMessageConstructor field PATTERN_MATCHING_ERROR pattern)
              (standard (Matches pattern) myBody).

(** The [options] object of [applyMinMaxValidation]. *)
Definition minMaxOptions (min max : Value) : list (string * Value) :=
  let options := [] in
  let options := if truthy min then set_prop "min" min options else options in
  let options := if truthy max then set_prop "max" max options else options in
  options.

Definition applyMinMaxValidation (myBody : ValidationChain) (field : string)
  (dataType : Value) (min max : Value) : option ValidationChain :=
  let options := minMaxOptions min max in
  let myBody :=
    if loose_eq_str dataType "int"
    then standard (IsInt options) myBody
    else standard (IsFloat options) myBody in
  withMessage
    (errorMessageConstructor field MIN_MAX_ERROR
       (VObj [("min", min); ("max", max)]))
    myBody.

Definition applyLengthValidation (myBody : ValidationChain) (field : string)
  (length : Value) : option ValidationChain :=
  withMessage (errorMessageConstructor field LENGTH_ERROR length)
              (standard (IsLength length length) myBody).

Definition applyAllowedValueValidation (myBody : ValidationChain)
  (field : string) (allowedAvalues : Value) : option ValidationChain :=
  withMessage (errorMessageConstructor field ALLOWED_VALUE_ERROR allowedAvalues)
              (standard (IsIn allowedAvalues) myBody).

(** [['int', 'float'].includes(dataType)] *)
Definition is_numeric_type (dataType : Value) : bool :=
  strict_eq_str dataType "int" || strict_eq_str dataType "float".

(** The test of [expressRuleBuilder] that guards
    [applyMinMaxValidation]: [&&] binds tighter than [||]. *)
Definition minMaxApplies (rule : Value) : bool :=
  truthy (get rule "min")
  || (truthy (get rule "max") && is_numeric_type (get rule "dataType")).

(** The part of the loop body of [expressRuleBuilder] that builds the
    chain of one rule: from [body(fullField)] to the last [apply...]
    call. *)
Definition buildChain (fullField : string) (rule : Value)
  : option ValidationChain :=
  let myBody := body fullField in
  let dataType := get rule "dataType" in
  myBody <- applyMandatoryFieldValidation myBody (get rule "required") fullField ;;
  myBody <- (if truthy (get rule "dataType")
             then applyDataTypeValidation myBody dataType fullField
             else Some myBody) ;;
  myBody <- (if truthy (get rule "regex")
             then applyRegexValidation myBody (get rule "regex") fullField
             else Some myBody) ;;
  myBody <- (if minMaxApplies rule
             then applyMinMaxValidation myBody fullField dataType
                    (get rule "min") (get rule "max")
             else Some myBody) ;;
  myBody <- (if truthy (get_length rule) && strict_eq_str dataType "string"
             then applyLengthValidation myBody fullField (get_length rule)
             else Some myBody) ;;
  if truthy (get rule "allowedAvalues")
  then applyAllowedValueValidation myBody fullField (get rule "allowedAvalues")
  else Some myBody.

(** [prefix ? `${prefix}.${field}` : field] *)
Definition fullFieldOf (prefix field : string) : string :=
  if negb (prefix =? "")%string then prefix ++ "." ++ field else field.

(** [typeof rule[Object.keys(rule)[0]] === 'object']: the test by which
    [expressRuleBuilder] takes a node for a nested tree and recurses
    into it; [None] is the TypeError of [Object.keys] on [null] and
    [undefined]. *)
Definition isNested (rule : Value) : option bool :=
  option_map typeof_object (first_prop rule).

(** [Number.MAX_SAFE_INTEGER] *)
Definition MAX_SAFE_INTEGER : Z := 2 ^ 53 - 1.

(** The loop of [validateField] over [result.array()]: the message and
    code kept so far, updated by a failure of strictly lower code.  A
    failure without a message object compares as [undefined] and is
    passed over. *)
Definition keepLowest (acc : string * Z) (e : option Msg) : string * Z :=
  match e with
  | Some m =>
      if code_value (errorCode m) <? snd acc
      then (errorMsg m, code_value (errorCode m))
      else acc
  | None => acc
  end.

Definition lowest (errors : list (option Msg)) : string * Z :=
  fold_left keepLowest errors ("", MAX_SAFE_INTEGER).

(** A route of the registry: the matcher [regexp.test] and the rules. *)
Record Route : Type := mkRoute { regexp : string -> bool; rules : Value }.

Record RequestValidator : Type := mkValidator {
  url : string;
  customValidationHandlers : list (Value -> string)
}.

(** [new RequestValidator(url)] *)
Definition new (u : string) : RequestValidator :=
  {| url := nth_str 0 (split "?" u); customValidationHandlers := [] |}.

(** [findRules()] over the static [registeredRoutesRegex]. *)
Fixpoint findRules (registeredRoutesRegex : list Route)
  (this : RequestValidator) : Value :=
  match registeredRoutesRegex with
  | [] => VStr ""
  | r :: rest =>
      if regexp r (url this) then rules r else findRules rest this
  end.

Fixpoint customValidator (handlers : list (Value -> string)) (errorMsg : string)
  (input : Value) : string :=
  match handlers with
  | [] => errorMsg
  | customValidationHandler :: rest =>
      let errorMsg := customValidationHandler input in
      if negb (errorMsg =? "")%string then errorMsg
      else customValidator rest errorMsg input
  end.

(** What the middleware does with the response. *)
Inductive Reply : Type :=
| Next                           (* next() *)
| Status400 (text : string)      (* res.status(400).send(text) *)
| Status400TypeError.            (* the same, with the engine's message of a TypeError *)

Record Request : Type := mkRequest {
  originalUrl : string;
  reqBody : Value;
  query : Value;
  params : Value
}.

(** The object [{ body: { ...req.body, ...req.query, ...req.params } }]
    of [validateRequest]. *)
Definition mergedInput (req : Request) : Value :=
  VObj [("body",
         VObj (spread (spread (spread [] (reqBody req)) (query req))
                      (params req)))].

Section Engine.

(** [rule.run(input)] followed by [result.array()]: the failures in the
    order the checks raised them, and the request object as the run
    leaves it.  [Chain.run] is the reading of express-validator used
    for the evaluations below; the traversal is stated for any. *)
Variable run : ValidationChain -> Value -> list (option Msg) * Value.

Definition validateField (rule : ValidationChain) (input : Value)
  : string * Value :=
  let '(errors, input) := run rule input in
  (fst (lowest errors), input).

(** The loop of [expressRuleBuilder] over the steps of its entries: the
    first non-empty message ends it. *)
Fixpoint each (steps : list (Value -> option (string * Value)))
  (input : Value) : option (string * Value) :=
  match steps with
  | [] => Some ("", input)
  | step :: rest =>
      r <- step input ;;
      if negb (fst r =? "")%string then Some r else each rest (snd r)
  end.

(** The loop body for one entry: [recur] is the recursive call on the
    entry's value. *)
Definition visit (recur : string -> Value -> option (string * Value))
  (prefix field : string) (rule : Value) (input : Value)
  : option (string * Value) :=
  let fullField := fullFieldOf prefix field in
  nested <- isNested rule ;;
  if nested then recur fullField input
  else
    myBody <- buildChain fullField rule ;;
    Some (validateField myBody input).

(** [expressRuleBuilder(rules, input, prefix)]: the message returned and
    the request as the runs left it; [None] is a TypeError. *)
Fixpoint expressRuleBuilder (rules : Value) (input : Value) (prefix : string)
  {struct rules} : option (string * Value) :=
  match rules with
  | VUndefined | VNull => None
  | VBool _ | VNum _ | VNaN => Some ("", input)
  | VStr s =>
      (* the entries of a string are its characters, none of them nested *)
      each (map (fun e => visit (fun _ inp => Some ("", inp))
                               prefix (fst e) (snd e))
                (index_from 0 (map VStr (chars s)))) input
  | VArr xs =>
      each (mapi (fun i rule =>
                    visit (fun f inp => expressRuleBuilder rule inp f)
                          prefix (string_of_nat i) rule) 0%nat xs) input
  | VObj kv =>
      each (map (fun e =>
                   visit (fun f inp => expressRuleBuilder (snd e) inp f)
                         prefix (fst e) (snd e)) kv) input
  end.

(** [validateRequest(req, res, next)] *)
Definition validateRequest (registeredRoutesRegex : list Route)
  (this : RequestValidator) (req : Request) : Reply :=
  let rules := findRules registeredRoutesRegex this in
  if (typeof rules =? "string")%string then
    Status400 ("Invalid request.Conuld not find " ++ url this)
  else
    let input := mergedInput req in
    match expressRuleBuilder rules input "" with
    | None => Status400TypeError
    | Some (errorMsg, input) =>
        let errorMsg :=
          if negb (errorMsg =? "")%string then errorMsg
          else customValidator (customValidationHandlers this) ""
                               (get input "body") in
        if (errorMsg =? "")%string then Next else Status400 errorMsg
    end.

(** The middleware [validateRequestHandler] returns. *)
Definition validateRequestHandler (registeredRoutesRegex : list Route)
  (req : Request) : Reply :=
  validateRequest registeredRoutesRegex (new (originalUrl req)) req.

End Engine.

(** [routesToRegex(reqFormat)]: one route per key of the schema, pushed
    in key order; [pathToRegexp] is the route compiler of the
    path-to-regexp package. *)
Definition routesToRegex (pathToRegexp : string -> string -> bool)
  (schema : Value) (registeredRoutesRegex : list Route) : list Route :=
  (registeredRoutesRegex
   ++ map (fun route => {| regexp := pathToRegexp route;
                            rules := prop schema route |})
          (SchemaValidator.own_keys schema))%list.

(** [loadFile]: the schema is registered when [validateSchema] accepts
    it; [None] is the Error thrown otherwise. *)
Definition loadFile (pathToRegexp : string -> string -> bool)
  (schema : Value) (registeredRoutesRegex : list Route) : option (list Route) :=
  if SchemaValidator.validateSchema schema
  then Some (routesToRegex pathToRegexp schema registeredRoutesRegex)
  else None.

End Validator.

(* ================================================================== *)
(** * The traversal as a list of field checks *)
(* ================================================================== *)

Module Compiled.
Import Js Message Chain Validator.

(** What the traversal of [expressRuleBuilder] meets, in order: a rule
    under its full field path, or a point where it raises. *)
Inductive Leaf : Type :=
| Field (fullField : string) (rule : Value)
| Raise.

Definition visitLeaves (recur : string -> list Leaf)
  (prefix field : string) (rule : Value) : list Leaf :=
  match isNested rule with
  | None => [Raise]
  | Some true => recur (fullFieldOf prefix field)
  | Some false => [Field (fullFieldOf prefix field) rule]
  end.

(** The rules of a tree in the order [expressRuleBuilder] visits them. *)
Fixpoint leaves (rules : Value) (prefix : string) {struct rules} : list Leaf :=
  match rules with
  | VUndefined | VNull => [Raise]
  | VBool _ | VNum _ | VNaN => []
  | VStr s =>
      concat (map (fun e => visitLeaves (fun _ => []) prefix (fst e) (snd e))
                  (index_from 0 (map VStr (chars s))))
  | VArr xs =>
      concat (mapi (fun i rule =>
                      visitLeaves (fun f => leaves rule f) prefix
                                  (string_of_nat i) rule) 0%nat xs)
  | VObj kv =>
      concat (map (fun e => visitLeaves (fun f => leaves (snd e) f)
                                        prefix (fst e) (snd e)) kv)
  end.

(** [PathTo tree ks rule]: the keys [ks] lead from [tree] to [rule]
    through entries the traversal takes for nested trees, [rule] being an
    entry it takes for a rule. *)
Inductive PathTo : Value -> list string -> Value -> Prop :=
| path_here tree key rule :
    In (key, rule) (SchemaValidator.own_entries tree) ->
    isNested rule = Some false ->
    PathTo tree [key] rule
| path_below tree key sub ks rule :
    In (key, sub) (SchemaValidator.own_entries tree) ->
    isNested sub = Some true ->
    PathTo sub ks rule ->
    PathTo tree (key :: ks) rule.

(** The field path under [prefix] of the rule the keys [ks] lead to. *)
Definition pathOf (prefix : string) (ks : list string) : string :=
  fold_left fullFieldOf ks prefix.

Section Evaluation.

Variable run : ValidationChain -> Value -> list (option Msg) * Value.

(** The fields in order, up to the first one whose checks leave a
    message: that message is the result and the later fields are not
    run. *)
Fixpoint firstFailure (ls : list Leaf) (input : Value)
  : option (string * Value) :=
  match ls with
  | [] => Some ("", input)
  | Raise :: _ => None
  | Field fullField rule :: rest =>
      match buildChain fullField rule with
      | None => None
      | Some myBody =>
          let r := validateField run myBody input in
          if negb (fst r =? "")%string then Some r
          else firstFailure rest (snd r)
      end
  end.

(** ** The selection the specification words

    Section 4.4: every per-field failure of the full traversal is
    collected, and the one of lowest priority value is the one reported,
    the first met on a tie. *)





End Evaluation.

End Compiled.

(* ================================================================== *)
(** * The shape of a compiled chain *)
(* ================================================================== *)

Module Shape.
Import Js Message Chain Validator.

(** A context item without its message. *)
Definition erase (it : ContextItem) : ContextItem :=
  match it with
  | StandardValidation v n _ => StandardValidation v n None
  | CustomValidation v n _ => CustomValidation v n None
  | Sanitization s => Sanitization s
  end.

Definition message (it : ContextItem) : option Msg :=
  match it with
  | StandardValidation _ _ m | CustomValidation _ _ m => m
  | Sanitization _ => None
  end.

Definition std (v : StdValidator) : ContextItem := StandardValidation v false None.
Definition cus (v : CustomValidator) : ContextItem := CustomValidation v false None.

(** The items each step of [buildChain] adds, messages left out. *)
Definition mandatoryKinds (rule : Value) : list ContextItem :=
  if truthy (get rule "required")
  then [cus Exists; StandardValidation IsEmpty true None; cus NonEmptyArray]
  else [].

Definition handlerKinds (name arrayDataType : string) : list ContextItem :=
  if (name =? "string")%string then [cus IsString]
  else if (name =? "email")%string then [std IsEmail; Sanitization NormalizeEmail]
  else if (name =? "int")%string then [std (IsInt []); Sanitization ToInt]
  else if (name =? "float")%string then [std (IsFloat []); Sanitization ToFloat]
  else if (name =? "alphanumeric")%string then [std IsAlphanumeric]
  else if (name =? "alpha")%string then [std IsAlpha]
  else if (name =? "bool")%string then [std IsBoolean; Sanitization ToBoolean]
  else if (name =? "mobile")%string then [std (IsMobilePhone "en-IN")]
  else if (name =? "date")%string then [std (IsDate dateFormat)]
  else if (name =? "array")%string
  then cus IsArray
       :: (if negb (arrayDataType =? "")%string
           then [cus (EveryTypeof arrayDataType)] else [])
  else [].

Definition dataTypeKinds (rule : Value) : list ContextItem :=
  if truthy (get rule "dataType") then
    match splitType (get rule "dataType") with
    | Some (dataType, arrayDataType) =>
        Sanitization TrimString :: handlerKinds (to_string dataType) arrayDataType
    | None => []
    end
  else [].

Definition regexKinds (rule : Value) : list ContextItem :=
  if truthy (get rule "regex") then [std (Matches (get rule "regex"))] else [].

Definition minMaxKinds (rule : Value) : list ContextItem :=
  if minMaxApplies rule then
    let options := minMaxOptions (get rule "min") (get rule "max") in
    [std (if loose_eq_str (get rule "dataType") "int"
          then IsInt options else IsFloat options)]
  else [].

Definition lengthKinds (rule : Value) : list ContextItem :=
  if truthy (get_length rule) && strict_eq_str (get rule "dataType") "string"
  then [std (IsLength (get_length rule) (get_length rule))]
  else [].

Definition allowedKinds (rule : Value) : list ContextItem :=
  if truthy (get rule "allowedAvalues")
  then [std (IsIn (get rule "allowedAvalues"))]
  else [].

Definition ruleKinds (rule : Value) : list ContextItem :=
  (mandatoryKinds rule ++ dataTypeKinds rule ++ regexKinds rule
   ++ minMaxKinds rule ++ lengthKinds rule ++ allowedKinds rule)%list.

(** The messages [buildChain] can attach for a rule. *)
Definition ruleMessages (field : string) (rule : Value) : list Msg :=
  [errorMessageConstructor field MANDATORY_FIELD_ERROR VNull;
   errorMessageConstructor field EMPTY_FIELD_ERROR VNull;
   errorMessageConstructor field EMPTY_FIELD_ERROR (VStr "array");
   errorMessageConstructor field DATATYPE_ERROR (VStr "array");
   errorMessageConstructor field ARRAY_DATATYPE_ERROR
     (VStr (match splitType (get rule "dataType") with
            | Some p => snd p | None => "" end));
   errorMessageConstructor field DATATYPE_ERROR
     (match splitType (get rule "dataType") with
      | Some p => fst p | None => VUndefined end);
   errorMessageConstructor field PATTERN_MATCHING_ERROR (get rule "regex");
   errorMessageConstructor field MIN_MAX_ERROR
     (VObj [("min", get rule "min"); ("max", get rule "max")]);
   errorMessageConstructor field LENGTH_ERROR (get_length rule);
   errorMessageConstructor field ALLOWED_VALUE_ERROR (get rule "allowedAvalues")].


(** The check the regex step adds. *)
Definition isPatternCheck (it : ContextItem) : bool :=
  match it with
  | StandardValidation (Matches _) _ _ => true
  | _ => false
  end.

(** The range check the min/max step adds. *)
Definition isRangeCheck (it : ContextItem) : bool :=
  match it with
  | StandardValidation (IsInt (_ :: _) | IsFloat (_ :: _)) _ _ => true
  | _ => false
  end.

(** The membership check. *)
Definition isMembershipCheck (it : ContextItem) : bool :=
  match it with
  | StandardValidation (IsIn _) _ _ => true
  | _ => false
  end.

(** The length check. *)
Definition isLengthCheck (it : ContextItem) : bool :=
  match it with
  | StandardValidation (IsLength _ _) _ _ => true
  | _ => false
  end.

(** [c'] extends [c] by the items [ks], up to messages, every message of
    [c'] being one of [ms] or a message of [c]; the builder is between
    two checks. *)
Definition grows (c c' : ValidationChain) (ks : list ContextItem)
  (ms : list Msg) : Prop :=
  field c' = field c /\ isOptional c' = isOptional c /\
  negateNext c' = false /\
  map erase (stack c') = (map erase (stack c) ++ ks)%list /\
  forall m, In (Some m) (map message (stack c')) ->
            In m ms \/ In (Some m) (map message (stack c)).

(** No item of the list is a sanitizer. *)
Definition noSanitizer (items : list ContextItem) : bool :=
  forallb (fun it => match it with Sanitization _ => false | _ => true end) items.



(** ** Sentences of the specification, as worded *)


End Shape.

(* ================================================================== *)
(** * The chain of a rule, item by item *)
(* ================================================================== *)

Module Exact.
Import Js Message Chain Validator.

(** A check with its message attached. *)
Definition checked (v : StdValidator) (m : Msg) : ContextItem :=
  StandardValidation v false (Some m).
Definition customChecked (v : CustomValidator) (m : Msg) : ContextItem :=
  CustomValidation v false (Some m).

(** The rule's [dataType] is a string, or is falsy. *)
Definition stringTyped (rule : Value) : bool :=
  match get rule "dataType" with
  | VStr _ => true
  | v => negb (truthy v)
  end.

(** The type and the element type that [applyDataTypeValidation] reads
    off a string [dataType]. *)
Definition baseType (dt : string) : string :=
  if includes "+" dt then nth_str 0 (split "+" dt) else dt.
Definition elementType (dt : string) : string :=
  if includes "+" dt then nth_str 1 (split "+" dt) else "".

(** The names of the table [dataTypeHandlers]. *)
Definition knownType (name : string) : bool :=
  SchemaValidator.listIncludes name
    ["string"; "email"; "int"; "float"; "alphanumeric"; "alpha"; "bool";
     "mobile"; "date"; "array"].

(** The presence checks of a required field; [third] is the message of
    the empty-array check. *)
Definition presenceItems (f : string) (third : Msg) : list ContextItem :=
  [customChecked Exists (errorMessageConstructor f MANDATORY_FIELD_ERROR VNull);
   StandardValidation IsEmpty true
     (Some (errorMessageConstructor f EMPTY_FIELD_ERROR VNull));
   customChecked NonEmptyArray third].

(** The items of the handler of a type, with their messages. *)
Definition typeItems (f name arrayDataType : string) : list ContextItem :=
  let m := errorMessageConstructor f DATATYPE_ERROR (VStr name) in
  if (name =? "string")%string then [customChecked IsString m]
  else if (name =? "email")%string
  then [checked IsEmail m; Sanitization NormalizeEmail]
  else if (name =? "int")%string then [checked (IsInt []) m; Sanitization ToInt]
  else if (name =? "float")%string
  then [checked (IsFloat []) m; Sanitization ToFloat]
  else if (name =? "alphanumeric")%string then [checked IsAlphanumeric m]
  else if (name =? "alpha")%string then [checked IsAlpha m]
  else if (name =? "bool")%string
  then [checked IsBoolean m; Sanitization ToBoolean]
  else if (name =? "mobile")%string then [checked (IsMobilePhone "en-IN") m]
  else if (name =? "date")%string then [checked (IsDate dateFormat) m]
  else if (name =? "array")%string
  then customChecked IsArray
         (errorMessageConstructor f DATATYPE_ERROR (VStr "array"))
       :: (if negb (arrayDataType =? "")%string
           then [customChecked (EveryTypeof arrayDataType)
                   (errorMessageConstructor f ARRAY_DATATYPE_ERROR
                      (VStr arrayDataType))]
           else [])
  else [].

(** The items of the steps after the data type, with their messages. *)
Definition laterItems (f : string) (rule : Value) : list ContextItem :=
  ((if truthy (get rule "regex")
    then [checked (Matches (get rule "regex"))
            (errorMessageConstructor f PATTERN_MATCHING_ERROR (get rule "regex"))]
    else [])
   ++ (if minMaxApplies rule
       then [checked
               (if loose_eq_str (get rule "dataType") "int"
                then IsInt (minMaxOptions (get rule "min") (get rule "max"))
                else IsFloat (minMaxOptions (get rule "min") (get rule "max")))
               (errorMessageConstructor f MIN_MAX_ERROR
                  (VObj [("min", get rule "min"); ("max", get rule "max")]))]
       else [])
   ++ (if truthy (get_length rule) && strict_eq_str (get rule "dataType") "string"
       then [checked (IsLength (get_length rule) (get_length rule))
               (errorMessageConstructor f LENGTH_ERROR (get_length rule))]
       else [])
   ++ (if truthy (get rule "allowedAvalues")
       then [checked (IsIn (get rule "allowedAvalues"))
               (errorMessageConstructor f ALLOWED_VALUE_ERROR
                  (get rule "allowedAvalues"))]
       else []))%list.

(** The chain after the presence and data-type steps, for a rule whose
    [dataType] is the string [dt] or is falsy ([dt] empty): [None] where
    the data-type step raises. *)
Definition typedItems (f : string) (required : bool) (dt : string)
  : option (list ContextItem) :=
  let emptyArray := errorMessageConstructor f EMPTY_FIELD_ERROR (VStr "array") in
  if (dt =? "")%string then
    Some (if required then presenceItems f emptyArray else [])
  else
    let name := baseType dt in
    if knownType name then
      Some ((if required then presenceItems f emptyArray else [])
            ++ Sanitization TrimString :: typeItems f name (elementType dt))%list
    else if SchemaValidator.listIncludes name raising_inherited then None
    else if required then
      Some (presenceItems f (errorMessageConstructor f DATATYPE_ERROR (VStr name))
            ++ [Sanitization TrimString])%list
    else None.

(** The text of a string [dataType], empty for a falsy one. *)
Definition typeText (rule : Value) : string :=
  match get rule "dataType" with VStr dt => dt | _ => "" end.

(** The chain [buildChain] gives for such a rule. *)
Definition expectedChain (f : string) (rule : Value) : option ValidationChain :=
  match typedItems f (truthy (get rule "required")) (typeText rule) with
  | Some items =>
      Some {| field := f;
              isOptional := negb (truthy (get rule "required"));
              negateNext := false;
              stack := (items ++ laterItems f rule)%list |}
  | None => None
  end.

(** The rule's [dataType] is falsy, or a string that names a handler of
    the table. *)
Definition typeKnown (rule : Value) : bool :=
  stringTyped rule
  && ((typeText rule =? "")%string || knownType (baseType (typeText rule))).

(** A check carries a message that [errorMessageConstructor] made for the
    field [f]. *)
Definition labelled (f : string) (it : ContextItem) : Prop :=
  match it with
  | StandardValidation _ _ o | CustomValidation _ _ o =>
      exists code extra, o = Some (errorMessageConstructor f code extra)
  | Sanitization _ => True
  end.

(** The run of the chain [c] on [input] raised the failures that the
    items of [c] raise on the value [x]: the field of the chain selects
    one value of the request, [x], which is [undefined] for a field the
    request lacks.  How express-validator finds that value in the request
    (wildcards, brackets, keys that hold a dot) is left to [run]. *)
Definition runsOn (ext : External)
  (run : ValidationChain -> Value -> list (option Msg) * Value)
  (c : ValidationChain) (input x : Value) : Prop :=
  fst (run c input) = snd (run_stack ext (isOptional c) (stack c) x).

(** The element types of the enumeration [validDataTypes] that are no
    result of [typeof]. *)
Definition unmatchedElementTypes : list string :=
  ["array+mobile"; "array+bool"; "array+float"].

End Exact.

(* ================================================================== *)
(** * Schemas and requests used as examples *)
(* ================================================================== *)

Module Examples.
Import Js Message Chain Validator.

(** A request with the given body and nothing else. *)
Definition post (u : string) (b : list (string * Value)) : Request :=
  {| originalUrl := u; reqBody := VObj b; query := VObj []; params := VObj [] |}.

(** Body [{id:1}], query [{id:2}], params [{id:3}]. *)
Definition idRequest : Request :=
  {| originalUrl := "/api/items";
     reqBody := VObj [("id", VNum 1)];
     query := VObj [("id", VNum 2)];
     params := VObj [("id", VNum 3)] |}.

(** A registry whose first route accepts every path that starts with
    [/api] and whose second accepts [/api/login] only. *)
Definition broadRoute : Route :=
  {| regexp := String.prefix "/api"; rules := VObj [("broad", VObj [])] |}.
Definition exactRoute : Route :=
  {| regexp := String.eqb "/api/login"; rules := VObj [("exact", VObj [])] |}.
Definition overlapping : list Route := [broadRoute; exactRoute].

(** A schema whose rule gives [dataType] a number. *)
Definition numberTypeRules : Value :=
  VObj [("age", VObj [("required", VBool true); ("dataType", VNum 5)])].
Definition numberTypeSchema : Value := VObj [("/api/users", numberTypeRules)].

(** A rule whose first key is [allowedValues]. *)
Definition roleRule : Value :=
  VObj [("allowedValues", VArr [VStr "admin"; VStr "user"]);
        ("required", VBool true)].
Definition roleRules : Value := VObj [("role", roleRule)].
Definition roleSchema : Value := VObj [("/api/role", roleRules)].

(** A rule with [allowedValues], spelt as the schema documents it. *)
Definition colourRule : Value :=
  VObj [("required", VBool true);
        ("allowedValues", VArr [VStr "red"; VStr "green"])].
Definition paintRoutes : list Route :=
  [ {| regexp := String.eqb "/api/paint";
       rules := VObj [("colour", colourRule)] |} ].

(** A string rule with a lower bound. *)
Definition nameRule : Value :=
  VObj [("dataType", VStr "string"); ("min", VNum 5)].
Definition nameRoutes : list Route :=
  [ {| regexp := String.eqb "/api/name";
       rules := VObj [("name", nameRule)] |} ].

(** The rule of the specification's example: an integer of at least 18. *)
Definition ageRule : Value :=
  VObj [("required", VBool true); ("dataType", VStr "int"); ("min", VNum 18)].
Definition ageRoutes : list Route :=
  [ {| regexp := String.eqb "/api/register";
       rules := VObj [("age", ageRule)] |} ].

(** An integer between 0 and 10. *)
Definition scoreRule : Value :=
  VObj [("required", VBool true); ("dataType", VStr "int");
        ("min", VNum 0); ("max", VNum 10)].
Definition scoreRoutes : list Route :=
  [ {| regexp := String.eqb "/api/score";
       rules := VObj [("score", scoreRule)] |} ].

Definition ageChain : ValidationChain :=
  Eval vm_compute in
    match buildChain "age" ageRule with Some c => c | None => body "age" end.
(** A rule with a pattern and no data type, and the pattern check of
    its chain. *)
Definition codeRule : Value := VObj [("regex", VStr "^a$")].
Definition codeChain : ValidationChain :=
  Eval vm_compute in
    match buildChain "code" codeRule with Some c => c | None => body "code" end.


(** The login rules of the README and the tags rule of section 8. *)
Definition loginRoutes : list Route :=
  [ {| regexp := String.eqb "/api/login";
       rules :=
         VObj [("username", VObj [("required", VBool true);
                                  ("dataType", VStr "string")]);
               ("password", VObj [("required", VBool true);
                                  ("dataType", VStr "string")])] |} ].
Definition tagsRoutes : list Route :=
  [ {| regexp := String.eqb "/api/tags";
       rules :=
         VObj [("tags", VObj [("required", VBool true);
                              ("dataType", VStr "array+string")])] |} ].

(** Two fields: an integer, then a mandatory field; and a request whose
    first field is not an integer and whose second is missing. *)
Definition twoFieldRules : Value :=
  VObj [("a", VObj [("required", VBool true); ("dataType", VStr "int")]);
        ("b", VObj [("required", VBool true)])].
Definition twoFieldInput : Value := VObj [("body", VObj [("a", VStr "abc")])].

(** The request object of a request without fields, and of one with a
    single field. *)
Definition emptyInput : Value := VObj [("body", VObj [])].
Definition inputOf (k : string) (v : Value) : Value :=
  VObj [("body", VObj [(k, v)])].

(** A required string, a required array of strings, and an optional
    array of booleans. *)
Definition passwordRule : Value :=
  VObj [("required", VBool true); ("dataType", VStr "string")].
Definition passwordChain : ValidationChain :=
  Eval vm_compute in
    match buildChain "password" passwordRule with
    | Some c => c | None => body "password" end.
Definition tagsRule : Value :=
  VObj [("required", VBool true); ("dataType", VStr "array+string")].
Definition tagsChain : ValidationChain :=
  Eval vm_compute in
    match buildChain "tags" tagsRule with Some c => c | None => body "tags" end.
Definition flagsRule : Value := VObj [("dataType", VStr "array+bool")].

(** Schemas for the meta-validator: a rule with a key outside the
    permitted ones, a rule whose [required] is a string, a field whose
    value is a string, a route whose value is a number, and the schema
    of the README. *)
Definition colouredRule : Value :=
  VObj [("required", VBool true); ("colour", VStr "red")].
Definition colouredSchema : Value :=
  VObj [("/api/paint", VObj [("name", colouredRule)])].
Definition mistypedRule : Value := VObj [("required", VStr "yes")].
Definition mistypedSchema : Value :=
  VObj [("/api/paint", VObj [("name", mistypedRule)])].
Definition textFieldSchema : Value :=
  VObj [("/api/paint", VObj [("name", VStr "text")])].
Definition numberRouteSchema : Value := VObj [("/api/paint", VNum 1)].
Definition floatTypeRule : Value :=
  VObj [("required", VBool true); ("dataType", VStr "double")].
Definition floatTypeSchema : Value :=
  VObj [("/api/paint", VObj [("size", floatTypeRule)])].
Definition loginRules : Value :=
  VObj [("username", VObj [("required", VBool true);
                           ("dataType", VStr "string");
                           ("length", VNum 50)]);
        ("password", passwordRule)].
Definition registerRules : Value :=
  VObj [("email", VObj [("required", VBool true); ("dataType", VStr "email")]);
        ("age", VObj [("required", VBool false); ("dataType", VStr "int");
                      ("min", VNum 18)])].
Definition readmeSchema : Value :=
  VObj [("/api/login", loginRules); ("/api/register", registerRules)].

(** A rule two levels down, and a rule whose [dataType] is an object. *)
Definition nestedRules : Value :=
  VObj [("user", VObj [("address", VObj [("city", passwordRule)])])].
Definition objectTypeRule : Value :=
  VObj [("required", VBool true); ("dataType", VObj [("type", VStr "int")])].

(** A schema with one route and one rule. *)
Definition passwordSchema : Value :=
  VObj [("/api/login", VObj [("password", passwordRule)])].

(** A provider that answers no to every check it is asked and converts
    nothing, and a handler that asks for a converted [age]. *)
Definition plainExt : External :=
  {| ext_valid := fun _ _ => false; ext_sanitize := fun _ text => VStr text |}.
Definition ageIsNumber (input : Value) : string :=
  if (typeof (get input "age") =? "number")%string then ""
  else "age is no number".
Definition flagsChain : ValidationChain :=
  Eval vm_compute in
    match buildChain "flags" flagsRule with Some c => c | None => body "flags" end.

End Examples.

(* ================================================================== *)
(** * Properties *)
(* ================================================================== *)

Import Js Message Chain SchemaValidator Validator Compiled Shape Exact Examples.

(** A step of a builder sequence that did not raise. *)
Ltac bind_in H :=
  match type of H with
  | match ?e with Some _ => _ | None => None end = Some _ =>
      let E := fresh "E" in
      destruct e eqn:E; [|discriminate H]
  end.

(** ** Values *)

(** Induction on a value, with the hypothesis for every element of an
    array and every property value of an object. *)
Lemma Value_induction (P : Value -> Prop) :
  P VUndefined -> P VNull -> (forall b, P (VBool b)) -> (forall n, P (VNum n)) ->
  P VNaN -> (forall s, P (VStr s)) ->
  (forall xs, Forall P xs -> P (VArr xs)) ->
  (forall kv, Forall (fun e => P (snd e)) kv -> P (VObj kv)) ->
  forall v, P v.
Proof.
  intros Hu Hn Hb Hz Hnan Hs Harr Hobj.
  fix IH 1.
  intros [ | | b | n | | s | xs | kv].
  - exact Hu.
  - exact Hn.
  - apply Hb.
  - apply Hz.
  - exact Hnan.
  - apply Hs.
  - apply Harr. induction xs as [|x xs IHxs]; constructor; [apply IH | exact IHxs].
  - apply Hobj. induction kv as [|[k x] kv IHkv]; constructor; [apply IH | exact IHkv].
Qed.

Lemma lookup_set_prop_same k v kv : lookup k (set_prop k v kv) = Some v.
Proof.
  induction kv as [|[k' v'] kv IH]; simpl.
  - now rewrite String.eqb_refl.
  - destruct (k' =? k)%string eqn:E; simpl.
    + now rewrite String.eqb_refl.
    + now rewrite E.
Qed.

Lemma lookup_set_prop_other k k' v kv :
  k' <> k -> lookup k' (set_prop k v kv) = lookup k' kv.
Proof.
  intros Hne. induction kv as [|[k0 v0] kv IH]; simpl.
  - destruct (k =? k')%string eqn:E; [apply String.eqb_eq in E; congruence | reflexivity].
  - destruct (k0 =? k)%string eqn:E; simpl.
    + apply String.eqb_eq in E; subst k0.
      destruct (k =? k')%string eqn:E'; [apply String.eqb_eq in E'; congruence | reflexivity].
    + now rewrite IH.
Qed.

Lemma lookup_absent k kv : ~ In k (map fst kv) -> lookup k kv = None.
Proof.
  induction kv as [|[k0 v0] kv IH]; simpl; intros Hn; [reflexivity|].
  destruct (k0 =? k)%string eqn:E.
  - apply String.eqb_eq in E. tauto.
  - apply IH. tauto.
Qed.

(** Assigning the properties of [src] in order: a key of [src] takes the
    value [src] gives it, every other key keeps its own. *)
Lemma lookup_assign_all k src : forall acc,
  wf_props src ->
  lookup k (fold_left (fun a p => set_prop (fst p) (snd p) a) src acc)
  = match lookup k src with Some v => Some v | None => lookup k acc end.
Proof.
  unfold wf_props.
  induction src as [|[k0 v0] src IH]; simpl; intros acc Hnd; [reflexivity|].
  inversion Hnd as [|? ? Hnotin Hnd']; subst.
  rewrite IH by assumption.
  destruct (k0 =? k)%string eqn:E.
  - apply String.eqb_eq in E; subst k0.
    rewrite (lookup_absent k src Hnotin). apply lookup_set_prop_same.
  - destruct (lookup k src); [reflexivity|].
    apply lookup_set_prop_other. intros ->. now rewrite String.eqb_refl in E.
Qed.

Lemma own_spread k acc src :
  wf src ->
  lookup k (spread acc src)
  = match own src k with Some v => Some v | None => lookup k acc end.
Proof.
  unfold wf, own, spread. destruct (entries src) as [kv|]; intros H.
  - now apply lookup_assign_all.
  - reflexivity.
Qed.

(** ** Merged input *)

(** C9: the evaluation input is the merge of body, then query, then path
    parameters: a key of the path parameters takes their value, else a key
    of the query takes the query's, else the key has the value the body
    gives it (sources being objects with distinct keys). *)
Theorem C9_merge_precedence (req : Request) (k : string) :
  wf (reqBody req) -> wf (query req) -> wf (params req) ->
  own (get (mergedInput req) "body") k
  = match own (params req) k with
    | Some v => Some v
    | None =>
        match own (query req) k with
        | Some v => Some v
        | None => own (reqBody req) k
        end
    end.
Proof.
  intros Hb Hq Hp. unfold mergedInput. cbn [get lookup String.eqb Ascii.eqb Bool.eqb].
  cbn [own entries].
  rewrite !own_spread by assumption. cbn [lookup].
  now destruct (own (params req) k), (own (query req) k), (own (reqBody req) k).
Qed.

(** The request of the example: the merged [id] is 3. *)
Lemma C9_merge_precedence_witness :
  (wf (reqBody idRequest) /\ wf (query idRequest) /\ wf (params idRequest))
  /\ own (get (mergedInput idRequest) "body") "id" = Some (VNum 3)
  /\ get_path "id" (get (mergedInput idRequest) "body") = VNum 3.
Proof.
  assert (Hb : wf (reqBody idRequest)) by (repeat constructor; simpl; tauto).
  assert (Hq : wf (query idRequest)) by (repeat constructor; simpl; tauto).
  assert (Hp : wf (params idRequest)) by (repeat constructor; simpl; tauto).
  split; [tauto|]. split; [|reflexivity].
  exact (C9_merge_precedence idRequest "id" Hb Hq Hp).
Defined.

(** ** Route resolution *)

Lemma split_head_app (c : ascii) (u q : string) :
  nth_str 0 (split c (u ++ String c q)) = nth_str 0 (split c u).
Proof.
  induction u as [|a u IH]; simpl.
  - now rewrite Ascii.eqb_refl.
  - destruct (Ascii.eqb a c); [reflexivity|].
    unfold nth_str in *.
    destruct (split c (u ++ String c q)) as [|w ws],
             (split c u) as [|w' ws']; simpl in *; congruence.
Qed.

Lemma split_head_clean (c : ascii) (u : string) :
  includes c (nth_str 0 (split c u)) = false.
Proof.
  induction u as [|a u IH]; simpl; [reflexivity|].
  destruct (Ascii.eqb a c) eqn:E; [reflexivity|].
  unfold nth_str in *.
  destruct (split c u) as [|w ws]; simpl in *; rewrite E; simpl; auto.
Qed.

Lemma split_head_prefix (c : ascii) (u : string) :
  exists rest, u = nth_str 0 (split c u) ++ rest.
Proof.
  induction u as [|a u [rest IH]]; simpl.
  - now exists "".
  - destruct (Ascii.eqb a c).
    + now exists (String a u).
    + unfold nth_str in *. destruct (split c u) as [|w ws]; simpl in *.
      * exists rest. now rewrite IH at 1.
      * exists rest. now rewrite IH at 1.
Qed.

Lemma findRules_url registry this this' :
  url this = url this' -> findRules registry this = findRules registry this'.
Proof.
  intros E. induction registry as [|r rest IH]; simpl; [reflexivity|].
  rewrite E. now rewrite IH.
Qed.

Lemma split_head_whole (c : ascii) (u : string) :
  includes c u = false -> nth_str 0 (split c u) = u.
Proof.
  induction u as [|a u IH]; simpl; [reflexivity|].
  destruct (Ascii.eqb a c); [discriminate|]. simpl. intros H.
  specialize (IH H). unfold nth_str in *.
  destruct (split c u) as [|w ws]; simpl in *; congruence.
Qed.

Lemma split_head_rest (c : ascii) (u : string) :
  exists rest, u = nth_str 0 (split c u) ++ rest
               /\ (rest = "" \/ exists q, rest = String c q).
Proof.
  induction u as [|a u (rest & IH & Hrest)]; simpl.
  - exists "". split; [reflexivity | now left].
  - destruct (Ascii.eqb a c) eqn:E.
    + apply Ascii.eqb_eq in E. subst a. exists (String c u).
      split; [reflexivity | right; now exists u].
    + unfold nth_str in *. destruct (split c u) as [|w ws]; simpl in *.
      * exists rest. split; [now rewrite IH at 1 | exact Hrest].
      * exists rest. split; [now rewrite IH at 1 | exact Hrest].
Qed.

(** C10: only the part of the request URL before the first ['?'] takes
    part in route resolution.  The validator keeps that part: it holds no
    ['?'], it starts the URL, what follows it in the URL is nothing or
    starts with ['?'], and it is the whole URL when the URL holds no
    ['?'].  So a URL with a query string appended resolves to the rules
    of the URL without it, and the path [u] with [?q] appended resolves
    as [u]. *)
Theorem C10_query_string_ignored (registry : list Route) (u q : string) :
  url (new (u ++ "?" ++ q)) = url (new u)
  /\ findRules registry (new (u ++ "?" ++ q)) = findRules registry (new u)
  /\ includes "?" (url (new u)) = false
  /\ (exists rest, u = url (new u) ++ rest)
  /\ (exists rest, u = url (new u) ++ rest
                   /\ (rest = "" \/ exists q', rest = "?" ++ q'))
  /\ (includes "?" u = false ->
      url (new u) = u /\ url (new (u ++ "?" ++ q)) = u).
Proof.
  assert (E : url (new (u ++ "?" ++ q)) = url (new u))
    by (unfold new; simpl; apply split_head_app).
  split; [exact E|].
  split; [apply findRules_url, E|].
  split; [apply split_head_clean|].
  split; [apply split_head_prefix|].
  split; [apply (split_head_rest "?" u)|].
  intros H.
  assert (W : url (new u) = u) by (unfold new; simpl; now apply split_head_whole).
  split; [exact W | now rewrite E].
Qed.

(** The URL [/api/login?x=1] is kept as [/api/login] and resolves as
    [/api/login] does, in every registry. *)
Lemma C10_query_string_ignored_witness :
  includes "?" "/api/login" = false
  /\ url (new "/api/login?x=1") = "/api/login"
  /\ forall registry,
       findRules registry (new "/api/login?x=1")
       = findRules registry (new "/api/login").
Proof.
  split; [reflexivity|]. split.
  - exact (proj2 (proj2 (proj2 (proj2 (proj2 (proj2
             (C10_query_string_ignored [] "/api/login" "x=1"))))) eq_refl)).
  - intros registry.
    exact (proj1 (proj2 (C10_query_string_ignored registry "/api/login" "x=1"))).
Defined.

Lemma findRules_first_match pre r post this :
  (forall r', In r' pre -> regexp r' (url this) = false) ->
  regexp r (url this) = true ->
  findRules (pre ++ r :: post) this = rules r.
Proof.
  induction pre as [|p pre IH]; simpl; intros Hpre Hr.
  - now rewrite Hr.
  - rewrite (Hpre p) by auto. apply IH; auto.
Qed.

Lemma findRules_none registry this :
  (forall r, In r registry -> regexp r (url this) = false) ->
  findRules registry this = VStr "".
Proof.
  induction registry as [|r rest IH]; simpl; intros H; [reflexivity|].
  rewrite (H r) by auto. apply IH; auto.
Qed.

(** C7: route resolution scans the registry in registration order and
    returns the rules of the first route whose matcher accepts the path,
    whatever routes follow it; when no matcher accepts the path it returns
    the empty string and the request is answered with status 400 and the
    text "Invalid request.Conuld not find <path>". *)
Theorem C7_first_match_wins (registry : list Route) (this : RequestValidator) :
  (forall pre r post,
      registry = (pre ++ r :: post)%list ->
      (forall r', In r' pre -> regexp r' (url this) = false) ->
      regexp r (url this) = true ->
      findRules registry this = rules r)
  /\ ((forall r, In r registry -> regexp r (url this) = false) ->
      findRules registry this = VStr ""
      /\ forall run req,
           validateRequest run registry this req
           = Status400 ("Invalid request.Conuld not find " ++ url this)).
Proof.
  split.
  - intros pre r post -> Hpre Hr. now apply findRules_first_match.
  - intros Hnone. pose proof (findRules_none registry this Hnone) as E.
    split; [exact E|]. intros run req. unfold validateRequest. now rewrite E.
Qed.

(** In the registry [overlapping] the path [/api/login] resolves to the
    first route, though the second names it exactly, and [/other]
    resolves to none. *)
Lemma C7_first_match_wins_witness :
  findRules overlapping (new "/api/login?next=home") = rules broadRoute
  /\ findRules overlapping (new "/other") = VStr ""
  /\ forall run,
       validateRequest run overlapping (new "/other") (post "/other" [])
       = Status400 "Invalid request.Conuld not find /other".
Proof.
  pose proof (C7_first_match_wins overlapping) as H.
  split.
  - destruct (H (new "/api/login?next=home")) as [Hfirst _].
    apply (Hfirst [] broadRoute [exactRoute]).
    + reflexivity.
    + intros r' [].
    + reflexivity.
  - destruct (H (new "/other")) as [_ Hnone].
    destruct Hnone as [E Hreply].
    + intros r [<- | [<- | []]]; reflexivity.
    + split; [exact E|]. intros run. apply Hreply.
Defined.

(** ** Schema meta-validation *)

Lemma Value_eqb_refl (v : Value) : Value_eqb v v = true.
Proof.
  induction v as [ | | b | n | | s | xs IH | kv IH] using Value_induction;
    simpl; auto.
  - destruct b; reflexivity.
  - apply Z.eqb_refl.
  - apply String.eqb_refl.
  - induction IH as [|x xs Hx _ IHxs]; [reflexivity|]. now rewrite Hx, IHxs.
  - induction IH as [|[k x] kv Hx _ IHkv]; [reflexivity|].
    simpl in Hx. now rewrite String.eqb_refl, Hx, IHkv.
Qed.

(** A chain without checks leaves no failure and the request as it is. *)
Lemma run_empty_stack ext c input :
  stack c = [] -> Chain.run ext c input = ([], input).
Proof.
  intros E. unfold Chain.run. rewrite E. simpl. now rewrite Value_eqb_refl.
Qed.

Lemma validateField_empty_stack ext c input :
  stack c = [] -> validateField (Chain.run ext) c input = ("", input).
Proof.
  intros E. unfold validateField. now rewrite run_empty_stack.
Qed.

(** C5, at a rule whose [dataType] is the number 5: meta-validation
    records no error and answers valid, and the traversal of the rules so
    accepted raises a TypeError on every request (the data-type step calls
    [includes] on the number). *)
Theorem C5_number_dataType_passes :
  SchemaValidator.schemaValidator numberTypeSchema []
  = {| SchemaValidator.isValid := true; SchemaValidator.error := [] |}
  /\ SchemaValidator.validateSchema numberTypeSchema = true
  /\ forall run input, expressRuleBuilder run numberTypeRules input "" = None.
Proof.
  repeat split.
Qed.

(** C4, at a rule whose first key is [allowedValues] and at the empty
    object: the meta-validator takes the first for a rule and the second
    for a nested tree, the compiler takes the first for a nested tree and
    the second for a rule.  The schema with the first passes
    meta-validation, and its [required] is then never checked: every
    request passes. *)
Theorem C4_classifiers_differ :
  SchemaValidator.isValidationRule roleRule = true
  /\ isNested roleRule = Some true
  /\ SchemaValidator.isValidationRule (VObj []) = false
  /\ isNested (VObj []) = Some false
  /\ SchemaValidator.validateSchema roleSchema = true
  /\ forall ext input,
       expressRuleBuilder (Chain.run ext) roleRules input "" = Some ("", input).
Proof.
  repeat split.
  intros ext input. cbn -[validateField].
  now rewrite !validateField_empty_stack by reflexivity.
Qed.

(** ** The shape of a compiled chain *)

Lemma set_last_message_erase m items items' :
  set_last_message m items = Some items' ->
  map erase items' = map erase items.
Proof.
  revert items'. induction items as [|it rest IH]; simpl; intros items' H.
  - discriminate.
  - destruct (set_last_message m rest) as [rest'|] eqn:E.
    + injection H as <-. simpl. now rewrite (IH rest').
    + destruct it; inversion H; reflexivity.
Qed.

Lemma set_last_message_messages m items items' :
  set_last_message m items = Some items' ->
  forall m', In (Some m') (map message items') ->
             m' = m \/ In (Some m') (map message items).
Proof.
  revert items'. induction items as [|it rest IH]; simpl; intros items' H m' Hin.
  - discriminate.
  - destruct (set_last_message m rest) as [rest'|] eqn:E.
    + injection H as <-. simpl in Hin. destruct Hin as [Hin|Hin]; [tauto|].
      destruct (IH rest' eq_refl m' Hin); tauto.
    + destruct it; inversion H; subst; simpl in Hin;
        (destruct Hin as [Hin|Hin];
         [injection Hin as <-; now left | right; right; exact Hin]).
Qed.

Lemma grows_refl c : negateNext c = false -> grows c c [] [].
Proof.
  intros H. unfold grows. rewrite app_nil_r. tauto.
Qed.

Lemma grows_trans a b c k1 k2 m1 m2 :
  grows a b k1 m1 -> grows b c k2 m2 -> grows a c (k1 ++ k2)%list (m1 ++ m2)%list.
Proof.
  intros (F1 & O1 & N1 & K1 & M1) (F2 & O2 & N2 & K2 & M2).
  unfold grows. repeat split; try congruence.
  - now rewrite K2, K1, app_assoc.
  - intros m Hm. rewrite in_app_iff.
    destruct (M2 m Hm) as [?|Hb]; [tauto|]. destruct (M1 m Hb); tauto.
Qed.

Lemma grows_weaken a b k m1 m2 :
  grows a b k m1 -> incl m1 m2 -> grows a b k m2.
Proof.
  intros (F & O & N & K & M) Hincl. unfold grows. repeat split; auto.
  intros m Hm. destruct (M m Hm); [left; auto | tauto].
Qed.

Lemma withMessage_grows m c c' :
  negateNext c = false -> withMessage m c = Some c' -> grows c c' [] [m].
Proof.
  unfold withMessage. intros N H.
  destruct (set_last_message m (stack c)) as [st|] eqn:E; [|discriminate].
  injection H as <-. unfold grows; simpl. rewrite app_nil_r.
  repeat split; auto.
  - now apply set_last_message_erase with m.
  - intros m' Hm'.
    destruct (set_last_message_messages _ _ _ E m' Hm') as [->|?];
      [left; now left | now right].
Qed.

Lemma map_snoc {A B} (f : A -> B) l x : map f (l ++ [x])%list = (map f l ++ [f x])%list.
Proof. now rewrite map_app. Qed.

Lemma in_snoc_none {A} (l : list (option A)) x :
  In (Some x) (l ++ [None])%list -> In (Some x) l.
Proof.
  rewrite in_app_iff. intros [H|[H|[]]]; [exact H | discriminate].
Qed.

Lemma standard_grows v c :
  negateNext c = false -> grows c (standard v c) [std v] [].
Proof.
  intros N. unfold grows, standard, addItem, std; simpl. rewrite N, !map_snoc.
  repeat split. intros m Hm. right. now apply in_snoc_none.
Qed.

Lemma custom_grows v c :
  negateNext c = false -> grows c (custom v c) [cus v] [].
Proof.
  intros N. unfold grows, custom, addItem, cus; simpl. rewrite N, !map_snoc.
  repeat split. intros m Hm. right. now apply in_snoc_none.
Qed.

Lemma notEmpty_grows c :
  negateNext c = false ->
  grows c (notEmpty c) [StandardValidation IsEmpty true None] [].
Proof.
  intros N. unfold grows, notEmpty, standard, addItem, not_; simpl.
  rewrite !map_snoc. repeat split. intros m Hm. right. now apply in_snoc_none.
Qed.

Lemma sanitizer_grows s c :
  negateNext c = false -> grows c (sanitizer s c) [Sanitization s] [].
Proof.
  intros N. unfold grows, sanitizer; simpl. rewrite !map_snoc.
  repeat split; auto. intros m Hm. right. now apply in_snoc_none.
Qed.

(** A validator followed by its [withMessage]. *)
Lemma checked_grows c c1 c' k m :
  grows c c1 k [] -> withMessage m c1 = Some c' -> grows c c' k [m].
Proof.
  intros G W.
  assert (N : negateNext c1 = false) by apply G.
  pose proof (grows_trans _ _ _ _ _ _ _ G (withMessage_grows _ _ _ N W)) as H.
  now rewrite app_nil_r in H.
Qed.
Lemma applyArrayValidation_grows c arrayDataType f c' :
  negateNext c = false ->
  applyArrayValidation c arrayDataType f = Some c' ->
  grows c c'
    (cus IsArray :: (if negb (arrayDataType =? "")%string
                     then [cus (EveryTypeof arrayDataType)] else []))
    [errorMessageConstructor f DATATYPE_ERROR (VStr "array");
     errorMessageConstructor f ARRAY_DATATYPE_ERROR (VStr arrayDataType)].
Proof.
  intros N H. unfold applyArrayValidation in H. bind_in H.
  pose proof (checked_grows _ _ _ _ _ (custom_grows IsArray c N) E) as G1.
  destruct (negb (arrayDataType =? "")%string).
  - assert (N1 : negateNext v = false) by apply G1.
    pose proof (checked_grows _ _ _ _ _ (custom_grows (EveryTypeof arrayDataType) v N1) H) as G2.
    exact (grows_trans _ _ _ _ _ _ _ G1 G2).
  - injection H as <-. eapply grows_weaken; [exact G1|].
    intros m [<-|[]]; simpl; auto.
Qed.

Lemma converting_grows v s c :
  negateNext c = false ->
  grows c (sanitizer s (standard v c)) [std v; Sanitization s] [].
Proof.
  intros N.
  assert (N1 : negateNext (standard v c) = false) by reflexivity.
  exact (grows_trans _ _ _ _ _ _ _ (standard_grows v c N)
                     (sanitizer_grows s (standard v c) N1)).
Qed.

Lemma dataTypeHandler_grows c name arrayDataType f c' :
  negateNext c = false ->
  dataTypeHandler c name arrayDataType f = Some c' ->
  grows c c' (handlerKinds name arrayDataType)
    [errorMessageConstructor f DATATYPE_ERROR (VStr "array");
     errorMessageConstructor f ARRAY_DATATYPE_ERROR (VStr arrayDataType)].
Proof.
  intros N H. unfold dataTypeHandler in H. unfold handlerKinds.
  repeat match type of H with
         | (if ?b then _ else _) = Some _ => destruct b
         end;
    try discriminate H;
    try (now apply applyArrayValidation_grows);
    injection H as <-;
    (eapply grows_weaken;
     [ first [ apply custom_grows, N
             | apply standard_grows, N
             | apply converting_grows, N
             | apply grows_refl, N ]
     | intros ? [] ]).
Qed.

Lemma applyDataTypeValidation_grows c dataType f c' :
  negateNext c = false ->
  applyDataTypeValidation c dataType f = Some c' ->
  exists dt arrayDataType,
    splitType dataType = Some (dt, arrayDataType)
    /\ grows c c'
         (Sanitization TrimString :: handlerKinds (to_string dt) arrayDataType)
         [errorMessageConstructor f DATATYPE_ERROR (VStr "array");
          errorMessageConstructor f ARRAY_DATATYPE_ERROR (VStr arrayDataType);
          errorMessageConstructor f DATATYPE_ERROR dt].
Proof.
  intros N H. unfold applyDataTypeValidation in H.
  destruct (splitType dataType) as [[dt adt]|]; [|discriminate].
  exists dt, adt. split; [reflexivity|].
  bind_in H.
  assert (N1 : negateNext (sanitizer TrimString c) = false) by exact N.
  pose proof (grows_trans _ _ _ _ _ _ _ (sanitizer_grows TrimString c N)
                (dataTypeHandler_grows _ _ _ _ _ N1 E)) as G.
  simpl in G.
  destruct (negb (strict_eq_str dt "array")).
  - assert (N2 : negateNext v = false) by apply G.
    pose proof (grows_trans _ _ _ _ _ _ _ G (withMessage_grows _ _ _ N2 H)) as G'.
    rewrite app_nil_r in G'. exact G'.
  - injection H as <-. eapply grows_weaken; [exact G|].
    intros m Hm; simpl in *; tauto.
Qed.

Lemma applyRegexValidation_grows c pattern f c' :
  negateNext c = false ->
  applyRegexValidation c pattern f = Some c' ->
  grows c c' [std (Matches pattern)]
        [errorMessageConstructor f PATTERN_MATCHING_ERROR pattern].
Proof.
  intros N H. exact (checked_grows _ _ _ _ _ (standard_grows _ c N) H).
Qed.

Lemma applyMinMaxValidation_grows c f dataType min max c' :
  negateNext c = false ->
  applyMinMaxValidation c f dataType min max = Some c' ->
  grows c c'
    [std (if loose_eq_str dataType "int"
          then IsInt (minMaxOptions min max)
          else IsFloat (minMaxOptions min max))]
    [errorMessageConstructor f MIN_MAX_ERROR (VObj [("min", min); ("max", max)])].
Proof.
  intros N H. unfold applyMinMaxValidation in H.
  destruct (loose_eq_str dataType "int");
    exact (checked_grows _ _ _ _ _ (standard_grows _ c N) H).
Qed.

Lemma applyLengthValidation_grows c f length c' :
  negateNext c = false ->
  applyLengthValidation c f length = Some c' ->
  grows c c' [std (IsLength length length)]
        [errorMessageConstructor f LENGTH_ERROR length].
Proof.
  intros N H. exact (checked_grows _ _ _ _ _ (standard_grows _ c N) H).
Qed.

Lemma applyAllowedValueValidation_grows c f allowed c' :
  negateNext c = false ->
  applyAllowedValueValidation c f allowed = Some c' ->
  grows c c' [std (IsIn allowed)]
        [errorMessageConstructor f ALLOWED_VALUE_ERROR allowed].
Proof.
  intros N H. exact (checked_grows _ _ _ _ _ (standard_grows _ c N) H).
Qed.

Lemma applyMandatoryFieldValidation_body f required c :
  applyMandatoryFieldValidation (body f) required f = Some c ->
  field c = f /\ isOptional c = negb (truthy required) /\ negateNext c = false
  /\ map erase (stack c)
     = (if truthy required
        then [cus Exists; StandardValidation IsEmpty true None; cus NonEmptyArray]
        else [])
  /\ forall m, In (Some m) (map message (stack c)) ->
       In m [errorMessageConstructor f MANDATORY_FIELD_ERROR VNull;
             errorMessageConstructor f EMPTY_FIELD_ERROR VNull;
             errorMessageConstructor f EMPTY_FIELD_ERROR (VStr "array")].
Proof.
  unfold applyMandatoryFieldValidation. destruct (truthy required); simpl; intros H.
  - injection H as <-. simpl. repeat split.
    intros m [H|[H|[H|[]]]]; injection H as <-; auto.
  - injection H as <-. simpl. repeat split. intros m [].
Qed.

(** What [buildChain] builds: the field, whether it is optional, the
    items in order up to their messages, and the messages it can hold. *)
Theorem buildChain_shape f rule c :
  buildChain f rule = Some c ->
  field c = f
  /\ isOptional c = negb (truthy (get rule "required"))
  /\ map erase (stack c) = ruleKinds rule
  /\ forall m, In (Some m) (map message (stack c)) -> In m (ruleMessages f rule).
Proof.
  unfold buildChain. intros H.
  bind_in H. rename v into c1, E into E1.
  bind_in H. rename v into c2, E into E2.
  bind_in H. rename v into c3, E into E3.
  bind_in H. rename v into c4, E into E4.
  bind_in H. rename v into c5, E into E5.
  destruct (applyMandatoryFieldValidation_body _ _ _ E1) as (F1 & O1 & N1 & K1 & M1).
  assert (G2 : grows c1 c2 (dataTypeKinds rule)
                 [errorMessageConstructor f DATATYPE_ERROR (VStr "array");
                  errorMessageConstructor f ARRAY_DATATYPE_ERROR
                    (VStr (match splitType (get rule "dataType") with
                           | Some p => snd p | None => "" end));
                  errorMessageConstructor f DATATYPE_ERROR
                    (match splitType (get rule "dataType") with
                     | Some p => fst p | None => VUndefined end)]).
  { unfold dataTypeKinds. destruct (truthy (get rule "dataType")).
    - destruct (applyDataTypeValidation_grows _ _ _ _ N1 E2) as (dt & adt & S & G).
      rewrite S. exact G.
    - injection E2 as <-. eapply grows_weaken; [apply grows_refl, N1 | intros ? []]. }
  assert (N2 : negateNext c2 = false) by apply G2.
  assert (G3 : grows c2 c3 (regexKinds rule)
                 [errorMessageConstructor f PATTERN_MATCHING_ERROR (get rule "regex")]).
  { unfold regexKinds. destruct (truthy (get rule "regex")).
    - now apply applyRegexValidation_grows.
    - injection E3 as <-. eapply grows_weaken; [apply grows_refl, N2 | intros ? []]. }
  assert (N3 : negateNext c3 = false) by apply G3.
  assert (G4 : grows c3 c4 (minMaxKinds rule)
                 [errorMessageConstructor f MIN_MAX_ERROR
                    (VObj [("min", get rule "min"); ("max", get rule "max")])]).
  { unfold minMaxKinds. destruct (minMaxApplies rule).
    - apply applyMinMaxValidation_grows in E4; [|exact N3].
      cbv zeta. destruct (loose_eq_str (get rule "dataType") "int"); exact E4.
    - injection E4 as <-. eapply grows_weaken; [apply grows_refl, N3 | intros ? []]. }
  assert (N4 : negateNext c4 = false) by apply G4.
  assert (G5 : grows c4 c5 (lengthKinds rule)
                 [errorMessageConstructor f LENGTH_ERROR (get_length rule)]).
  { unfold lengthKinds.
    destruct (truthy (get_length rule) && strict_eq_str (get rule "dataType") "string").
    - now apply applyLengthValidation_grows.
    - injection E5 as <-. eapply grows_weaken; [apply grows_refl, N4 | intros ? []]. }
  assert (N5 : negateNext c5 = false) by apply G5.
  assert (G6 : grows c5 c (allowedKinds rule)
                 [errorMessageConstructor f ALLOWED_VALUE_ERROR
                    (get rule "allowedAvalues")]).
  { unfold allowedKinds. destruct (truthy (get rule "allowedAvalues")).
    - now apply applyAllowedValueValidation_grows.
    - injection H as <-. eapply grows_weaken; [apply grows_refl, N5 | intros ? []]. }
  pose proof (grows_trans _ _ _ _ _ _ _ G2
               (grows_trans _ _ _ _ _ _ _ G3
                 (grows_trans _ _ _ _ _ _ _ G4
                   (grows_trans _ _ _ _ _ _ _ G5 G6)))) as (F & O & _ & K & M).
  repeat split.
  - congruence.
  - congruence.
  - rewrite K, K1. reflexivity.
  - intros m Hm. destruct (M m Hm) as [Hin|Hin].
    + unfold ruleMessages. simpl in Hin. simpl. tauto.
    + apply M1 in Hin. unfold ruleMessages. simpl in Hin. simpl. tauto.
Qed.

(** ** Which checks a rule gets *)

Lemma existsb_erase (p : ContextItem -> bool) items :
  (forall it, p (erase it) = p it) ->
  existsb p (map erase items) = existsb p items.
Proof.
  intros Hp. induction items as [|it rest IH]; simpl; [reflexivity|].
  now rewrite Hp, IH.
Qed.

Lemma isRangeCheck_erase it : isRangeCheck (erase it) = isRangeCheck it.
Proof. now destruct it. Qed.

Lemma isMembershipCheck_erase it : isMembershipCheck (erase it) = isMembershipCheck it.
Proof. now destruct it. Qed.

Lemma handlerKinds_no_range name adt :
  existsb isRangeCheck (handlerKinds name adt) = false.
Proof.
  unfold handlerKinds.
  repeat match goal with |- context [if ?b then _ else _] => destruct b end;
    reflexivity.
Qed.

Lemma minMaxOptions_nonempty rule :
  minMaxApplies rule = true ->
  minMaxOptions (get rule "min") (get rule "max") <> [].
Proof.
  unfold minMaxApplies, minMaxOptions. cbv zeta.
  destruct (truthy (get rule "min")); simpl.
  - intros _. destruct (truthy (get rule "max")); simpl.
    + destruct ("min" =? "max")%string; discriminate.
    + discriminate.
  - destruct (truthy (get rule "max")); simpl; [intros _|]; discriminate.
Qed.

(** The chain of a rule holds a range check exactly when the guard
    [rule.min || rule.max && numeric] of [expressRuleBuilder] holds. *)
Lemma range_check_iff_guard f rule c :
  buildChain f rule = Some c ->
  existsb isRangeCheck (stack c) = minMaxApplies rule.
Proof.
  intros H. destruct (buildChain_shape _ _ _ H) as (_ & _ & K & _).
  rewrite <- (existsb_erase isRangeCheck (stack c) isRangeCheck_erase), K.
  unfold ruleKinds. rewrite !existsb_app.
  assert (E1 : existsb isRangeCheck (mandatoryKinds rule) = false)
    by (unfold mandatoryKinds; now destruct (truthy (get rule "required"))).
  assert (E2 : existsb isRangeCheck (dataTypeKinds rule) = false).
  { unfold dataTypeKinds. destruct (truthy (get rule "dataType")); [|reflexivity].
    destruct (splitType (get rule "dataType")) as [[dt adt]|]; [|reflexivity].
    simpl. apply handlerKinds_no_range. }
  assert (E3 : existsb isRangeCheck (regexKinds rule) = false)
    by (unfold regexKinds; now destruct (truthy (get rule "regex"))).
  assert (E5 : existsb isRangeCheck (lengthKinds rule) = false)
    by (unfold lengthKinds; now destruct (_ && _)).
  assert (E6 : existsb isRangeCheck (allowedKinds rule) = false)
    by (unfold allowedKinds; now destruct (truthy (get rule "allowedAvalues"))).
  rewrite E1, E2, E3, E5, E6. simpl. rewrite !orb_false_r.
  unfold minMaxKinds. destruct (minMaxApplies rule) eqn:A; [|reflexivity].
  pose proof (minMaxOptions_nonempty rule A) as Hne. cbv zeta. simpl.
  destruct (minMaxOptions (get rule "min") (get rule "max")); [congruence|].
  now destruct (loose_eq_str (get rule "dataType") "int").
Qed.

(** The chain of a rule holds a membership check exactly when the rule
    has a truthy property [allowedAvalues]. *)
Lemma membership_check_iff_misspelt_key f rule c :
  buildChain f rule = Some c ->
  existsb isMembershipCheck (stack c) = truthy (get rule "allowedAvalues").
Proof.
  intros H. destruct (buildChain_shape _ _ _ H) as (_ & _ & K & _).
  rewrite <- (existsb_erase isMembershipCheck (stack c) isMembershipCheck_erase), K.
  unfold ruleKinds. rewrite !existsb_app.
  assert (E1 : existsb isMembershipCheck (mandatoryKinds rule) = false)
    by (unfold mandatoryKinds; now destruct (truthy (get rule "required"))).
  assert (E2 : existsb isMembershipCheck (dataTypeKinds rule) = false).
  { unfold dataTypeKinds. destruct (truthy (get rule "dataType")); [|reflexivity].
    destruct (splitType (get rule "dataType")) as [[dt adt]|]; [|reflexivity].
    simpl. unfold handlerKinds.
    repeat match goal with |- context [if ?b then _ else _] => destruct b end;
      reflexivity. }
  assert (E3 : existsb isMembershipCheck (regexKinds rule) = false)
    by (unfold regexKinds; now destruct (truthy (get rule "regex"))).
  assert (E4 : existsb isMembershipCheck (minMaxKinds rule) = false).
  { unfold minMaxKinds. destruct (minMaxApplies rule); [|reflexivity].
    cbv zeta. now destruct (loose_eq_str (get rule "dataType") "int"). }
  assert (E5 : existsb isMembershipCheck (lengthKinds rule) = false)
    by (unfold lengthKinds; now destruct (_ && _)).
  rewrite E1, E2, E3, E4, E5. simpl.
  unfold allowedKinds. now destruct (truthy (get rule "allowedAvalues")).
Qed.

(** C2, at the rule [{dataType: "string", min: 5}]: the guard of the
    range check holds although the data type is not numeric, the chain of
    the rule holds a range check, and the text "abc" is answered with the
    min/max message unless validator.js [isFloat] accepts it with a lower
    bound of 5. *)
Theorem C2_range_check_on_string_rule :
  is_numeric_type (get nameRule "dataType") = false
  /\ minMaxApplies nameRule = true
  /\ option_map (fun c => existsb isRangeCheck (stack c)) (buildChain "name" nameRule)
     = Some true
  /\ forall ext,
       validateRequestHandler (Chain.run ext) nameRoutes (post "/api/name" [("name", VStr "abc")])
       = if ext_valid ext (IsFloat [("min", VNum 5)]) "abc"
         then Next
         else Status400 "name should be in greater than or equal to 5".
Proof.
  repeat split. intros [ev es]. cbn [ext_valid].
  destruct (ev (IsFloat [("min", VNum 5)]) "abc") eqn:Eb;
    cbv; rewrite Eb; reflexivity.
Qed.

(** C3, at the rule [{required: true, allowedValues: ["red", "green"]}]:
    the chain of the rule holds no membership check, and the value "blue"
    passes. *)
Theorem C3_allowedValues_not_checked :
  has_prop "allowedValues" colourRule = true
  /\ option_map (fun c => existsb isMembershipCheck (stack c))
                (buildChain "colour" colourRule) = Some false
  /\ forall ext,
       validateRequestHandler (Chain.run ext) paintRoutes
               (post "/api/paint" [("colour", VStr "blue")]) = Next.
Proof.
  repeat split.
Qed.

(** ** The min/max message *)

Lemma code_of_constructor f code extra :
  errorCode (errorMessageConstructor f code extra) = code.
Proof. reflexivity. Qed.

(** The one message of code MIN_MAX a chain can hold is the one built
    from the rule's [min] and [max]. *)
Lemma min_max_message_of_rule f rule c m :
  buildChain f rule = Some c ->
  In (Some m) (map message (stack c)) ->
  errorCode m = MIN_MAX_ERROR ->
  m = errorMessageConstructor f MIN_MAX_ERROR
        (VObj [("min", get rule "min"); ("max", get rule "max")]).
Proof.
  intros H Hin Hcode.
  destruct (buildChain_shape _ _ _ H) as (_ & _ & _ & M).
  specialize (M m Hin). unfold ruleMessages in M. simpl in M.
  repeat (destruct M as [M|M];
          [ first [ now symmetry
                  | subst m; rewrite code_of_constructor in Hcode; discriminate ]
          | ]).
  destruct M.
Qed.

(** C8, at the rule [{required: true, dataType: "int", min: 0, max: 10}]:
    both bounds are present in the rule, and the bound 0 counts as absent
    throughout.  The options of the range check hold no [min]; the one
    min/max message of the chain is the "less than or equal to" one, not
    the "between" one; the value "15" is answered with it; and the value
    "-5" passes.  With [min] 18 and no [max] the example of the claim
    holds. *)
Theorem C8_zero_bound_counts_as_absent :
  (has_prop "min" scoreRule = true /\ has_prop "max" scoreRule = true)
  /\ minMaxOptions (get scoreRule "min") (get scoreRule "max")
     = [("max", VNum 10)]
  /\ (exists c,
        buildChain "score" scoreRule = Some c
        /\ In (Some {| errorMsg := "score should be in less than or equal to 10";
                       errorCode := MIN_MAX_ERROR |})
              (map message (stack c))
        /\ forall m, In (Some m) (map message (stack c)) ->
                     errorCode m = MIN_MAX_ERROR ->
                     errorMsg m = "score should be in less than or equal to 10")
  /\ forall ext,
       validateRequestHandler (Chain.run ext) scoreRoutes
         (post "/api/score" [("score", VStr "15")])
       = Status400 "score should be in less than or equal to 10"
       /\ validateRequestHandler (Chain.run ext) scoreRoutes
            (post "/api/score" [("score", VStr "-5")])
          = Next
       /\ validateRequestHandler (Chain.run ext) ageRoutes
            (post "/api/register" [("age", VStr "15")])
          = Status400 "age should be in greater than or equal to 18".
Proof.
  split; [split; reflexivity|]. split; [reflexivity|]. split.
  - destruct (buildChain "score" scoreRule) as [c|] eqn:E; [|discriminate E].
    exists c. split; [reflexivity|]. split.
    + vm_compute in E. injection E as <-. cbv. tauto.
    + intros m Hin Hcode.
      now rewrite (min_max_message_of_rule _ _ _ _ E Hin Hcode).
  - intros [ev es]. repeat split.
Qed.

(** ** The value each check receives *)



Lemma run_stack_value ext opt it rest x :
  fst (run_stack ext opt (it :: rest) x)
  = fst (run_stack ext opt rest
           (if opt && match x with VUndefined => true | _ => false end
            then x else fst (run_item ext it x))).
Proof.
  simpl. destruct (opt && _).
  - now destruct (run_stack ext opt rest x).
  - destruct (run_item ext it x) as [x1 e1]. simpl.
    now destruct (run_stack ext opt rest x1).
Qed.


Lemma run_stack_value_app ext opt l1 l2 : forall x,
  fst (run_stack ext opt (l1 ++ l2)%list x)
  = fst (run_stack ext opt l2 (fst (run_stack ext opt l1 x))).
Proof.
  induction l1 as [|it rest IH]; intros x.
  - reflexivity.
  - simpl app. rewrite !run_stack_value. apply IH.
Qed.

(** Checks leave the value as it is. *)
Lemma checks_keep_value ext opt items : forall x,
  noSanitizer items = true ->
  fst (run_stack ext opt items x) = x
  /\ forall it x', In (it, x') (received ext opt items x) -> x' = x.
Proof.
  induction items as [|it rest IH]; intros x Hno.
  - split; [reflexivity | intros ? ? []].
  - simpl in Hno. apply andb_prop in Hno as [Hit Hrest].
    assert (E : (if opt && match x with VUndefined => true | _ => false end
                 then x else fst (run_item ext it x)) = x)
      by (destruct (opt && _); [reflexivity | now destruct it]).
    rewrite run_stack_value, E. destruct (IH x Hrest) as [V R].
    split; [exact V|].
    simpl. rewrite E. intros it' x' [Hin|Hin].
    + now injection Hin as _ <-.
    + now apply (R it').
Qed.


Lemma isPatternCheck_erase it : isPatternCheck (erase it) = isPatternCheck it.
Proof. now destruct it. Qed.









(** ** Which failure is reported *)

Section Reported.

Variable run : ValidationChain -> Value -> list (option Msg) * Value.

Lemma firstFailure_app l1 l2 : forall input,
  firstFailure run (l1 ++ l2)%list input
  = match firstFailure run l1 input with
    | None => None
    | Some r =>
        if negb (fst r =? "")%string then Some r
        else firstFailure run l2 (snd r)
    end.
Proof.
  induction l1 as [|[f rule|] rest IH]; intros input; simpl.
  - reflexivity.
  - destruct (buildChain f rule) as [c|]; [|reflexivity].
    destruct (negb (fst (validateField run c input) =? "")%string) eqn:E.
    + now rewrite E.
    + apply IH.
  - reflexivity.
Qed.

Lemma visit_leaves recur recurLeaves prefix field rule input :
  (forall f inp, recur f inp = firstFailure run (recurLeaves f) inp) ->
  visit run recur prefix field rule input
  = firstFailure run (visitLeaves recurLeaves prefix field rule) input.
Proof.
  intros Hrec. unfold visit, visitLeaves.
  destruct (isNested rule) as [[|]|]; [apply Hrec | | reflexivity].
  simpl. destruct (buildChain (fullFieldOf prefix field) rule) as [c|]; [|reflexivity].
  destruct (validateField run c input) as [msg input'] eqn:E. simpl.
  destruct (msg =? "")%string eqn:Em; simpl; [|reflexivity].
  apply String.eqb_eq in Em. now subst msg.
Qed.

Lemma each_concat {A} (step : A -> Value -> option (string * Value))
  (lv : A -> list Leaf) (l : list A) :
  Forall (fun a => forall input, step a input = firstFailure run (lv a) input) l ->
  forall input,
    each (map step l) input = firstFailure run (concat (map lv l)) input.
Proof.
  induction 1 as [|a l Ha _ IH]; intros input; simpl; [reflexivity|].
  rewrite firstFailure_app, Ha.
  destruct (firstFailure run (lv a) input) as [r|]; [|reflexivity].
  destruct (negb (fst r =? "")%string); [reflexivity | apply IH].
Qed.

Lemma each_concat_indexed {A} (step : nat -> A -> Value -> option (string * Value))
  (lv : nat -> A -> list Leaf) (l : list A) :
  Forall (fun a => forall i input,
              step i a input = firstFailure run (lv i a) input) l ->
  forall i input,
    each (mapi step i l) input = firstFailure run (concat (mapi lv i l)) input.
Proof.
  induction 1 as [|a l Ha _ IH]; intros i input; simpl; [reflexivity|].
  rewrite firstFailure_app, Ha.
  destruct (firstFailure run (lv i a) input) as [r|]; [|reflexivity].
  destruct (negb (fst r =? "")%string); [reflexivity | apply IH].
Qed.

(** [expressRuleBuilder] reports the first field of the traversal that
    leaves a message. *)
Lemma expressRuleBuilder_firstFailure rules : forall input prefix,
  expressRuleBuilder run rules input prefix
  = firstFailure run (leaves rules prefix) input.
Proof.
  induction rules as [ | | b | n | | s | xs IH | kv IH] using Value_induction;
    intros input prefix; try reflexivity.
  - cbn [expressRuleBuilder leaves]. apply each_concat.
    apply Forall_forall. intros e _ inp. now apply visit_leaves.
  - cbn [expressRuleBuilder leaves]. apply each_concat_indexed.
    eapply Forall_impl; [|exact IH]. intros rule Hrule i inp.
    apply visit_leaves. intros f inp'. apply Hrule.
  - cbn [expressRuleBuilder leaves]. apply each_concat.
    eapply Forall_impl; [|exact IH]. intros e He inp.
    apply visit_leaves. intros f inp'. apply He.
Qed.

End Reported.

(** The loop of [validateField] from any starting point: the code kept
    bounds the starting code and that of every failure, and the message
    kept is the starting one, no failure having a lower code, or that of
    a failure of lower code than the start and than every failure before
    it. *)
Lemma keepLowest_fold errors : forall acc,
  let r := fold_left keepLowest errors acc in
  snd r <= snd acc
  /\ (forall m, In (Some m) errors -> snd r <= code_value (errorCode m))
  /\ ((r = acc
       /\ forall m, In (Some m) errors -> snd acc <= code_value (errorCode m))
      \/ exists pre m post,
           errors = (pre ++ Some m :: post)%list
           /\ r = (errorMsg m, code_value (errorCode m))
           /\ code_value (errorCode m) < snd acc
           /\ forall m', In (Some m') pre ->
                         code_value (errorCode m) < code_value (errorCode m')).
Proof.
  induction errors as [|e rest IH]; intros acc; cbn zeta.
  - simpl. split; [lia|]. split; [intros m []|]. left. split; [reflexivity | intros m []].
  - simpl fold_left. specialize (IH (keepLowest acc e)). cbn zeta in IH.
    destruct IH as (B & A & C).
    destruct e as [m0|]; simpl keepLowest in *.
    + destruct (code_value (errorCode m0) <? snd acc) eqn:L.
      * apply Z.ltb_lt in L. simpl snd in *.
        split; [lia|]. split.
        { intros m [Hm|Hm]; [injection Hm as <-; lia | now apply A]. }
        right. destruct C as [[Er Hall]|(pre & m & post & Er & Ev & Hlt & Hpre)].
        -- exists [], m0, rest. repeat split; auto. intros m' [].
        -- exists (Some m0 :: pre), m, post. subst rest. repeat split; auto; [lia|].
           intros m' [Hm'|Hm']; [injection Hm' as <-; lia | now apply Hpre].
      * apply Z.ltb_ge in L.
        split; [lia|]. split.
        { intros m [Hm|Hm]; [injection Hm as <-; lia | now apply A]. }
        destruct C as [[Er Hall]|(pre & m & post & Er & Ev & Hlt & Hpre)].
        -- left. split; [exact Er|].
           intros m [Hm|Hm]; [injection Hm as <-; lia | now apply Hall].
        -- right. exists (Some m0 :: pre), m, post. subst rest. repeat split; auto.
           intros m' [Hm'|Hm']; [injection Hm' as <-; lia | now apply Hpre].
    + split; [exact B|]. split.
      { intros m [Hm|Hm]; [discriminate | now apply A]. }
      destruct C as [[Er Hall]|(pre & m & post & Er & Ev & Hlt & Hpre)].
      * left. split; [exact Er|]. intros m [Hm|Hm]; [discriminate | now apply Hall].
      * right. exists (None :: pre), m, post. subst rest. repeat split; auto.
        intros m' [Hm'|Hm']; [discriminate | now apply Hpre].
Qed.

Lemma code_value_small c : code_value c < MAX_SAFE_INTEGER.
Proof. destruct c; reflexivity. Qed.



(** On those rules and that body the reply is the message of [a]. *)
Lemma two_fields_reply ext :
  option_map fst (expressRuleBuilder (Chain.run ext) twoFieldRules twoFieldInput "")
  = Some "a should be int".
Proof. destruct ext. reflexivity. Qed.

(** ** What meta-validation does record *)

Lemma push_if_app cond msg a b :
  push_if cond msg (a ++ b)%list = (a ++ push_if cond msg b)%list.
Proof.
  unfold push_if, push. destruct cond; [now rewrite app_assoc | reflexivity].
Qed.

Lemma unknown_keys_app path ks : forall a b,
  fold_left (fun errs key =>
               push_if (negb (listIncludes key validProperties))
                       (path ++ ": Unknown property '" ++ key ++ "'") errs)
            ks (a ++ b)%list
  = (a ++ fold_left (fun errs key =>
                       push_if (negb (listIncludes key validProperties))
                               (path ++ ": Unknown property '" ++ key ++ "'") errs)
                    ks b)%list.
Proof.
  induction ks as [|k ks IH]; intros a b; simpl; [reflexivity|].
  now rewrite push_if_app, IH.
Qed.

Lemma validateValidationRule_appends rule path :
  appends (validateValidationRule rule path).
Proof.
  intros errors.
  unfold validateValidationRule. destruct (not_an_object rule); [reflexivity|].
  cbv zeta.
  rewrite <- (app_nil_r errors) at 1.
  now rewrite unknown_keys_app, !push_if_app.
Qed.

Lemma forEach_appends steps :
  Forall appends steps ->
  forall errors,
    forEach steps errors = (errors ++ flat_map (fun step => step []) steps)%list.
Proof.
  unfold forEach. induction 1 as [|step steps Hs _ IH]; intros errors; simpl.
  - now rewrite app_nil_r.
  - now rewrite IH, Hs, <- app_assoc.
Qed.

Lemma visitEntry_appends recur path key value :
  (forall p, appends (recur p)) -> appends (visitEntry recur path key value).
Proof.
  intros Hrec errors. unfold visitEntry.
  destruct (isValidationRule value).
  - apply validateValidationRule_appends.
  - destruct (negb (not_an_object value)); [apply Hrec | reflexivity].
Qed.

Lemma validateNestedStructure_appends tree :
  forall path, appends (validateNestedStructure tree path).
Proof.
  induction tree as [ | | b | n | | s | xs IH | kv IH] using Value_induction;
    intros path errors; try reflexivity.
  - cbn [validateNestedStructure].
    assert (S : forall i, Forall appends
                 (mapi (fun i value =>
                          visitEntry (validateNestedStructure value) path
                                     (string_of_nat i) value) i xs)).
    { induction IH as [|x xs Hx _ IHxs]; intros i; simpl; constructor; auto.
      now apply visitEntry_appends. }
    rewrite (forEach_appends _ (S 0%nat) errors), (forEach_appends _ (S 0%nat) []).
    reflexivity.
  - cbn [validateNestedStructure].
    assert (S : Forall appends
                 (map (fun e => visitEntry (validateNestedStructure (snd e)) path
                                           (fst e) (snd e)) kv)).
    { induction IH as [|e kv He _ IHkv]; simpl; constructor; auto.
      now apply visitEntry_appends. }
    rewrite (forEach_appends _ S errors), (forEach_appends _ S []).
    reflexivity.
Qed.

Lemma mapi_index_from {B} (f : string -> Value -> B) xs : forall i,
  mapi (fun i x => f (string_of_nat i) x) i xs
  = map (fun e => f (fst e) (snd e)) (index_from i xs).
Proof.
  induction xs as [|x xs IH]; intros i; simpl; [reflexivity|]. now rewrite IH.
Qed.

(** The errors of a tree are those of its entries, in order: no entry is
    skipped because an earlier one failed. *)
Lemma validateNestedStructure_entries tree path :
  not_an_object tree = false ->
  validateNestedStructure tree path []
  = flat_map (fun e => visitEntry (validateNestedStructure (snd e)) path
                                  (fst e) (snd e) [])
             (own_entries tree).
Proof.
  assert (S : forall l, Forall appends
               (map (fun e => visitEntry (validateNestedStructure (snd e)) path
                                         (fst e) (snd e)) l)).
  { intros l. apply Forall_forall. intros step Hin.
    apply in_map_iff in Hin as (e & <- & _).
    apply visitEntry_appends, validateNestedStructure_appends. }
  destruct tree; try discriminate; intros _.
  - cbn [validateNestedStructure own_entries entries].
    rewrite (mapi_index_from (fun k v => visitEntry (validateNestedStructure v) path k v)).
    rewrite (forEach_appends _ (S _)), flat_map_concat_map, map_map.
    now rewrite <- flat_map_concat_map.
  - cbn [validateNestedStructure own_entries entries].
    rewrite (forEach_appends _ (S _)), flat_map_concat_map, map_map.
    now rewrite <- flat_map_concat_map.
Qed.

(** A rule whose [dataType] is a string outside the enumeration gets the
    error that names it. *)
Lemma invalid_dataType_recorded rule path s :
  not_an_object rule = false ->
  has_prop "dataType" rule = true ->
  get rule "dataType" = VStr s ->
  listIncludes s validDataTypes = false ->
  In (path ++ ": Invalid dataType '" ++ s ++ "'")
     (validateValidationRule rule path []).
Proof.
  intros Hobj Hhas Hget Hbad. unfold validateValidationRule.
  rewrite Hobj, Hhas, Hget. cbn [typeof to_string]. rewrite Hbad. cbv zeta.
  cbn [String.eqb Ascii.eqb Bool.eqb andb negb].
  set (e0 := fold_left _ _ _). set (e1 := push_if _ _ e0).
  assert (H2 : In (path ++ ": Invalid dataType '" ++ s ++ "'")
                  (push_if true (path ++ ": Invalid dataType '" ++ s ++ "'") e1))
    by (unfold push_if, push; apply in_or_app; right; now left).
  revert H2. generalize (push_if true (path ++ ": Invalid dataType '" ++ s ++ "'") e1).
  intros l Hl.
  repeat match goal with
         | |- In _ (push_if ?c ?m ?l') =>
             unfold push_if at 1; destruct c; [unfold push; apply in_or_app; left|]
         end; exact Hl.
Qed.

Lemma reached_rule_error tree path rule found msg :
  Reaches tree path rule found ->
  In msg (validateValidationRule rule found []) ->
  In msg (validateNestedStructure tree path []).
Proof.
  induction 1 as [tree path key rule Hobj Hin Hrule
                 |tree path key sub rule found Hobj Hin Hsub Hsobj _ IH];
    intros Hmsg; rewrite (validateNestedStructure_entries _ _ Hobj);
    apply in_flat_map.
  - exists (key, rule). split; [exact Hin|].
    unfold visitEntry; cbn [fst snd]. now rewrite Hrule.
  - exists (key, sub). split; [exact Hin|].
    unfold visitEntry; cbn [fst snd]. rewrite Hsub, Hsobj. cbn [negb]. now apply IH.
Qed.

(** The errors of a schema are those of its routes, one route after the
    other. *)
Lemma schemaValidator_routes schema :
  not_an_object schema = false ->
  error (schemaValidator schema [])
  = flat_map (fun entry =>
                if not_an_object (snd entry)
                then ["Route '" ++ fst entry
                      ++ "': Must contain an object of validation rules"]
                else validateNestedStructure (snd entry) (fst entry) [])
             (own_entries schema).
Proof.
  intros Hobj. unfold schemaValidator. rewrite Hobj. cbn [error].
  rewrite forEach_appends.
  - rewrite flat_map_concat_map, map_map, <- flat_map_concat_map. reflexivity.
  - apply Forall_forall. intros step Hin.
    apply in_map_iff in Hin as (e & <- & _). intros errs. cbv zeta.
    destruct (not_an_object (snd e)); [reflexivity|].
    apply validateNestedStructure_appends.
Qed.

(** X14: the half of C5 that holds.  A schema in which a route's tree holds a
    rule whose [dataType] is a string outside the enumeration is answered
    invalid, with the error that names the rule; and the errors of a
    schema are the errors of its routes one after the other, those of a
    later route recorded whatever an earlier route gave. *)
Theorem invalid_string_dataType_rejected :
  (forall schema route tree rule found s,
      not_an_object schema = false ->
      In (route, tree) (own_entries schema) ->
      not_an_object tree = false ->
      Reaches tree route rule found ->
      has_prop "dataType" rule = true ->
      get rule "dataType" = VStr s ->
      listIncludes s validDataTypes = false ->
      In (found ++ ": Invalid dataType '" ++ s ++ "'")
         (error (schemaValidator schema []))
      /\ isValid (schemaValidator schema []) = false)
  /\ forall routes1 routes2,
       error (schemaValidator (VObj (routes1 ++ routes2)) [])
       = (error (schemaValidator (VObj routes1) [])
          ++ error (schemaValidator (VObj routes2) []))%list.
Proof.
  split.
  - intros schema route tree rule found s Hobj Hroute Htree Hreach Hhas Hget Hbad.
    assert (Hrule : not_an_object rule = false).
    { unfold not_an_object. destruct rule; try discriminate Hhas; reflexivity. }
    assert (Hin : In (found ++ ": Invalid dataType '" ++ s ++ "'")
                     (error (schemaValidator schema []))).
    { rewrite (schemaValidator_routes _ Hobj). apply in_flat_map.
      exists (route, tree). split; [exact Hroute|]. cbn [fst snd]. rewrite Htree.
      eapply reached_rule_error; [exact Hreach|].
      now apply invalid_dataType_recorded. }
    split; [exact Hin|].
    unfold schemaValidator in *. rewrite Hobj in *. cbn [error isValid] in *.
    destruct (forEach _ _); [destruct Hin | reflexivity].
  - intros routes1 routes2.
    rewrite !schemaValidator_routes by reflexivity.
    cbn [own_entries entries]. apply flat_map_app.
Qed.

(** ** The examples of section 8 of the specification *)

(** An empty [tags] array is answered with the empty-array message. *)
Example tags_empty_array ext :
  validateRequestHandler (Chain.run ext) tagsRoutes
    (post "/api/tags" [("tags", VArr [])])
  = Status400 "tags : should not be an empty array".
Proof. destruct ext. reflexivity. Qed.

(** With [username] "a" and an empty [password] the failure reported is
    that of [password]. *)
Example password_empty ext :
  validateRequestHandler (Chain.run ext) loginRoutes
    (post "/api/login" [("username", VStr "a"); ("password", VStr "")])
  = Status400 "password : should not be empty".
Proof. destruct ext. reflexivity. Qed.

(** A request that meets the rules goes on to the next handler, and an
    unknown path is answered with status 400. *)
Example login_passes ext :
  validateRequestHandler (Chain.run ext) loginRoutes
    (post "/api/login" [("username", VStr "a"); ("password", VStr "b")])
  = Next
  /\ validateRequestHandler (Chain.run ext) loginRoutes (post "/api/unknown" [])
     = Status400 "Invalid request.Conuld not find /api/unknown".
Proof. destruct ext. split; reflexivity. Qed.

(* ================================================================== *)
(** * Further properties of the code *)
(* ================================================================== *)

(** ** The builder calls of a rule, as items *)

Lemma set_last_message_standard m v n o tail : forall pre,
  set_last_message m tail = None ->
  set_last_message m (pre ++ StandardValidation v n o :: tail)
  = Some (pre ++ StandardValidation v n (Some m) :: tail)%list.
Proof.
  intros pre Htail. induction pre as [|it pre IH]; simpl.
  - now rewrite Htail.
  - now rewrite IH.
Qed.

Lemma set_last_message_custom m v n o tail : forall pre,
  set_last_message m tail = None ->
  set_last_message m (pre ++ CustomValidation v n o :: tail)
  = Some (pre ++ CustomValidation v n (Some m) :: tail)%list.
Proof.
  intros pre Htail. induction pre as [|it pre IH]; simpl.
  - now rewrite Htail.
  - now rewrite IH.
Qed.

Lemma withMessage_standard v m c :
  negateNext c = false ->
  withMessage m (standard v c) = Some (addItem (checked v m) c).
Proof.
  intros Hn. unfold withMessage, standard, addItem, checked. simpl.
  rewrite Hn, set_last_message_standard by reflexivity. reflexivity.
Qed.

Lemma laterItems_exact f rule fl op st :
  (myBody <- (if truthy (get rule "regex")
              then applyRegexValidation (mkChain fl op false st) (get rule "regex") f
              else Some (mkChain fl op false st)) ;;
   myBody <- (if minMaxApplies rule
              then applyMinMaxValidation myBody f (get rule "dataType")
                     (get rule "min") (get rule "max")
              else Some myBody) ;;
   myBody <- (if truthy (get_length rule) && strict_eq_str (get rule "dataType") "string"
              then applyLengthValidation myBody f (get_length rule)
              else Some myBody) ;;
   if truthy (get rule "allowedAvalues")
   then applyAllowedValueValidation myBody f (get rule "allowedAvalues")
   else Some myBody)
  = Some (mkChain fl op false (st ++ laterItems f rule)).
Proof.
  unfold laterItems, applyRegexValidation, applyMinMaxValidation,
    applyLengthValidation, applyAllowedValueValidation.
  destruct (truthy (get rule "regex"));
  destruct (minMaxApplies rule);
  destruct (truthy (get_length rule) && strict_eq_str (get rule "dataType") "string");
  destruct (truthy (get rule "allowedAvalues"));
  destruct (loose_eq_str (get rule "dataType") "int");
  repeat (rewrite withMessage_standard by reflexivity);
  unfold addItem; simpl; rewrite <- ?app_assoc; simpl; rewrite ?app_nil_r;
  reflexivity.
Qed.

Lemma applyMandatoryFieldValidation_exact f required :
  applyMandatoryFieldValidation (body f) required f
  = Some (mkChain f (negb (truthy required)) false
            (if truthy required
             then presenceItems f
                    (errorMessageConstructor f EMPTY_FIELD_ERROR (VStr "array"))
             else [])).
Proof.
  unfold applyMandatoryFieldValidation. destruct (truthy required); reflexivity.
Qed.

Lemma eqb_name (name s : string) :
  (name =? s)%string = true -> name = s.
Proof. apply String.eqb_eq. Qed.

Lemma typeStage_exact f (required : bool) name adt :
  (myBody <- dataTypeHandler
               (sanitizer TrimString
                  (mkChain f (negb required) false
                     (if required
                      then presenceItems f
                             (errorMessageConstructor f EMPTY_FIELD_ERROR (VStr "array"))
                      else [])))
               name adt f ;;
   if negb (name =? "array")%string
   then withMessage (errorMessageConstructor f DATATYPE_ERROR (VStr name)) myBody
   else Some myBody)
  = option_map (mkChain f (negb required) false)
      (if knownType name then
         Some ((if required
                then presenceItems f
                       (errorMessageConstructor f EMPTY_FIELD_ERROR (VStr "array"))
                else [])
               ++ Sanitization TrimString :: typeItems f name adt)%list
       else if listIncludes name raising_inherited then None
       else if required then
         Some (presenceItems f (errorMessageConstructor f DATATYPE_ERROR (VStr name))
               ++ [Sanitization TrimString])%list
       else None).
Proof.
  unfold dataTypeHandler, applyArrayValidation, knownType, typeItems, listIncludes.
  cbn [existsb].
  repeat match goal with
  | |- context [(name =? ?s)%string] =>
      let E := fresh "E" in
      destruct (name =? s)%string eqn:E;
      [apply eqb_name in E; subst name; destruct required;
       try (destruct (adt =? "")%string); reflexivity|]
  end.
  destruct (existsb (String.eqb name) raising_inherited);
    destruct required; reflexivity.
Qed.

Lemma typedItems_exact f rule :
  stringTyped rule = true ->
  (c1 <- applyMandatoryFieldValidation (body f) (get rule "required") f ;;
   if truthy (get rule "dataType")
   then applyDataTypeValidation c1 (get rule "dataType") f else Some c1)
  = option_map (mkChain f (negb (truthy (get rule "required"))) false)
      (typedItems f (truthy (get rule "required")) (typeText rule)).
Proof.
  unfold stringTyped, typeText. intros Hdt.
  rewrite applyMandatoryFieldValidation_exact.
  destruct (get rule "dataType") as [| |b|n| |dt|xs|kv];
    try (apply negb_true_iff in Hdt; rewrite Hdt; reflexivity).
  unfold typedItems. cbn [truthy].
  destruct (dt =? "")%string eqn:Edt; [reflexivity|].
  cbn [negb]. unfold applyDataTypeValidation, splitType, baseType, elementType.
  destruct (includes "+" dt); cbn [to_string strict_eq_str];
    apply typeStage_exact.
Qed.

Theorem buildChain_exact f rule :
  stringTyped rule = true -> buildChain f rule = expectedChain f rule.
Proof.
  intros Hs. unfold buildChain, expectedChain.
  pose proof (typedItems_exact f rule Hs) as H.
  destruct (applyMandatoryFieldValidation (body f) (get rule "required") f)
    as [c1|] eqn:E1.
  - cbn beta iota in H. rewrite H.
    destruct (typedItems f _ _) as [items|]; [|reflexivity].
    cbn [option_map]. apply laterItems_exact.
  - rewrite applyMandatoryFieldValidation_exact in E1. discriminate E1.
Qed.

(** ** What every chain holds *)

Lemma labelled_presence f code extra :
  Forall (labelled f) (presenceItems f (errorMessageConstructor f code extra)).
Proof. repeat constructor; simpl; eauto. Qed.

Lemma labelled_later f rule : Forall (labelled f) (laterItems f rule).
Proof.
  unfold laterItems.
  repeat (apply Forall_app; split);
    match goal with |- Forall _ (if ?b then _ else _) => destruct b end;
    repeat constructor; simpl; eauto.
Qed.

Lemma labelled_type f name adt : Forall (labelled f) (typeItems f name adt).
Proof.
  unfold typeItems.
  repeat match goal with
         | |- Forall _ (if ?b then _ else _) => destruct b
         | |- Forall _ (_ :: if ?b then _ else _) => destruct b
         end;
    repeat constructor; simpl; eauto.
Qed.

(** The data-type step when the last message is set whatever the name. *)
Lemma relabelled_stage f (required : bool) name adt code extra c2 :
  (myBody <- dataTypeHandler
               (sanitizer TrimString
                  (mkChain f (negb required) false
                     (if required
                      then presenceItems f
                             (errorMessageConstructor f EMPTY_FIELD_ERROR (VStr "array"))
                      else [])))
               name adt f ;;
   withMessage (errorMessageConstructor f code extra) myBody) = Some c2 ->
  negateNext c2 = false
  /\ Forall (labelled f) (stack c2)
  /\ (required = true ->
      exists rest,
        stack c2
        = customChecked Exists
            (errorMessageConstructor f MANDATORY_FIELD_ERROR VNull) :: rest).
Proof.
  unfold dataTypeHandler, applyArrayValidation.
  repeat match goal with
  | |- context [(name =? ?s)%string] => destruct (name =? s)%string
  end;
  try destruct (listIncludes name raising_inherited);
  destruct required; try destruct (adt =? "")%string;
  cbv -[errorMessageConstructor]; intros H; try discriminate H;
  injection H as <-;
  (split; [reflexivity|]);
  (split; [|intros Hr; first [discriminate Hr | eexists; reflexivity]]);
  repeat constructor; simpl; eauto.
Qed.

Lemma typedItems_facts f (required : bool) dt items :
  typedItems f required dt = Some items ->
  Forall (labelled f) items
  /\ (required = true ->
      exists rest,
        items = customChecked Exists
                  (errorMessageConstructor f MANDATORY_FIELD_ERROR VNull) :: rest).
Proof.
  unfold typedItems. intros Hi.
  destruct required;
    repeat match type of Hi with
           | (if ?b then _ else _) = _ => destruct b
           end; try discriminate Hi; injection Hi as <-;
    (split; [|first [discriminate | intros _; eexists; reflexivity]]);
    repeat first [apply labelled_presence | apply labelled_type
                 | apply Forall_app; split | apply Forall_cons | exact I
                 | apply Forall_nil | solve [simpl; eauto]].
Qed.

(** What the chain of any rule holds: every check carries a message made
    for the field, and the chain of a required field starts with the
    presence check. *)
Lemma buildChain_items f rule c :
  buildChain f rule = Some c ->
  field c = f
  /\ isOptional c = negb (truthy (get rule "required"))
  /\ Forall (labelled f) (stack c)
  /\ (truthy (get rule "required") = true ->
      exists rest,
        stack c
        = customChecked Exists
            (errorMessageConstructor f MANDATORY_FIELD_ERROR VNull) :: rest).
Proof.
  intros H.
  destruct (buildChain_shape _ _ _ H) as (Hf & Ho & _).
  split; [exact Hf|]. split; [exact Ho|]. clear Hf Ho.
  unfold buildChain in H.
  rewrite applyMandatoryFieldValidation_exact in H.
  match type of H with
  | (myBody <- ?stage ;; _) = _ => destruct stage as [c2|] eqn:E2
  end; [|discriminate H].
  assert (F : negateNext c2 = false
              /\ Forall (labelled f) (stack c2)
              /\ (truthy (get rule "required") = true ->
                  exists rest,
                    stack c2 = customChecked Exists
                      (errorMessageConstructor f MANDATORY_FIELD_ERROR VNull)
                      :: rest)).
  { destruct (stringTyped rule) eqn:Hs.
    - pose proof (typedItems_exact f rule Hs) as T.
      rewrite applyMandatoryFieldValidation_exact in T. cbn beta iota in T.
      rewrite E2 in T.
      destruct (typedItems f _ _) as [items|] eqn:Hi; [|discriminate T].
      injection T as ->. cbn [negateNext stack].
      destruct (typedItems_facts _ _ _ _ Hi) as [Hl Hh]. auto.
    - unfold stringTyped in Hs.
      destruct (get rule "dataType") as [| |b|n| |dt|xs|kv];
        try discriminate Hs;
        try (apply negb_false_iff in Hs; rewrite Hs in E2; discriminate E2).
      cbn [truthy] in E2. unfold applyDataTypeValidation, splitType in E2.
      destruct (existsb _ xs); [discriminate E2|].
      cbn [strict_eq_str negb] in E2.
      now apply relabelled_stage in E2. }
  destruct F as (Hn & Hl & Hh).
  destruct c2 as [fl op nn st]. cbn [negateNext stack] in *. subst nn.
  rewrite laterItems_exact in H. injection H as <-.
  cbn [stack]. split.
  + apply Forall_app. split; [exact Hl | apply labelled_later].
  + intros Hr. destruct (Hh Hr) as [rest ->]. eexists. reflexivity.
Qed.

(** ** The chain of a rule *)

(** X1: the chain [expressRuleBuilder] builds for a rule whose [dataType] is
    a string or is falsy, item by item and message by message: the three
    presence checks when [required] is truthy and the mark of an optional
    field otherwise; the trim and the items of the type's handler, each
    check with the data-type message; then the pattern, range, length and
    membership checks, in this order.  A type that names no handler moves
    the data-type message onto the empty-array check of a required field
    and raises a TypeError for an optional one. *)
Theorem chain_of_rule f rule :
  stringTyped rule = true -> buildChain f rule = expectedChain f rule.
Proof.
  intros Hs. unfold buildChain, expectedChain.
  pose proof (typedItems_exact f rule Hs) as H.
  rewrite applyMandatoryFieldValidation_exact in *. cbn beta iota in H.
  rewrite H. destruct (typedItems f _ _) as [items|]; [|reflexivity].
  cbn [option_map]. apply laterItems_exact.
Qed.

Lemma chain_of_rule_witness :
  stringTyped ageRule = true
  /\ buildChain "age" ageRule = expectedChain "age" ageRule.
Proof.
  split; [reflexivity|]. exact (chain_of_rule "age" ageRule eq_refl).
Defined.

Lemma isLengthCheck_erase it : isLengthCheck (erase it) = isLengthCheck it.
Proof. now destruct it. Qed.

Lemma handlerKinds_no_length name adt :
  existsb isLengthCheck (handlerKinds name adt) = false.
Proof.
  unfold handlerKinds.
  repeat match goal with |- context [if ?b then _ else _] => destruct b end;
    reflexivity.
Qed.

Lemma handlerKinds_pattern_free name adt :
  existsb isPatternCheck (handlerKinds name adt) = false.
Proof.
  unfold handlerKinds.
  repeat match goal with |- context [if ?b then _ else _] => destruct b end;
    reflexivity.
Qed.

Lemma pattern_check_iff_regex f rule c :
  buildChain f rule = Some c ->
  existsb isPatternCheck (stack c) = truthy (get rule "regex").
Proof.
  intros H. destruct (buildChain_shape _ _ _ H) as (_ & _ & K & _).
  rewrite <- (existsb_erase isPatternCheck (stack c) isPatternCheck_erase), K.
  unfold ruleKinds. rewrite !existsb_app.
  assert (E1 : existsb isPatternCheck (mandatoryKinds rule) = false)
    by (unfold mandatoryKinds; now destruct (truthy (get rule "required"))).
  assert (E2 : existsb isPatternCheck (dataTypeKinds rule) = false).
  { unfold dataTypeKinds. destruct (truthy (get rule "dataType")); [|reflexivity].
    destruct (splitType (get rule "dataType")) as [[dt adt]|]; [|reflexivity].
    simpl. apply handlerKinds_pattern_free. }
  assert (E4 : existsb isPatternCheck (minMaxKinds rule) = false).
  { unfold minMaxKinds. destruct (minMaxApplies rule); [|reflexivity].
    cbv zeta. now destruct (loose_eq_str (get rule "dataType") "int"). }
  assert (E5 : existsb isPatternCheck (lengthKinds rule) = false)
    by (unfold lengthKinds; now destruct (_ && _)).
  assert (E6 : existsb isPatternCheck (allowedKinds rule) = false)
    by (unfold allowedKinds; now destruct (truthy (get rule "allowedAvalues"))).
  rewrite E1, E2, E4, E5, E6. simpl. rewrite !orb_false_r.
  unfold regexKinds. now destruct (truthy (get rule "regex")).
Qed.

Lemma length_check_iff_string f rule c :
  buildChain f rule = Some c ->
  existsb isLengthCheck (stack c)
  = truthy (get_length rule) && strict_eq_str (get rule "dataType") "string".
Proof.
  intros H. destruct (buildChain_shape _ _ _ H) as (_ & _ & K & _).
  rewrite <- (existsb_erase isLengthCheck (stack c) isLengthCheck_erase), K.
  unfold ruleKinds. rewrite !existsb_app.
  assert (E1 : existsb isLengthCheck (mandatoryKinds rule) = false)
    by (unfold mandatoryKinds; now destruct (truthy (get rule "required"))).
  assert (E2 : existsb isLengthCheck (dataTypeKinds rule) = false).
  { unfold dataTypeKinds. destruct (truthy (get rule "dataType")); [|reflexivity].
    destruct (splitType (get rule "dataType")) as [[dt adt]|]; [|reflexivity].
    simpl. apply handlerKinds_no_length. }
  assert (E3 : existsb isLengthCheck (regexKinds rule) = false)
    by (unfold regexKinds; now destruct (truthy (get rule "regex"))).
  assert (E4 : existsb isLengthCheck (minMaxKinds rule) = false).
  { unfold minMaxKinds. destruct (minMaxApplies rule); [|reflexivity].
    cbv zeta. now destruct (loose_eq_str (get rule "dataType") "int"). }
  assert (E6 : existsb isLengthCheck (allowedKinds rule) = false)
    by (unfold allowedKinds; now destruct (truthy (get rule "allowedAvalues"))).
  rewrite E1, E2, E3, E4, E6. simpl. rewrite !orb_false_r.
  unfold lengthKinds. now destruct (_ && _).
Qed.

(** X2: which checks a rule gets, by its keys, whatever the rest of the rule:
    a pattern check exactly when [regex] is truthy; a range check exactly
    when [min] is truthy, or [max] is truthy and [dataType] is [int] or
    [float]; a length check exactly when [length] is truthy and
    [dataType] is [string]; a membership check exactly when the property
    [allowedAvalues] is truthy. *)
Theorem checks_by_keys f rule c :
  buildChain f rule = Some c ->
  existsb isPatternCheck (stack c) = truthy (get rule "regex")
  /\ existsb isRangeCheck (stack c)
     = (truthy (get rule "min")
        || truthy (get rule "max") && is_numeric_type (get rule "dataType"))
  /\ existsb isLengthCheck (stack c)
     = truthy (get_length rule) && strict_eq_str (get rule "dataType") "string"
  /\ existsb isMembershipCheck (stack c) = truthy (get rule "allowedAvalues").
Proof.
  intros H. split; [now apply (pattern_check_iff_regex f)|].
  split; [now apply (range_check_iff_guard f)|].
  split; [now apply (length_check_iff_string f)|].
  now apply (membership_check_iff_misspelt_key f).
Qed.

Lemma checks_by_keys_witness :
  buildChain "age" ageRule = Some ageChain
  /\ existsb isPatternCheck (stack ageChain) = false
  /\ existsb isRangeCheck (stack ageChain) = true
  /\ existsb isLengthCheck (stack ageChain) = false
  /\ existsb isMembershipCheck (stack ageChain) = false.
Proof.
  split; [reflexivity|].
  exact (checks_by_keys "age" ageRule ageChain eq_refl).
Defined.

(** ** A data type that is no string *)

(** X3: a rule whose [dataType] is truthy and is neither a string nor an
    array builds no chain: the data-type step raises a TypeError, so the
    traversal of a tree whose first entry is such a rule raises on every
    request. *)
Theorem untyped_dataType_raises f rule :
  truthy (get rule "dataType") = true ->
  typeof (get rule "dataType") <> "string" ->
  isArray (get rule "dataType") = false ->
  buildChain f rule = None
  /\ forall run key rest input prefix,
       isNested rule = Some false ->
       expressRuleBuilder run (VObj ((key, rule) :: rest)) input prefix = None.
Proof.
  intros Ht Hs Ha.
  assert (Hb : forall f, buildChain f rule = None).
  { intros g. unfold buildChain. rewrite applyMandatoryFieldValidation_exact, Ht.
    unfold applyDataTypeValidation, splitType.
    destruct (get rule "dataType"); try reflexivity;
      [now destruct Hs | discriminate Ha]. }
  split; [apply Hb|].
  intros run key rest input prefix Hn.
  cbn [expressRuleBuilder map each fst snd]. unfold visit.
  now rewrite Hn, Hb.
Qed.

Lemma untyped_dataType_raises_witness :
  (truthy (get objectTypeRule "dataType") = true
   /\ typeof (get objectTypeRule "dataType") <> "string"
   /\ isArray (get objectTypeRule "dataType") = false
   /\ isNested objectTypeRule = Some false)
  /\ buildChain "age" objectTypeRule = None
  /\ forall run input,
       expressRuleBuilder run (VObj [("age", objectTypeRule)]) input "" = None.
Proof.
  assert (N : typeof (get objectTypeRule "dataType") <> "string")
    by (intros Q; discriminate Q).
  split; [repeat split; try reflexivity; exact N|].
  split.
  - exact (proj1 (untyped_dataType_raises "age" objectTypeRule eq_refl N eq_refl)).
  - intros run input.
    exact (proj2 (untyped_dataType_raises "age" objectTypeRule eq_refl N eq_refl)
                 run "age" [] input "" eq_refl).
Defined.

(** ** What a field is answered *)

Lemma validateField_message ext c input :
  fst (validateField (Chain.run ext) c input)
  = fst (lowest (snd (run_stack ext (isOptional c) (stack c)
                        (get_path (field c) (get input "body"))))).
Proof.
  unfold validateField, Chain.run. now destruct (run_stack _ _ _ _).
Qed.

Lemma run_failures ext c input :
  fst (Chain.run ext c input)
  = snd (run_stack ext (isOptional c) (stack c)
           (get_path (field c) (get input "body"))).
Proof. unfold Chain.run. now destruct (run_stack _ _ _ _). Qed.

Lemma run_stack_failures ext opt it rest x :
  snd (run_stack ext opt (it :: rest) x)
  = ((if opt && match x with VUndefined => true | _ => false end
      then [] else snd (run_item ext it x))
     ++ snd (run_stack ext opt rest
               (if opt && match x with VUndefined => true | _ => false end
                then x else fst (run_item ext it x))))%list.
Proof.
  simpl. destruct (opt && _).
  - now destruct (run_stack ext opt rest x).
  - destruct (run_item ext it x) as [x1 e1]. simpl.
    now destruct (run_stack ext opt rest x1).
Qed.

Lemma run_stack_failures_app ext opt l1 l2 : forall x,
  snd (run_stack ext opt (l1 ++ l2)%list x)
  = (snd (run_stack ext opt l1 x)
     ++ snd (run_stack ext opt l2 (fst (run_stack ext opt l1 x))))%list.
Proof.
  induction l1 as [|it rest IH]; intros x.
  - reflexivity.
  - change ((it :: rest) ++ l2)%list with (it :: (rest ++ l2))%list.
    rewrite !run_stack_failures, run_stack_value, IH.
    now rewrite app_assoc.
Qed.

(** An optional field that is absent is passed over by every item. *)
Lemma run_stack_absent ext items :
  run_stack ext true items VUndefined = (VUndefined, []).
Proof.
  induction items as [|it rest IH]; simpl; [reflexivity|]. now rewrite IH.
Qed.

(** A failure carries the message of the check that raised it. *)
Lemma run_item_failure ext it x e :
  In e (snd (run_item ext it x)) -> e = message it.
Proof.
  destruct it as [v n o|v n o|s]; simpl.
  - intros H. now apply in_map_iff in H as (_ & <- & _).
  - destruct (failed n _); simpl; [intros [<-|[]]; reflexivity | intros []].
  - intros [].
Qed.

Lemma run_stack_failure_message ext opt items : forall x e,
  In e (snd (run_stack ext opt items x)) ->
  exists it, In it items /\ e = message it
             /\ match it with Sanitization _ => False | _ => True end.
Proof.
  induction items as [|it rest IH]; intros x e; [intros []|].
  rewrite run_stack_failures. intros H. apply in_app_or in H as [H|H].
  - destruct (opt && _); [destruct H|].
    exists it. split; [now left|]. split; [now apply run_item_failure in H|].
    destruct it; [exact I | exact I | destruct H].
  - apply IH in H as (it' & Hin & He & Hv). exists it'. split; [now right | auto].
Qed.

Lemma run_stack_labelled ext opt f items x e :
  Forall (labelled f) items ->
  In e (snd (run_stack ext opt items x)) ->
  exists code extra, e = Some (errorMessageConstructor f code extra).
Proof.
  intros Hl H. apply run_stack_failure_message in H as (it & Hin & -> & Hv).
  rewrite Forall_forall in Hl. specialize (Hl _ Hin).
  destruct it; simpl in *; [exact Hl | exact Hl | destruct Hv].
Qed.

Lemma code_value_nonneg c : 0 <= code_value c.
Proof. destruct c; simpl; lia. Qed.

(** The text of a message is never empty. *)
Lemma errorMessageConstructor_text f code extra :
  errorMsg (errorMessageConstructor f code extra) <> "".
Proof.
  destruct code; simpl;
    repeat match goal with |- context [if ?b then _ else _] => destruct b end;
    destruct f; discriminate.
Qed.

Lemma keepLowest_stays rest : forall acc,
  (forall m, In (Some m) rest -> snd acc <= code_value (errorCode m)) ->
  fold_left keepLowest rest acc = acc.
Proof.
  induction rest as [|e rest IH]; intros acc Hall; simpl; [reflexivity|].
  assert (E : keepLowest acc e = acc).
  { destruct e as [m|]; simpl; [|reflexivity].
    specialize (Hall m (or_introl eq_refl)).
    destruct (code_value (errorCode m) <? snd acc) eqn:L; [|reflexivity].
    apply Z.ltb_lt in L. lia. }
  rewrite E. apply IH. intros m Hm. apply Hall. now right.
Qed.

(** The first failure is the one kept when no later one has a lower code. *)
Lemma lowest_first m rest :
  (forall m', In (Some m') rest ->
              code_value (errorCode m) <= code_value (errorCode m')) ->
  fst (lowest (Some m :: rest)) = errorMsg m.
Proof.
  intros Hall. unfold lowest. cbn [fold_left].
  assert (E : keepLowest ("", MAX_SAFE_INTEGER) (Some m)
              = (errorMsg m, code_value (errorCode m))).
  { unfold keepLowest. cbn [snd].
    pose proof (code_value_small (errorCode m)) as S.
    apply Z.ltb_lt in S. now rewrite S. }
  rewrite E. now rewrite keepLowest_stays.
Qed.

(** A failure of a chain leaves a message. *)
Lemma failure_leaves_message ext f rule c input :
  buildChain f rule = Some c ->
  fst (Chain.run ext c input) <> [] ->
  fst (validateField (Chain.run ext) c input) <> "".
Proof.
  intros Hc Hne. rewrite validateField_message. rewrite run_failures in Hne.
  destruct (buildChain_items _ _ _ Hc) as (_ & _ & Hl & _).
  set (errs := snd (run_stack _ _ _ _)) in *.
  assert (Hall : forall e, In e errs ->
            exists code extra, e = Some (errorMessageConstructor f code extra))
    by (intros e He; eapply run_stack_labelled; eauto).
  unfold lowest.
  destruct (keepLowest_fold errs ("", MAX_SAFE_INTEGER)) as (_ & _ & C).
  cbv zeta in C.
  destruct C as [[_ Hge]|(pre & m & post & Er & Ev & _)].
  - destruct errs as [|e rest]; [now destruct Hne|].
    destruct (Hall e (or_introl eq_refl)) as (code & extra & ->).
    specialize (Hge _ (or_introl eq_refl)).
    pose proof (code_value_small
                  (errorCode (errorMessageConstructor f code extra))).
    simpl snd in Hge. lia.
  - rewrite Ev. cbn [fst].
    destruct (Hall (Some m)) as (code & extra & E).
    { rewrite Er. apply in_or_app. right. now left. }
    injection E as ->. apply errorMessageConstructor_text.
Qed.

Lemma validateField_run
  (run : ValidationChain -> Value -> list (option Msg) * Value) c input :
  fst (validateField run c input) = fst (lowest (fst (run c input))).
Proof. unfold validateField. now destruct (run c input). Qed.

(** [Chain.run] runs the items on the value at the path of the field. *)
Lemma run_runsOn ext c input :
  runsOn ext (Chain.run ext) c input (get_path (field c) (get input "body")).
Proof. unfold runsOn. apply run_failures. Qed.

(** A failure of the items of a chain leaves a message. *)
Lemma stack_failure_leaves_message ext f rule c x :
  buildChain f rule = Some c ->
  snd (run_stack ext (isOptional c) (stack c) x) <> [] ->
  fst (lowest (snd (run_stack ext (isOptional c) (stack c) x))) <> "".
Proof.
  intros Hc Hne.
  destruct (buildChain_items _ _ _ Hc) as (_ & _ & Hl & _).
  set (errs := snd (run_stack _ _ _ _)) in *.
  assert (Hall : forall e, In e errs ->
            exists code extra, e = Some (errorMessageConstructor f code extra))
    by (intros e He; eapply run_stack_labelled; eauto).
  unfold lowest.
  destruct (keepLowest_fold errs ("", MAX_SAFE_INTEGER)) as (_ & _ & C).
  cbv zeta in C.
  destruct C as [[_ Hge]|(pre & m & post & Er & Ev & _)].
  - destruct errs as [|e rest]; [now destruct Hne|].
    destruct (Hall e (or_introl eq_refl)) as (code & extra & ->).
    specialize (Hge _ (or_introl eq_refl)).
    pose proof (code_value_small
                  (errorCode (errorMessageConstructor f code extra))).
    simpl snd in Hge. lia.
  - rewrite Ev. cbn [fst].
    destruct (Hall (Some m)) as (code & extra & E).
    { rewrite Er. apply in_or_app. right. now left. }
    injection E as ->. apply errorMessageConstructor_text.
Qed.

(** X4: an optional field that the request lacks passes, whatever else its
    rule holds: when [required] is falsy and the value the field selects
    in the request is [undefined], no check of the chain runs and
    [validateField] returns the empty message. *)
Theorem optional_absent_passes ext
  (run : ValidationChain -> Value -> list (option Msg) * Value)
  f rule c input :
  buildChain f rule = Some c ->
  truthy (get rule "required") = false ->
  runsOn ext run c input VUndefined ->
  fst (validateField run c input) = "".
Proof.
  intros Hc Hr Hx. destruct (buildChain_shape _ _ _ Hc) as (_ & Ho & _).
  rewrite validateField_run, Hx, Ho, Hr. cbn [negb].
  now rewrite run_stack_absent.
Qed.

Lemma optional_absent_passes_witness :
  (buildChain "code" codeRule = Some codeChain
   /\ truthy (get codeRule "required") = false
   /\ forall ext, runsOn ext (Chain.run ext) codeChain emptyInput VUndefined)
  /\ forall ext,
       fst (validateField (Chain.run ext) codeChain emptyInput) = "".
Proof.
  assert (R : forall ext, runsOn ext (Chain.run ext) codeChain emptyInput VUndefined)
    by (intros ext; exact (run_runsOn ext codeChain emptyInput)).
  split; [repeat split; try reflexivity; exact R|].
  intros ext.
  exact (optional_absent_passes ext (Chain.run ext) "code" codeRule codeChain
           emptyInput eq_refl eq_refl (R ext)).
Defined.

(** X5: a required field that the request lacks is answered with the
    message of a mandatory field, whatever else its rule holds: when
    [required] is truthy and the value the field selects in the request
    is [undefined], [validateField] returns "<field> : is mandatory". *)
Theorem required_absent_is_mandatory ext
  (run : ValidationChain -> Value -> list (option Msg) * Value)
  f rule c input :
  buildChain f rule = Some c ->
  truthy (get rule "required") = true ->
  runsOn ext run c input VUndefined ->
  fst (validateField run c input) = f ++ " : is mandatory".
Proof.
  intros Hc Hr Hx.
  destruct (buildChain_items _ _ _ Hc) as (_ & Ho & _ & Hh).
  destruct (Hh Hr) as [rest Hs].
  rewrite validateField_run, Hx, Ho, Hr, Hs, run_stack_failures.
  cbn [negb andb run_item customChecked custom_valid failed snd fst app].
  rewrite lowest_first; [reflexivity|].
  intros m' _. apply code_value_nonneg.
Qed.

Lemma required_absent_is_mandatory_witness :
  (buildChain "age" ageRule = Some ageChain
   /\ truthy (get ageRule "required") = true
   /\ forall ext, runsOn ext (Chain.run ext) ageChain emptyInput VUndefined)
  /\ forall ext,
       fst (validateField (Chain.run ext) ageChain emptyInput)
       = "age : is mandatory".
Proof.
  assert (R : forall ext, runsOn ext (Chain.run ext) ageChain emptyInput VUndefined)
    by (intros ext; exact (run_runsOn ext ageChain emptyInput)).
  split; [repeat split; try reflexivity; exact R|].
  intros ext.
  exact (required_absent_is_mandatory ext (Chain.run ext) "age" ageRule ageChain
           emptyInput eq_refl eq_refl (R ext)).
Defined.

(** X6: a field passes exactly when none of its checks fails: the message
    [validateField] returns is empty if and only if the run of the chain
    raised no failure. *)
Theorem field_passes_iff_no_failure ext f rule c input :
  buildChain f rule = Some c ->
  fst (validateField (Chain.run ext) c input) = ""
  <-> fst (Chain.run ext c input) = [].
Proof.
  intros Hc. split.
  - intros Hm. destruct (fst (Chain.run ext c input)) eqn:E; [reflexivity|].
    exfalso. eapply failure_leaves_message; [exact Hc | | exact Hm].
    rewrite E. discriminate.
  - intros He. rewrite validateField_message. rewrite run_failures in He.
    now rewrite He.
Qed.

Lemma field_passes_iff_no_failure_witness :
  buildChain "age" ageRule = Some ageChain
  /\ forall ext,
       fst (validateField (Chain.run ext) ageChain (inputOf "age" (VStr "abc"))) = ""
       <-> fst (Chain.run ext ageChain (inputOf "age" (VStr "abc"))) = [].
Proof.
  split; [reflexivity|].
  intros ext.
  exact (field_passes_iff_no_failure ext "age" ageRule ageChain
           (inputOf "age" (VStr "abc")) eq_refl).
Defined.

Lemma typeItems_codes f name adt it m :
  In it (typeItems f name adt) -> message it = Some m ->
  2 <= code_value (errorCode m).
Proof.
  unfold typeItems.
  repeat match goal with |- context [if ?b then _ else _] => destruct b end;
    simpl; intros H E;
    repeat (destruct H as [H|H];
            [subst it; simpl in E; try discriminate E; injection E as <-;
             simpl; lia|]);
    destruct H.
Qed.

Lemma laterItems_codes f rule it m :
  In it (laterItems f rule) -> message it = Some m ->
  2 <= code_value (errorCode m).
Proof.
  unfold laterItems.
  repeat match goal with |- context [if ?b then _ else _] => destruct b end;
    simpl; intros H E;
    repeat (destruct H as [H|H];
            [subst it; simpl in E; try discriminate E; injection E as <-;
             simpl; lia|]);
    destruct H.
Qed.

(** The chain of a required field whose type is known: the presence
    checks with their own messages, then checks of higher code. *)
Lemma known_required_stack f rule c :
  typeKnown rule = true ->
  truthy (get rule "required") = true ->
  buildChain f rule = Some c ->
  isOptional c = false /\ field c = f
  /\ exists rest,
       stack c
       = (presenceItems f
            (errorMessageConstructor f EMPTY_FIELD_ERROR (VStr "array"))
          ++ rest)%list
       /\ forall it m, In it rest -> message it = Some m ->
                       2 <= code_value (errorCode m).
Proof.
  unfold typeKnown. intros Hk Hr Hc. apply andb_prop in Hk as [Hs Hk].
  rewrite (buildChain_exact _ _ Hs) in Hc. unfold expectedChain in Hc.
  rewrite Hr in Hc. unfold typedItems in Hc.
  destruct (typeText rule =? "")%string.
  - injection Hc as <-. cbn [isOptional field stack negb].
    split; [reflexivity|]. split; [reflexivity|].
    exists (laterItems f rule). split; [reflexivity|].
    intros it m. apply laterItems_codes.
  - cbn [orb] in Hk. rewrite Hk in Hc. injection Hc as <-.
    cbn [isOptional field stack negb].
    split; [reflexivity|]. split; [reflexivity|].
    exists (Sanitization TrimString
              :: typeItems f (baseType (typeText rule)) (elementType (typeText rule))
              ++ laterItems f rule)%list.
    split; [rewrite <- ?app_assoc; reflexivity|].
    intros it m [<-|Hin] E; [discriminate E|].
    apply in_app_or in Hin as [Hin|Hin];
      [eapply typeItems_codes | eapply laterItems_codes]; eauto.
Qed.

(** X7: a required field of known type whose value in the request is the
    empty string is answered with the message of an empty field, and one
    whose value is the empty array with the message of an empty array:
    the later checks that fail as well have a higher code. *)
Theorem required_empty_is_empty ext
  (run : ValidationChain -> Value -> list (option Msg) * Value)
  f rule c input :
  typeKnown rule = true ->
  truthy (get rule "required") = true ->
  buildChain f rule = Some c ->
  (runsOn ext run c input (VStr "") ->
   fst (validateField run c input) = f ++ " : should not be empty")
  /\ (runsOn ext run c input (VArr []) ->
      fst (validateField run c input) = f ++ " : should not be an empty array").
Proof.
  intros Hk Hr Hc.
  destruct (known_required_stack _ _ _ Hk Hr Hc) as (Ho & Hf & rest & Hs & Hcodes).
  assert (Hrest : forall x m', In (Some m') (snd (run_stack ext false rest x)) ->
                    2 <= code_value (errorCode m')).
  { intros x m' H. apply run_stack_failure_message in H as (it & Hin & E & _).
    eapply Hcodes; eauto. }
  split; intros Hx;
    rewrite validateField_run, Hx, Ho, Hs, run_stack_failures_app;
    unfold presenceItems, customChecked;
    rewrite !run_stack_failures; cbn -[errorMessageConstructor lowest run_stack];
    (rewrite lowest_first;
     [reflexivity | intros m' H; apply Hrest in H; simpl; lia]).
Qed.

Lemma required_empty_is_empty_witness :
  (typeKnown passwordRule = true
   /\ truthy (get passwordRule "required") = true
   /\ buildChain "password" passwordRule = Some passwordChain
   /\ (forall ext, runsOn ext (Chain.run ext) passwordChain
                     (inputOf "password" (VStr "")) (VStr ""))
   /\ typeKnown tagsRule = true
   /\ truthy (get tagsRule "required") = true
   /\ buildChain "tags" tagsRule = Some tagsChain
   /\ forall ext, runsOn ext (Chain.run ext) tagsChain
                    (inputOf "tags" (VArr [])) (VArr []))
  /\ forall ext,
       fst (validateField (Chain.run ext) passwordChain
              (inputOf "password" (VStr "")))
       = "password : should not be empty"
       /\ fst (validateField (Chain.run ext) tagsChain (inputOf "tags" (VArr [])))
          = "tags : should not be an empty array".
Proof.
  assert (R1 : forall ext, runsOn ext (Chain.run ext) passwordChain
                             (inputOf "password" (VStr "")) (VStr ""))
    by (intros ext; exact (run_runsOn ext passwordChain _)).
  assert (R2 : forall ext, runsOn ext (Chain.run ext) tagsChain
                             (inputOf "tags" (VArr [])) (VArr []))
    by (intros ext; exact (run_runsOn ext tagsChain _)).
  split; [repeat split; try reflexivity; assumption|].
  intros ext. split.
  - exact (proj1 (required_empty_is_empty ext (Chain.run ext) "password"
                    passwordRule passwordChain (inputOf "password" (VStr ""))
                    eq_refl eq_refl eq_refl)
                 (R1 ext)).
  - exact (proj2 (required_empty_is_empty ext (Chain.run ext) "tags" tagsRule
                    tagsChain (inputOf "tags" (VArr [])) eq_refl eq_refl eq_refl)
                 (R2 ext)).
Defined.

(** ** A required string *)

(** X8: a required field of type [string] with no further check accepts
    exactly the strings that are not empty: when the value the field
    selects in the request is [x], [validateField] returns the empty
    message if and only if [x] is a string other than the empty one.  A
    missing value, the empty string, a number, a boolean, an array and an
    object each leave a message, and a string of spaces passes, the test
    for emptiness coming before the trim. *)
Theorem required_string_accepts ext
  (run : ValidationChain -> Value -> list (option Msg) * Value)
  f rule c input x :
  truthy (get rule "required") = true ->
  get rule "dataType" = VStr "string" ->
  truthy (get rule "regex") = false ->
  truthy (get rule "min") = false ->
  truthy (get rule "max") = false ->
  truthy (get_length rule) = false ->
  truthy (get rule "allowedAvalues") = false ->
  buildChain f rule = Some c ->
  runsOn ext run c input x ->
  fst (validateField run c input) = ""
  <-> exists s, x = VStr s /\ s <> "".
Proof.
  intros Hr Hd Hx Hmin Hmax Hl Ha Hc Hrun.
  assert (Hs : stringTyped rule = true) by (unfold stringTyped; now rewrite Hd).
  pose proof Hc as He. rewrite (buildChain_exact _ _ Hs) in He.
  unfold expectedChain, typeText, laterItems, minMaxApplies in He.
  rewrite Hr, Hd, Hx, Hmin, Hmax, Hl, Ha in He.
  cbn -[errorMessageConstructor] in He.
  rewrite validateField_run, Hrun.
  split.
  - intros Hm.
    destruct x as [| |b|n| |s|xs|kv].
    6: { exists s. split; [reflexivity|]. intros ->.
         apply (stack_failure_leaves_message ext f rule c (VStr "") Hc);
           [|exact Hm].
         injection He as <-. cbn [isOptional stack]. destruct ext. discriminate. }
    all: exfalso;
      match type of Hm with
      | fst (lowest (snd (run_stack _ _ _ ?v))) = _ =>
          apply (stack_failure_leaves_message ext f rule c v Hc); [|exact Hm]
      end;
      injection He as <-;
      cbn [isOptional stack]; rewrite !run_stack_failures;
      cbn -[errorMessageConstructor filter std_valid to_text];
      intros Q;
      repeat match type of Q with
             | (_ ++ _)%list = [] =>
                 let Q0 := fresh "Q" in
                 apply app_eq_nil in Q as [Q0 Q]; try discriminate Q0
             end;
      discriminate Q.
  - intros (s & -> & Hne).
    injection He as <-. cbn [isOptional stack].
    destruct s as [|a s]; [congruence|]. destruct ext. reflexivity.
Qed.

Lemma required_string_accepts_witness :
  (truthy (get passwordRule "required") = true
   /\ get passwordRule "dataType" = VStr "string"
   /\ truthy (get passwordRule "regex") = false
   /\ truthy (get passwordRule "min") = false
   /\ truthy (get passwordRule "max") = false
   /\ truthy (get_length passwordRule) = false
   /\ truthy (get passwordRule "allowedAvalues") = false
   /\ buildChain "password" passwordRule = Some passwordChain
   /\ forall ext, runsOn ext (Chain.run ext) passwordChain
                    (inputOf "password" (VStr "  ")) (VStr "  "))
  /\ forall ext,
       fst (validateField (Chain.run ext) passwordChain
              (inputOf "password" (VStr "  "))) = ""
       <-> exists s, VStr "  " = VStr s /\ s <> "".
Proof.
  assert (R : forall ext, runsOn ext (Chain.run ext) passwordChain
                            (inputOf "password" (VStr "  ")) (VStr "  "))
    by (intros ext; exact (run_runsOn ext passwordChain _)).
  split; [repeat split; try reflexivity; exact R|].
  intros ext.
  exact (required_string_accepts ext (Chain.run ext) "password" passwordRule
           passwordChain (inputOf "password" (VStr "  ")) (VStr "  ")
           eq_refl eq_refl eq_refl eq_refl eq_refl eq_refl eq_refl eq_refl
           (R ext)).
Defined.

(** No value has one of the types [mobile], [bool] and [float]. *)
Lemma typeof_unmatched x t :
  In t ["mobile"; "bool"; "float"] -> (typeof x =? t)%string = false.
Proof.
  intros [<-|[<-|[<-|[]]]]; destruct x; reflexivity.
Qed.

(** X9: the element types [array+mobile], [array+bool] and [array+float] of
    the enumeration have no element: the element check compares
    [typeof] of each element with [mobile], [bool] or [float], which no
    value has, so a field of such a type whose value in the request is a
    non-empty array always leaves a message. *)
Theorem unmatched_element_type_rejects ext
  (run : ValidationChain -> Value -> list (option Msg) * Value)
  f rule c input dt x xs :
  In dt unmatchedElementTypes ->
  get rule "dataType" = VStr dt ->
  buildChain f rule = Some c ->
  runsOn ext run c input (VArr (x :: xs)) ->
  fst (validateField run c input) <> "".
Proof.
  intros Hdt Hd Hc Hx.
  rewrite validateField_run, Hx.
  apply (stack_failure_leaves_message ext f rule c (VArr (x :: xs)) Hc).
  assert (Hs : stringTyped rule = true) by (unfold stringTyped; now rewrite Hd).
  pose proof Hc as He. rewrite (buildChain_exact _ _ Hs) in He.
  unfold expectedChain, typeText in He. rewrite Hd in He.
  assert (Ht : exists t, In t ["mobile"; "bool"; "float"]
                 /\ typedItems f (truthy (get rule "required")) dt
                    = Some ((if truthy (get rule "required")
                             then presenceItems f
                                    (errorMessageConstructor f EMPTY_FIELD_ERROR
                                       (VStr "array"))
                             else [])
                            ++ [Sanitization TrimString;
                                customChecked IsArray
                                  (errorMessageConstructor f DATATYPE_ERROR
                                     (VStr "array"))]
                            ++ [customChecked (EveryTypeof t)
                                  (errorMessageConstructor f ARRAY_DATATYPE_ERROR
                                     (VStr t))])%list).
  { destruct Hdt as [<-|[<-|[<-|[]]]];
      [exists "mobile" | exists "bool" | exists "float"];
      (split; [simpl; tauto|]); destruct (truthy (get rule "required"));
      reflexivity. }
  destruct Ht as (t & Hin & Ht). rewrite Ht in He. injection He as <-.
  cbn [isOptional field stack].
  set (pre := ((if truthy (get rule "required")
                then presenceItems f
                       (errorMessageConstructor f EMPTY_FIELD_ERROR (VStr "array"))
                else [])
               ++ [Sanitization TrimString;
                   customChecked IsArray
                     (errorMessageConstructor f DATATYPE_ERROR (VStr "array"))])%list).
  set (check := customChecked (EveryTypeof t)
                  (errorMessageConstructor f ARRAY_DATATYPE_ERROR (VStr t))).
  match goal with
  | |- snd (run_stack _ _ ?st _) <> [] =>
      replace st with (pre ++ check :: laterItems f rule)%list
        by (subst pre check; rewrite <- !app_assoc; reflexivity)
  end.
  rewrite run_stack_failures_app.
  assert (Hv : fst (run_stack ext (negb (truthy (get rule "required"))) pre
                      (VArr (x :: xs))) = VArr (x :: xs)).
  { subst pre. destruct (truthy (get rule "required")); reflexivity. }
  rewrite Hv, run_stack_failures. subst check.
  rewrite andb_false_r.
  cbn [run_item customChecked custom_valid forallb failed snd].
  rewrite (typeof_unmatched x t Hin). cbn [andb negb].
  intros H. apply app_eq_nil in H as [_ H]. discriminate H.
Qed.

Lemma unmatched_element_type_rejects_witness :
  (In "array+bool" unmatchedElementTypes
   /\ get flagsRule "dataType" = VStr "array+bool"
   /\ buildChain "flags" flagsRule = Some flagsChain
   /\ forall ext, runsOn ext (Chain.run ext) flagsChain
                    (inputOf "flags" (VArr [VBool true])) (VArr [VBool true]))
  /\ forall ext,
       fst (validateField (Chain.run ext) flagsChain
              (inputOf "flags" (VArr [VBool true]))) <> "".
Proof.
  assert (R : forall ext, runsOn ext (Chain.run ext) flagsChain
                            (inputOf "flags" (VArr [VBool true]))
                            (VArr [VBool true]))
    by (intros ext; exact (run_runsOn ext flagsChain _)).
  split; [repeat split; try reflexivity; try exact R; simpl; tauto|].
  intros ext.
  exact (unmatched_element_type_rejects ext (Chain.run ext) "flags" flagsRule
           flagsChain (inputOf "flags" (VArr [VBool true])) "array+bool"
           (VBool true) []
           (or_intror (or_introl eq_refl)) eq_refl eq_refl (R ext)).
Defined.

(** ** What meta-validation rejects, and what it accepts *)

Lemma in_push_if cond msg errs x :
  In x errs -> In x (push_if cond msg errs).
Proof.
  unfold push_if, push. destruct cond; [|auto]. intros H. apply in_or_app. now left.
Qed.

Lemma in_push_if_here msg errs : In msg (push_if true msg errs).
Proof. unfold push_if, push. apply in_or_app. right. now left. Qed.

Lemma unknown_key_in path key ks : forall errs,
  In key ks ->
  listIncludes key validProperties = false ->
  In (path ++ ": Unknown property '" ++ key ++ "'")
     (fold_left (fun errs key =>
                   push_if (negb (listIncludes key validProperties))
                           (path ++ ": Unknown property '" ++ key ++ "'") errs)
                ks errs).
Proof.
  assert (K : forall ks errs x, In x errs ->
            In x (fold_left (fun errs key =>
                   push_if (negb (listIncludes key validProperties))
                           (path ++ ": Unknown property '" ++ key ++ "'") errs)
                ks errs)).
  { intros l. induction l as [|k l IH]; intros errs x Hx; cbn [fold_left];
      [exact Hx|].
    apply IH. now apply in_push_if. }
  induction ks as [|k ks IH]; intros errs Hin Hbad; [destruct Hin|].
  cbn [fold_left]. destruct Hin as [->|Hin].
  - apply K. rewrite Hbad. apply in_push_if_here.
  - now apply IH.
Qed.

(** The errors of a rule that is an object, check by check. *)
Lemma validateValidationRule_checks rule path :
  not_an_object rule = false ->
  (forall key, In key (own_keys rule) ->
               listIncludes key validProperties = false ->
               In (path ++ ": Unknown property '" ++ key ++ "'")
                  (validateValidationRule rule path []))
  /\ (forall key ty, In (key, ty) typedProperties ->
        has_prop key rule = true ->
        (typeof (propertyValue rule key) =? ty)%string = false ->
        In (path ++ ": '" ++ key ++ "' must be a " ++ ty)
           (validateValidationRule rule path []))
  /\ (has_prop "allowedValues" rule = true ->
      isArray (get rule "allowedValues") = false ->
      In (path ++ ": 'allowedValues' must be an array")
         (validateValidationRule rule path [])).
Proof.
  intros Hobj. unfold validateValidationRule. rewrite Hobj. cbv zeta.
  split; [|split].
  - intros key Hin Hbad. repeat apply in_push_if. now apply unknown_key_in.
  - intros key ty Hin Hhas Hty. unfold propertyValue in Hty.
    simpl in Hin.
    repeat (destruct Hin as [Hin|Hin];
            [injection Hin as <- <-; cbn [String.eqb Ascii.eqb Bool.eqb] in Hty;
             rewrite Hhas, Hty; cbn [andb negb];
             repeat first [apply in_push_if_here | apply in_push_if]|]).
    destruct Hin.
  - intros Hhas Harr. rewrite Hhas, Harr. apply in_push_if_here.
Qed.

Lemma reaches_rule tree path rule found :
  Reaches tree path rule found -> isValidationRule rule = true.
Proof. induction 1; assumption. Qed.

Lemma rule_is_object rule : isValidationRule rule = true -> not_an_object rule = false.
Proof.
  unfold isValidationRule, not_an_object.
  destruct rule; simpl; intros H; try reflexivity;
    rewrite ?andb_false_r in H; discriminate H.
Qed.

(** An error of a route's tree is an error of the schema, which is then
    answered invalid. *)
Lemma route_error_invalid schema route tree msg :
  not_an_object schema = false ->
  In (route, tree) (own_entries schema) ->
  not_an_object tree = false ->
  In msg (validateNestedStructure tree route []) ->
  In msg (error (schemaValidator schema []))
  /\ isValid (schemaValidator schema []) = false.
Proof.
  intros Hobj Hroute Htree Hmsg.
  assert (Hin : In msg (error (schemaValidator schema []))).
  { rewrite (schemaValidator_routes _ Hobj). apply in_flat_map.
    exists (route, tree). split; [exact Hroute|]. cbn [fst snd]. now rewrite Htree. }
  split; [exact Hin|].
  unfold schemaValidator in *. rewrite Hobj in *. cbn [error isValid] in *.
  destruct (forEach _ _); [destruct Hin | reflexivity].
Qed.

Lemma visited_error tree path value found msg :
  Visits tree path value found ->
  In msg (visitEntry (validateNestedStructure value) "" found value []) ->
  In msg (validateNestedStructure tree path []).
Proof.
  assert (P : forall p k, newPathOf "" (newPathOf p k) = newPathOf p k)
    by reflexivity.
  assert (V : forall p k v errs,
            visitEntry (validateNestedStructure v) "" (newPathOf p k) v errs
            = visitEntry (validateNestedStructure v) p k v errs).
  { intros. unfold visitEntry. now rewrite P. }
  induction 1 as [tree path key value Hobj Hin
                 |tree path key sub value found Hobj Hin Hsub Hsobj _ IH];
    intros Hmsg; rewrite (validateNestedStructure_entries _ _ Hobj);
    apply in_flat_map.
  - exists (key, value). split; [exact Hin|]. cbn [fst snd]. now rewrite <- V.
  - exists (key, sub). split; [exact Hin|].
    unfold visitEntry; cbn [fst snd]. rewrite Hsub, Hsobj. cbn [negb]. now apply IH.
Qed.

Lemma reaches_visits tree path rule found :
  Reaches tree path rule found -> Visits tree path rule found.
Proof.
  induction 1; [now apply visits_here | eapply visits_below; eauto].
Qed.

Lemma accepted_no_error schema :
  validateSchema schema = true ->
  not_an_object schema = false /\ error (schemaValidator schema []) = [].
Proof.
  unfold validateSchema, schemaValidator.
  destruct (not_an_object schema); [discriminate|].
  cbn [isValid error]. intros H. split; [reflexivity|].
  destruct (forEach _ _); [reflexivity | discriminate H].
Qed.

Lemma accepted_route_is_object schema route tree :
  validateSchema schema = true ->
  In (route, tree) (own_entries schema) ->
  not_an_object tree = false.
Proof.
  intros Hv Hin. destruct (accepted_no_error _ Hv) as [Hobj He].
  rewrite (schemaValidator_routes _ Hobj) in He.
  destruct (not_an_object tree) eqn:Ht; [|reflexivity].
  assert (In ("Route '" ++ route ++ "': Must contain an object of validation rules")
             (@nil string)) as [].
  rewrite <- He. apply in_flat_map. exists (route, tree).
  split; [exact Hin|]. cbn [fst snd]. rewrite Ht. now left.
Qed.

(** X10: a rule that holds a key outside the seven permitted ones makes the
    schema invalid, with the error that names the rule's path and the
    key, wherever in a route's tree the rule stands. *)
Theorem unknown_property_rejected schema route tree rule found key :
  not_an_object schema = false ->
  In (route, tree) (own_entries schema) ->
  not_an_object tree = false ->
  Reaches tree route rule found ->
  In key (own_keys rule) ->
  listIncludes key validProperties = false ->
  In (found ++ ": Unknown property '" ++ key ++ "'")
     (error (schemaValidator schema []))
  /\ validateSchema schema = false.
Proof.
  intros Hobj Hroute Htree Hreach Hkey Hbad.
  apply (route_error_invalid _ _ _ _ Hobj Hroute Htree).
  eapply reached_rule_error; [exact Hreach|].
  apply validateValidationRule_checks; auto.
  apply rule_is_object. eapply reaches_rule, Hreach.
Qed.

Lemma unknown_property_rejected_witness :
  (not_an_object colouredSchema = false
   /\ In ("/api/paint", VObj [("name", colouredRule)]) (own_entries colouredSchema)
   /\ not_an_object (VObj [("name", colouredRule)]) = false
   /\ Reaches (VObj [("name", colouredRule)]) "/api/paint" colouredRule
        "/api/paint.name"
   /\ In "colour" (own_keys colouredRule)
   /\ listIncludes "colour" validProperties = false)
  /\ In "/api/paint.name: Unknown property 'colour'"
        (error (schemaValidator colouredSchema []))
  /\ validateSchema colouredSchema = false.
Proof.
  assert (R : Reaches (VObj [("name", colouredRule)]) "/api/paint" colouredRule
                "/api/paint.name")
    by exact (reaches_here (VObj [("name", colouredRule)]) "/api/paint" "name"
                colouredRule eq_refl (or_introl eq_refl) eq_refl).
  split.
  - repeat split; try reflexivity; try exact R; simpl; tauto.
  - exact (unknown_property_rejected colouredSchema "/api/paint"
             (VObj [("name", colouredRule)]) colouredRule "/api/paint.name"
             "colour" eq_refl (or_introl eq_refl) eq_refl R
             (or_intror (or_introl eq_refl)) eq_refl).
Defined.

(** X11: a rule whose [required] is not a boolean, whose [regex] is not a
    string, whose [min], [max] or [length] is not a number, or whose
    [allowedValues] is not an array makes the schema invalid, with the
    error that names the rule's path and the property. *)
Theorem mistyped_property_rejected schema route tree rule found :
  not_an_object schema = false ->
  In (route, tree) (own_entries schema) ->
  not_an_object tree = false ->
  Reaches tree route rule found ->
  (forall key ty,
      In (key, ty) typedProperties ->
      has_prop key rule = true ->
      (typeof (propertyValue rule key) =? ty)%string = false ->
      In (found ++ ": '" ++ key ++ "' must be a " ++ ty)
         (error (schemaValidator schema []))
      /\ validateSchema schema = false)
  /\ (has_prop "allowedValues" rule = true ->
      isArray (get rule "allowedValues") = false ->
      In (found ++ ": 'allowedValues' must be an array")
         (error (schemaValidator schema []))
      /\ validateSchema schema = false).
Proof.
  intros Hobj Hroute Htree Hreach.
  assert (Hrule : not_an_object rule = false)
    by (apply rule_is_object; eapply reaches_rule, Hreach).
  destruct (validateValidationRule_checks rule found Hrule) as (_ & Ht & Ha).
  split.
  - intros key ty Hin Hhas Hty.
    apply (route_error_invalid _ _ _ _ Hobj Hroute Htree).
    eapply reached_rule_error; [exact Hreach|]. now apply Ht.
  - intros Hhas Harr.
    apply (route_error_invalid _ _ _ _ Hobj Hroute Htree).
    eapply reached_rule_error; [exact Hreach|]. now apply Ha.
Qed.

Lemma mistyped_property_rejected_witness :
  (not_an_object mistypedSchema = false
   /\ In ("/api/paint", VObj [("name", mistypedRule)]) (own_entries mistypedSchema)
   /\ not_an_object (VObj [("name", mistypedRule)]) = false
   /\ Reaches (VObj [("name", mistypedRule)]) "/api/paint" mistypedRule
        "/api/paint.name"
   /\ In ("required", "boolean") typedProperties
   /\ has_prop "required" mistypedRule = true
   /\ (typeof (propertyValue mistypedRule "required") =? "boolean")%string = false)
  /\ In "/api/paint.name: 'required' must be a boolean"
        (error (schemaValidator mistypedSchema []))
  /\ validateSchema mistypedSchema = false.
Proof.
  assert (R : Reaches (VObj [("name", mistypedRule)]) "/api/paint" mistypedRule
                "/api/paint.name")
    by exact (reaches_here (VObj [("name", mistypedRule)]) "/api/paint" "name"
                mistypedRule eq_refl (or_introl eq_refl) eq_refl).
  split.
  - repeat split; try reflexivity; try exact R; simpl; tauto.
  - exact (proj1 (mistyped_property_rejected mistypedSchema "/api/paint"
                    (VObj [("name", mistypedRule)]) mistypedRule "/api/paint.name"
                    eq_refl (or_introl eq_refl) eq_refl R)
                 "required" "boolean" (or_introl eq_refl) eq_refl eq_refl).
Defined.

(** X12: a schema that is not an object, a route whose value is not an
    object, and an entry of a tree that is neither a rule nor an object
    each make the schema invalid, with the error that names the place. *)
Theorem malformed_structure_rejected :
  (forall schema,
      not_an_object schema = true ->
      schemaValidator schema []
      = {| isValid := false; error := ["Schema must be an object"] |})
  /\ (forall schema route tree,
         not_an_object schema = false ->
         In (route, tree) (own_entries schema) ->
         not_an_object tree = true ->
         In ("Route '" ++ route ++ "': Must contain an object of validation rules")
            (error (schemaValidator schema []))
         /\ validateSchema schema = false)
  /\ forall schema route tree value found,
       not_an_object schema = false ->
       In (route, tree) (own_entries schema) ->
       not_an_object tree = false ->
       Visits tree route value found ->
       isValidationRule value = false ->
       not_an_object value = true ->
       In (found ++ ": Invalid schema structure")
          (error (schemaValidator schema []))
       /\ validateSchema schema = false.
Proof.
  split; [|split].
  - intros schema H. unfold schemaValidator. now rewrite H.
  - intros schema route tree Hobj Hroute Htree.
    assert (Hin : In ("Route '" ++ route
                      ++ "': Must contain an object of validation rules")
                     (error (schemaValidator schema []))).
    { rewrite (schemaValidator_routes _ Hobj). apply in_flat_map.
      exists (route, tree). split; [exact Hroute|]. cbn [fst snd].
      rewrite Htree. now left. }
    split; [exact Hin|].
    unfold validateSchema, schemaValidator in *. rewrite Hobj in *.
    cbn [error isValid] in *.
    destruct (forEach _ _); [destruct Hin | reflexivity].
  - intros schema route tree value found Hobj Hroute Htree Hvis Hrule Hval.
    apply (route_error_invalid _ _ _ _ Hobj Hroute Htree).
    eapply visited_error; [exact Hvis|].
    unfold visitEntry. rewrite Hrule, Hval. cbn [negb newPathOf String.eqb].
    now left.
Qed.

Lemma malformed_structure_rejected_witness :
  (not_an_object (VStr "schema") = true
   /\ not_an_object numberRouteSchema = false
   /\ In ("/api/paint", VNum 1) (own_entries numberRouteSchema)
   /\ not_an_object (VNum 1) = true
   /\ not_an_object textFieldSchema = false
   /\ In ("/api/paint", VObj [("name", VStr "text")]) (own_entries textFieldSchema)
   /\ not_an_object (VObj [("name", VStr "text")]) = false
   /\ Visits (VObj [("name", VStr "text")]) "/api/paint" (VStr "text")
        "/api/paint.name"
   /\ isValidationRule (VStr "text") = false
   /\ not_an_object (VStr "text") = true)
  /\ schemaValidator (VStr "schema") []
     = {| isValid := false; error := ["Schema must be an object"] |}
  /\ (In "Route '/api/paint': Must contain an object of validation rules"
         (error (schemaValidator numberRouteSchema []))
      /\ validateSchema numberRouteSchema = false)
  /\ In "/api/paint.name: Invalid schema structure"
        (error (schemaValidator textFieldSchema []))
  /\ validateSchema textFieldSchema = false.
Proof.
  assert (V : Visits (VObj [("name", VStr "text")]) "/api/paint" (VStr "text")
                "/api/paint.name")
    by exact (visits_here (VObj [("name", VStr "text")]) "/api/paint" "name"
                (VStr "text") eq_refl (or_introl eq_refl)).
  split.
  - repeat split; try reflexivity; try exact V; simpl; tauto.
  - destruct malformed_structure_rejected as (A & B & C).
    split; [exact (A (VStr "schema") eq_refl)|].
    split; [exact (B numberRouteSchema "/api/paint" (VNum 1) eq_refl
                     (or_introl eq_refl) eq_refl)|].
    exact (C textFieldSchema "/api/paint" (VObj [("name", VStr "text")])
             (VStr "text") "/api/paint.name" eq_refl (or_introl eq_refl)
             eq_refl V eq_refl eq_refl).
Defined.

(** X13: a schema that [validateSchema] accepts is well formed at every rule
    of every route: the rule holds permitted keys only, its [required],
    [regex], [min], [max] and [length] have the type asked for, its
    [allowedValues] is an array, and a [dataType] that is a string is one
    of the enumeration. *)
Theorem accepted_schema_is_well_formed schema route tree rule found :
  validateSchema schema = true ->
  In (route, tree) (own_entries schema) ->
  Reaches tree route rule found ->
  (forall key, In key (own_keys rule) -> listIncludes key validProperties = true)
  /\ (forall key ty, In (key, ty) typedProperties ->
        has_prop key rule = true -> typeof (propertyValue rule key) = ty)
  /\ (has_prop "allowedValues" rule = true ->
      isArray (get rule "allowedValues") = true)
  /\ (forall s, has_prop "dataType" rule = true ->
        get rule "dataType" = VStr s -> listIncludes s validDataTypes = true).
Proof.
  intros Hv Hroute Hreach.
  destruct (accepted_no_error _ Hv) as [Hobj He].
  pose proof (accepted_route_is_object _ _ _ Hv Hroute) as Htree.
  assert (Hrule : not_an_object rule = false)
    by (apply rule_is_object; eapply reaches_rule, Hreach).
  assert (No : forall msg, ~ In msg (validateValidationRule rule found [])).
  { intros msg Hmsg.
    destruct (route_error_invalid schema route tree msg Hobj Hroute Htree) as [Hin _].
    - eapply reached_rule_error; eauto.
    - rewrite He in Hin. destruct Hin. }
  destruct (validateValidationRule_checks rule found Hrule) as (Hk & Ht & Ha).
  repeat split.
  - intros key Hin. destruct (listIncludes key validProperties) eqn:E; [reflexivity|].
    destruct (No _ (Hk key Hin E)).
  - intros key ty Hin Hhas.
    destruct (typeof (propertyValue rule key) =? ty)%string eqn:E;
      [now apply String.eqb_eq in E|].
    destruct (No _ (Ht key ty Hin Hhas E)).
  - intros Hhas. destruct (isArray (get rule "allowedValues")) eqn:E; [reflexivity|].
    destruct (No _ (Ha Hhas eq_refl)).
  - intros s Hhas Hget. destruct (listIncludes s validDataTypes) eqn:E; [reflexivity|].
    destruct (No _ (invalid_dataType_recorded rule found s Hrule Hhas Hget E)).
Qed.

Lemma accepted_schema_is_well_formed_witness :
  (validateSchema readmeSchema = true
   /\ In ("/api/login", loginRules) (own_entries readmeSchema)
   /\ Reaches loginRules "/api/login" passwordRule "/api/login.password")
  /\ (forall key, In key (own_keys passwordRule) ->
                  listIncludes key validProperties = true)
  /\ (forall key ty, In (key, ty) typedProperties ->
        has_prop key passwordRule = true ->
        typeof (propertyValue passwordRule key) = ty)
  /\ (has_prop "allowedValues" passwordRule = true ->
      isArray (get passwordRule "allowedValues") = true)
  /\ (forall s, has_prop "dataType" passwordRule = true ->
        get passwordRule "dataType" = VStr s ->
        listIncludes s validDataTypes = true).
Proof.
  assert (R : Reaches loginRules "/api/login" passwordRule "/api/login.password")
    by exact (reaches_here loginRules "/api/login" "password" passwordRule
                eq_refl (or_intror (or_introl eq_refl)) eq_refl).
  split.
  - repeat split; try reflexivity; try exact R; simpl; tauto.
  - exact (accepted_schema_is_well_formed readmeSchema "/api/login" loginRules
             passwordRule "/api/login.password" eq_refl (or_introl eq_refl) R).
Defined.

Lemma invalid_string_dataType_rejected_witness :
  (not_an_object floatTypeSchema = false
   /\ In ("/api/paint", VObj [("size", floatTypeRule)]) (own_entries floatTypeSchema)
   /\ not_an_object (VObj [("size", floatTypeRule)]) = false
   /\ Reaches (VObj [("size", floatTypeRule)]) "/api/paint" floatTypeRule
        "/api/paint.size"
   /\ has_prop "dataType" floatTypeRule = true
   /\ get floatTypeRule "dataType" = VStr "double"
   /\ listIncludes "double" validDataTypes = false)
  /\ In "/api/paint.size: Invalid dataType 'double'"
        (error (schemaValidator floatTypeSchema []))
  /\ isValid (schemaValidator floatTypeSchema []) = false.
Proof.
  assert (R : Reaches (VObj [("size", floatTypeRule)]) "/api/paint" floatTypeRule
                "/api/paint.size")
    by exact (reaches_here (VObj [("size", floatTypeRule)]) "/api/paint" "size"
                floatTypeRule eq_refl (or_introl eq_refl) eq_refl).
  split.
  - repeat split; try reflexivity; try exact R; simpl; tauto.
  - exact (proj1 invalid_string_dataType_rejected floatTypeSchema "/api/paint"
             (VObj [("size", floatTypeRule)]) floatTypeRule "/api/paint.size"
             "double" eq_refl (or_introl eq_refl) eq_refl R eq_refl eq_refl eq_refl).
Defined.

(** ** The registry and the reply *)

Lemma findRules_app l1 l2 this :
  findRules (l1 ++ l2)%list this
  = if existsb (fun r => regexp r (url this)) l1
    then findRules l1 this else findRules l2 this.
Proof.
  induction l1 as [|r l1 IH]; simpl; [reflexivity|].
  destruct (regexp r (url this)); [reflexivity | exact IH].
Qed.

Lemma findRules_compiled (pathToRegexp : string -> string -> bool) schema ks this :
  findRules (map (fun route => {| regexp := pathToRegexp route;
                                  rules := prop schema route |}) ks) this
  = match find (fun route => pathToRegexp route (url this)) ks with
    | Some route => prop schema route
    | None => VStr ""
    end.
Proof.
  induction ks as [|k ks IH]; simpl; [reflexivity|].
  destruct (pathToRegexp k (url this)); [reflexivity | exact IH].
Qed.

(** X15: loading a schema file registers its routes only when
    [validateSchema] accepts the schema, and after the routes already
    registered: a path that an earlier route accepts keeps the rules it
    had, and any other path gets the rules under the first key of the
    schema, in key order, whose pattern accepts it. *)
Theorem loaded_routes_resolve
  (pathToRegexp : string -> string -> bool) schema registry registry' this :
  loadFile pathToRegexp schema registry = Some registry' ->
  validateSchema schema = true
  /\ findRules registry' this
     = if existsb (fun r => regexp r (url this)) registry
       then findRules registry this
       else match find (fun route => pathToRegexp route (url this))
                       (own_keys schema) with
            | Some route => prop schema route
            | None => VStr ""
            end.
Proof.
  unfold loadFile. destruct (validateSchema schema); [|discriminate].
  intros H. injection H as <-. split; [reflexivity|].
  unfold routesToRegex. now rewrite findRules_app, findRules_compiled.
Qed.

Lemma loaded_routes_resolve_witness :
  loadFile String.eqb readmeSchema overlapping
  = Some (routesToRegex String.eqb readmeSchema overlapping)
  /\ validateSchema readmeSchema = true
  /\ findRules (routesToRegex String.eqb readmeSchema overlapping)
       (new "/register?x=1")
     = VStr ""
  /\ findRules (routesToRegex String.eqb readmeSchema overlapping)
       (new "/api/register?x=1")
     = VObj [("broad", VObj [])].
Proof.
  split; [reflexivity|].
  split; [reflexivity|].
  split.
  - exact (proj2 (loaded_routes_resolve String.eqb readmeSchema overlapping _
                    (new "/register?x=1") eq_refl)).
  - exact (proj2 (loaded_routes_resolve String.eqb readmeSchema overlapping _
                    (new "/api/register?x=1") eq_refl)).
Defined.

Lemma customValidator_find handlers input :
  customValidator handlers "" input
  = match find (fun h => negb (h input =? "")%string) handlers with
    | Some h => h input
    | None => ""
    end.
Proof.
  induction handlers as [|h rest IH]; simpl; [reflexivity|].
  destruct (h input =? "")%string eqn:E; simpl; [|reflexivity].
  apply String.eqb_eq in E. rewrite E. exact IH.
Qed.

(** X16: the reply to a request whose path has rules and whose traversal does
    not raise: the message of the schema checks when there is one;
    otherwise the message of the first custom handler, in order, that
    returns a non-empty one, the handlers being given the body as the
    checks left it, conversions included; otherwise the request goes on
    to the next handler. *)
Theorem reply_of_checks
  (run : ValidationChain -> Value -> list (option Msg) * Value)
  registry this req errorMsg input :
  (typeof (findRules registry this) =? "string")%string = false ->
  expressRuleBuilder run (findRules registry this) (mergedInput req) ""
  = Some (errorMsg, input) ->
  validateRequest run registry this req
  = if negb (errorMsg =? "")%string then Status400 errorMsg
    else match find (fun h => negb (h (get input "body") =? "")%string)
                    (customValidationHandlers this) with
         | Some h => Status400 (h (get input "body"))
         | None => Next
         end.
Proof.
  intros Hr He. unfold validateRequest. rewrite Hr, He.
  destruct (errorMsg =? "")%string eqn:E; cbn [negb].
  - rewrite customValidator_find.
    destruct (find _ _) as [h|] eqn:F; [|reflexivity].
    apply find_some in F as [_ F]. apply negb_true_iff in F. now rewrite F.
  - now rewrite E.
Qed.

Lemma reply_of_checks_witness :
  ((typeof (findRules ageRoutes
              {| url := "/api/register";
                 customValidationHandlers := [ageIsNumber] |})
    =? "string")%string = false
   /\ expressRuleBuilder (Chain.run plainExt)
        (findRules ageRoutes
           {| url := "/api/register";
              customValidationHandlers := [ageIsNumber] |})
        (mergedInput (post "/api/register" [("age", VStr "20")])) ""
      = Some ("", inputOf "age" (VNum 20)))
  /\ validateRequest (Chain.run plainExt) ageRoutes
       {| url := "/api/register"; customValidationHandlers := [ageIsNumber] |}
       (post "/api/register" [("age", VStr "20")])
     = Next.
Proof.
  split; [split; reflexivity|].
  exact (reply_of_checks (Chain.run plainExt) ageRoutes
           {| url := "/api/register"; customValidationHandlers := [ageIsNumber] |}
           (post "/api/register" [("age", VStr "20")]) ""
           (inputOf "age" (VNum 20)) eq_refl eq_refl).
Defined.

(** ** The field path of a nested rule *)

Lemma isNested_text s : isNested (VStr s) = Some false.
Proof.
  unfold isNested, first_prop. cbn [entries].
  destruct (chars s) as [|c cs]; reflexivity.
Qed.

Lemma index_from_texts l : forall i k v,
  In (k, v) (index_from i (map VStr l)) -> exists s, v = VStr s.
Proof.
  induction l as [|x l IH]; intros i k v H; simpl in H; [destruct H|].
  destruct H as [H|H]; [injection H as _ <-; eauto | eapply IH, H].
Qed.

Lemma index_from_in xs : forall i k v,
  In (k, v) (index_from i xs) -> In v xs.
Proof.
  induction xs as [|x xs IH]; intros i k v H; simpl in H; [destruct H|].
  destruct H as [H|H]; [injection H as _ <-; now left | right; eapply IH, H].
Qed.

(** The leaves of a tree are those of its entries. *)
Lemma leaves_entries tree prefix l :
  In l (leaves tree prefix) ->
  l = Raise
  \/ exists e, In e (own_entries tree)
               /\ In l (visitLeaves (fun f => leaves (snd e) f) prefix
                          (fst e) (snd e)).
Proof.
  destruct tree as [| |b|n| |s|xs|kv]; cbn [leaves own_entries entries].
  - intros [<-|[]]. now left.
  - intros [<-|[]]. now left.
  - intros [].
  - intros [].
  - intros [].
  - intros H. right. apply in_concat in H as (ls & Hls & Hl).
    apply in_map_iff in Hls as (e & <- & He). exists e. split; [exact He|].
    destruct e as [k v]. destruct (index_from_texts _ _ _ _ He) as [t ->].
    unfold visitLeaves in *. cbn [fst snd] in *.
    now rewrite isNested_text in *.
  - intros H. right.
    rewrite (mapi_index_from
               (fun k v => visitLeaves (fun f => leaves v f) prefix k v)) in H.
    apply in_concat in H as (ls & Hls & Hl).
    apply in_map_iff in Hls as (e & <- & He). now exists e.
  - intros H. right. apply in_concat in H as (ls & Hls & Hl).
    apply in_map_iff in Hls as (e & <- & He). now exists e.
Qed.

Lemma entries_leaves tree prefix e l :
  In e (own_entries tree) ->
  In l (visitLeaves (fun f => leaves (snd e) f) prefix (fst e) (snd e)) ->
  In l (leaves tree prefix).
Proof.
  destruct tree as [| |b|n| |s|xs|kv]; cbn [leaves own_entries entries];
    try (intros []).
  - intros He Hl. apply in_concat. eexists. split.
    + apply in_map_iff. exists e. split; [reflexivity | exact He].
    + destruct e as [k v]. destruct (index_from_texts _ _ _ _ He) as [t ->].
      unfold visitLeaves in *. cbn [fst snd] in *.
      now rewrite isNested_text in *.
  - intros He Hl.
    rewrite (mapi_index_from
               (fun k v => visitLeaves (fun f => leaves v f) prefix k v)).
    apply in_concat. eexists. split; [|exact Hl].
    apply in_map_iff. now exists e.
  - intros He Hl. apply in_concat. eexists. split; [|exact Hl].
    apply in_map_iff. now exists e.
Qed.

Lemma leaves_paths tree : forall prefix p rule,
  In (Field p rule) (leaves tree prefix) ->
  exists ks, PathTo tree ks rule /\ p = pathOf prefix ks.
Proof.
  induction tree as [ | | b | n | | s | xs IH | kv IH] using Value_induction;
    intros prefix p rule H;
    apply leaves_entries in H as [H|(e & He & H)]; try discriminate H;
    try (now destruct He).
  - destruct e as [k v]. cbn [own_entries entries] in He.
    destruct (index_from_texts _ _ _ _ He) as [t ->].
    unfold visitLeaves in H. cbn [fst snd] in H. rewrite isNested_text in H.
    destruct H as [H|[]]. injection H as <- <-.
    exists [k]. split; [|reflexivity].
    apply path_here; [exact He | apply isNested_text].
  - destruct e as [k v]. cbn [own_entries entries] in He.
    pose proof (index_from_in _ _ _ _ He) as Hv.
    rewrite Forall_forall in IH. specialize (IH v Hv).
    unfold visitLeaves in H. cbn [fst snd] in H.
    destruct (isNested v) as [[|]|] eqn:N.
    + apply IH in H as (ks & Hp & ->). exists (k :: ks).
      split; [|reflexivity]. eapply path_below; eauto.
    + destruct H as [H|[]]. injection H as <- <-.
      exists [k]. split; [|reflexivity]. now apply path_here.
    + destruct H as [H|[]]. discriminate H.
  - destruct e as [k v]. cbn [own_entries entries] in He.
    rewrite Forall_forall in IH. specialize (IH (k, v) He). cbn [snd] in IH.
    unfold visitLeaves in H. cbn [fst snd] in H.
    destruct (isNested v) as [[|]|] eqn:N.
    + apply IH in H as (ks & Hp & ->). exists (k :: ks).
      split; [|reflexivity]. eapply path_below; eauto.
    + destruct H as [H|[]]. injection H as <- <-.
      exists [k]. split; [|reflexivity]. now apply path_here.
    + destruct H as [H|[]]. discriminate H.
Qed.

Lemma paths_leaves tree ks rule :
  PathTo tree ks rule ->
  forall prefix, In (Field (pathOf prefix ks) rule) (leaves tree prefix).
Proof.
  induction 1 as [tree key rule Hin Hn|tree key sub ks rule Hin Hn _ IH];
    intros prefix.
  - apply (entries_leaves tree prefix (key, rule) _ Hin).
    unfold visitLeaves. cbn [fst snd]. rewrite Hn. now left.
  - apply (entries_leaves tree prefix (key, sub) _ Hin).
    unfold visitLeaves. cbn [fst snd]. rewrite Hn. apply IH.
Qed.

Lemma join_cons k ks :
  ks <> [] -> join "." (k :: ks) = k ++ "." ++ join "." ks.
Proof. destruct ks; [congruence | reflexivity]. Qed.

Lemma append_assoc3 (a b c : string) : (a ++ b) ++ c = a ++ b ++ c.
Proof. induction a as [|x a IH]; simpl; [reflexivity | now rewrite IH]. Qed.

Lemma pathOf_dotted ks : forall prefix,
  prefix <> "" -> ks <> [] ->
  pathOf prefix ks = prefix ++ "." ++ join "." ks.
Proof.
  unfold pathOf.
  induction ks as [|k ks IH]; intros prefix Hp Hks; [congruence|].
  cbn [fold_left].
  assert (E : fullFieldOf prefix k = prefix ++ "." ++ k).
  { unfold fullFieldOf. destruct (prefix =? "")%string eqn:Q; [|reflexivity].
    apply String.eqb_eq in Q. congruence. }
  destruct ks as [|k' ks]; [exact E|].
  rewrite IH;
    [|rewrite E; intros Q; destruct prefix; discriminate Q|discriminate].
  rewrite E. rewrite (join_cons k (k' :: ks)) by (intros Q; discriminate Q).
  now rewrite !append_assoc3.
Qed.

(** X17: the field a rule is checked under is the path of the keys that lead
    to it: the traversal meets a rule under the path [p] exactly when
    some keys lead from the tree to the rule through nested trees and [p]
    is those keys put together by [fullFieldOf], which for keys that are
    not empty is their text joined by dots. *)
Theorem field_paths_follow_keys :
  (forall tree prefix p rule,
      In (Field p rule) (leaves tree prefix)
      <-> exists ks, PathTo tree ks rule /\ p = pathOf prefix ks)
  /\ (forall k ks, k <> "" -> pathOf "" (k :: ks) = join "." (k :: ks))
  /\ (forall run tree input prefix,
         expressRuleBuilder run tree input prefix
         = firstFailure run (leaves tree prefix) input).
Proof.
  split; [|split].
  - intros tree prefix p rule. split.
    + apply leaves_paths.
    + intros (ks & Hp & ->). now apply paths_leaves.
  - intros k ks Hk. destruct ks as [|k' ks]; [reflexivity|].
    change (pathOf "" (k :: k' :: ks)) with (pathOf k (k' :: ks)).
    rewrite pathOf_dotted; [|exact Hk|intros Q; discriminate Q].
    rewrite (join_cons k (k' :: ks)) by (intros Q; discriminate Q). reflexivity.
  - intros run tree input prefix. apply expressRuleBuilder_firstFailure.
Qed.

Lemma field_paths_follow_keys_witness :
  PathTo nestedRules ["user"; "address"; "city"] passwordRule
  /\ In (Field "user.address.city" passwordRule) (leaves nestedRules "")
  /\ pathOf "" ["user"; "address"; "city"] = "user.address.city".
Proof.
  assert (P : PathTo nestedRules ["user"; "address"; "city"] passwordRule).
  { eapply path_below; [now left | reflexivity|].
    eapply path_below; [now left | reflexivity|].
    apply path_here; [now left | reflexivity]. }
  destruct field_paths_follow_keys as (A & B & _).
  split; [exact P|]. split.
  - apply (proj2 (A nestedRules "" "user.address.city" passwordRule)).
    exists ["user"; "address"; "city"]. split; [exact P | reflexivity].
  - apply (B "user" ["address"; "city"]). discriminate.
Defined.

(** ** An array where a rule is expected *)

Lemma isValidationRule_array xs : isValidationRule (VArr xs) = true.
Proof.
  unfold isValidationRule, has_prop. cbn [truthy typeof_object andb].
  repeat match goal with
         | |- context [is_index_below ?k ?n ?i] =>
             destruct (is_index_below k n i)
         end; reflexivity.
Qed.

(** X18: an entry of a schema that is an array is taken for a rule, since
    [length] is a property of every array: the empty array records no
    error, an array with elements records an unknown property for its
    index 0, and the chain built for an array, which has none of the
    rule keys, is that of an optional field without checks, so that no
    request fails on it. *)
Theorem array_entry_is_rule :
  (forall xs, isValidationRule (VArr xs) = true)
  /\ (forall path, validateValidationRule (VArr []) path [] = [])
  /\ (forall x xs path,
         In (path ++ ": Unknown property '0'")
            (validateValidationRule (VArr (x :: xs)) path []))
  /\ forall ext f xs input,
       buildChain f (VArr xs) = Some (optional (body f))
       /\ validateField (Chain.run ext) (optional (body f)) input = ("", input).
Proof.
  split; [apply isValidationRule_array|]. split; [reflexivity|]. split.
  - intros x xs path.
    destruct (validateValidationRule_checks (VArr (x :: xs)) path eq_refl)
      as (Hk & _).
    apply (Hk "0"); [now left | reflexivity].
  - intros ext f xs input. split.
    + unfold buildChain, minMaxApplies. cbn [get truthy].
      cbn [applyMandatoryFieldValidation truthy andb orb].
      now rewrite andb_false_r.
    + now apply validateField_empty_stack.
Qed.

(** ** Schemas that are accepted *)

Lemma unknown_keys_none path ks :
  forallb (fun key => listIncludes key validProperties) ks = true ->
  fold_left (fun errs key =>
               push_if (negb (listIncludes key validProperties))
                       (path ++ ": Unknown property '" ++ key ++ "'") errs)
            ks [] = [].
Proof.
  induction ks as [|k ks IH]; intros H; [reflexivity|].
  cbn [forallb] in H. apply andb_prop in H as [Hk Hks].
  cbn [fold_left]. rewrite Hk. cbn [negb push_if]. now apply IH.
Qed.

Lemma wellFormedRule_no_error rule path :
  not_an_object rule = false ->
  wellFormedRule rule = true ->
  validateValidationRule rule path [] = [].
Proof.
  intros Hobj H. unfold wellFormedRule in H.
  apply andb_prop in H as [H Hd]. apply andb_prop in H as [H Ha].
  apply andb_prop in H as [Hk Ht].
  unfold validateValidationRule. rewrite Hobj. cbv zeta.
  rewrite (unknown_keys_none _ _ Hk).
  cbn [forallb typedProperties fst snd] in Ht. unfold propertyValue in Ht.
  cbn [String.eqb Ascii.eqb Bool.eqb] in Ht.
  repeat match type of Ht with
         | (_ && _) = true => let Q := fresh "Q" in apply andb_prop in Ht as [Q Ht]
         end.
  assert (N : forall a b, negb a || b = true -> a && negb b = false)
    by (intros [] []; simpl; congruence).
  rewrite (N _ _ Q), (N _ _ Q0), (N _ _ Q1), (N _ _ Q2), (N _ _ Q3), (N _ _ Ha).
  assert (D : has_prop "dataType" rule
              && (typeof (get rule "dataType") =? "string")%string
              && negb (listIncludes (to_string (get rule "dataType")) validDataTypes)
              = false).
  { revert Hd. destruct (has_prop "dataType" rule && _), (listIncludes _ _);
      simpl; congruence. }
  rewrite D. reflexivity.
Qed.

Lemma well_formed_tree_no_error tree : forall path,
  not_an_object tree = false ->
  (forall value found,
      Visits tree path value found ->
      if isValidationRule value then wellFormedRule value = true
      else not_an_object value = false) ->
  validateNestedStructure tree path [] = [].
Proof.
  assert (Step : forall tree path,
            not_an_object tree = false ->
            (forall e, In e (own_entries tree) ->
                       visitEntry (validateNestedStructure (snd e)) path
                                  (fst e) (snd e) [] = []) ->
            validateNestedStructure tree path [] = []).
  { intros t path Hobj Hall. rewrite (validateNestedStructure_entries _ _ Hobj).
    induction (own_entries t) as [|e l IH]; [reflexivity|].
    cbn [flat_map]. rewrite (Hall e (or_introl eq_refl)). apply IH.
    intros e' He'. apply Hall. now right. }
  assert (Entry : forall (P : Value -> Prop) tree path,
            not_an_object tree = false ->
            (forall value found,
                Visits tree path value found ->
                if isValidationRule value then wellFormedRule value = true
                else not_an_object value = false) ->
            (forall e, In e (own_entries tree) -> P (snd e)) ->
            (forall v, P v -> forall path,
                not_an_object v = false ->
                (forall value found,
                    Visits v path value found ->
                    if isValidationRule value then wellFormedRule value = true
                    else not_an_object value = false) ->
                validateNestedStructure v path [] = []) ->
            validateNestedStructure tree path [] = []).
  { intros P t path Hobj Hv Hin IH. apply Step; [exact Hobj|].
    intros [k v] He. cbn [fst snd]. unfold visitEntry.
    pose proof (Hv v (newPathOf path k) (visits_here t path k v Hobj He)) as Hk.
    destruct (isValidationRule v) eqn:Hr.
    - apply wellFormedRule_no_error; [now apply rule_is_object | exact Hk].
    - rewrite Hk. cbn [negb].
      apply (IH v (Hin (k, v) He)); [exact Hk|].
      intros value found Hvis. apply (Hv value found).
      eapply visits_below; eauto. }
  induction tree as [ | | b | n | | s | xs IH | kv IH] using Value_induction;
    intros path Hobj Hv; try discriminate Hobj.
  - apply (Entry (fun v => forall path,
                    not_an_object v = false ->
                    (forall value found,
                        Visits v path value found ->
                        if isValidationRule value then wellFormedRule value = true
                        else not_an_object value = false) ->
                    validateNestedStructure v path [] = []) (VArr xs) path Hobj Hv).
    + intros [k v] He. cbn [snd]. rewrite Forall_forall in IH.
      apply IH. eapply index_from_in. exact He.
    + intros v Pv. exact Pv.
  - apply (Entry (fun v => forall path,
                    not_an_object v = false ->
                    (forall value found,
                        Visits v path value found ->
                        if isValidationRule value then wellFormedRule value = true
                        else not_an_object value = false) ->
                    validateNestedStructure v path [] = []) (VObj kv) path Hobj Hv).
    + intros [k v] He. cbn [snd]. rewrite Forall_forall in IH.
      apply (IH (k, v) He).
    + intros v Pv. exact Pv.
Qed.

(** X19: a schema of well-formed rules is accepted: when the schema and the
    value of every route are objects, and every entry the walk meets is
    either a rule with permitted keys, values of the types asked for and
    a string [dataType] of the enumeration, or an object that is no
    rule, [validateSchema] answers true and records no error. *)
Theorem well_formed_schema_is_accepted schema :
  not_an_object schema = false ->
  (forall route tree,
      In (route, tree) (own_entries schema) ->
      not_an_object tree = false
      /\ forall value found,
           Visits tree route value found ->
           if isValidationRule value then wellFormedRule value = true
           else not_an_object value = false) ->
  schemaValidator schema [] = {| isValid := true; error := [] |}
  /\ validateSchema schema = true.
Proof.
  intros Hobj Hall.
  assert (E : error (schemaValidator schema []) = []).
  { rewrite (schemaValidator_routes _ Hobj).
    induction (own_entries schema) as [|[route tree] l IH]; [reflexivity|].
    cbn [flat_map fst snd].
    destruct (Hall route tree (or_introl eq_refl)) as [Ht Hv].
    rewrite Ht, (well_formed_tree_no_error tree route Ht Hv).
    apply IH. intros r t Hin. apply Hall. now right. }
  unfold validateSchema, schemaValidator in *. rewrite Hobj in *.
  cbn [error isValid] in *. rewrite E. split; reflexivity.
Qed.

Lemma well_formed_schema_is_accepted_witness :
  not_an_object passwordSchema = false
  /\ schemaValidator passwordSchema [] = {| isValid := true; error := [] |}
  /\ validateSchema passwordSchema = true.
Proof.
  split; [reflexivity|].
  apply well_formed_schema_is_accepted; [reflexivity|].
  intros route tree [H|[]]. injection H as <- <-. split; [reflexivity|].
  intros value found Hvis.
  inversion Hvis as [t p k v Ho Hin | t p k sub v fnd Ho Hin Hr Hso Hv]; subst.
  - destruct Hin as [Hin|[]]. injection Hin as <- <-. reflexivity.
  - destruct Hin as [Hin|[]]. injection Hin as <- <-. discriminate Hr.
Defined.

(** ** Rules without a type *)

Lemma kinds_without_type rule :
  truthy (get rule "dataType") = false ->
  noSanitizer (ruleKinds rule) = true.
Proof.
  intros Hd. unfold ruleKinds, noSanitizer, dataTypeKinds. rewrite Hd.
  rewrite !forallb_app.
  unfold mandatoryKinds, regexKinds, minMaxKinds, lengthKinds, allowedKinds.
  repeat match goal with |- context [if ?b then _ else _] => destruct b end;
    reflexivity.
Qed.

Lemma noSanitizer_erase items :
  noSanitizer (map erase items) = noSanitizer items.
Proof.
  unfold noSanitizer. induction items as [|it rest IH]; [reflexivity|].
  cbn [map forallb]. rewrite IH. now destruct it.
Qed.

(** X21: a rule without a data type never changes the request: when
    [dataType] is falsy the chain holds checks only, and whatever they
    answer the request object comes back as it went in. *)
Theorem untyped_rule_keeps_request ext f rule c input :
  truthy (get rule "dataType") = false ->
  buildChain f rule = Some c ->
  snd (validateField (Chain.run ext) c input) = input.
Proof.
  intros Hd Hc. destruct (buildChain_shape _ _ _ Hc) as (_ & _ & K & _).
  assert (Hno : noSanitizer (stack c) = true)
    by (rewrite <- noSanitizer_erase, K; now apply kinds_without_type).
  unfold validateField, Chain.run.
  pose proof (proj1 (checks_keep_value ext (isOptional c) (stack c)
                       (get_path (field c) (get input "body")) Hno)) as V.
  destruct (run_stack _ _ _ _) as [x' errs]. cbn [fst] in V. subst x'.
  cbn [snd]. now rewrite Value_eqb_refl.
Qed.

Lemma untyped_rule_keeps_request_witness :
  (truthy (get codeRule "dataType") = false
   /\ buildChain "code" codeRule = Some codeChain)
  /\ forall ext,
       snd (validateField (Chain.run ext) codeChain (inputOf "code" (VStr " a ")))
       = inputOf "code" (VStr " a ").
Proof.
  split; [split; reflexivity|].
  intros ext.
  exact (untyped_rule_keeps_request ext "code" codeRule codeChain
           (inputOf "code" (VStr " a ")) eq_refl eq_refl).
Defined.
